(** * Movie-Booking-Api: seat allocation, booking transaction and suggestions

    A shallow embedding of [app/routers/user.py], [app/model/model.py] and
    [app/schemas/schemas.py].  Tables are lists of records in insertion
    order, Python integers are [Z], and every handler is a computation over
    the SQLAlchemy session (committed image, working image, row locks).
    The columns of the database and the values of [datetime] are bounded
    where [Z] is not: a statement about a value that reaches a column, or
    about arithmetic on times, carries the bound as a hypothesis. *)

From Stdlib Require Import ZArith List String Bool Lia Permutation Sorted.
Import ListNotations.
Open Scope string_scope.
Open Scope list_scope.
Open Scope Z_scope.

(** ** Python built-ins used by the handlers *)

Module Py.

Definition len {A : Type} (l : list A) : Z := Z.of_nat (List.length l).

(** [range(lo, hi)] *)
Definition range (lo hi : Z) : list Z :=
  map (fun i => lo + Z.of_nat i) (seq 0 (Z.to_nat (hi - lo))).

(** Index normalisation of a slice bound: a negative bound counts from the
    end, and both bounds are clamped to [0, len]. *)
Definition clamp (n x : Z) : Z :=
  if x <? 0 then Z.max (x + n) 0 else Z.min x n.

(** [l[i:j]] *)
Definition slice {A : Type} (l : list A) (i j : Z) : list A :=
  let i' := clamp (len l) i in
  let j' := clamp (len l) j in
  firstn (Z.to_nat (j' - i')) (skipn (Z.to_nat i') l).

(** [l[j]] for an index inside the list *)
Definition item (l : list Z) (j : Z) : Z := nth (Z.to_nat j) l 0.

(** [all(p(j) for j in js)] *)
Definition all {A : Type} (p : A -> bool) (js : list A) : bool := forallb p js.

(** [any(p(x) for x in xs)] *)
Definition any {A : Type} (p : A -> bool) (xs : list A) : bool := existsb p xs.

Section Sort.
Context {A : Type} (le : A -> A -> bool).

Fixpoint insert (x : A) (l : list A) : list A :=
  match l with
  | [] => [x]
  | y :: l' => if le x y then x :: l else y :: insert x l'
  end.

(** A stable sort, as [list.sort] and [sorted] are. *)
Definition sort (l : list A) : list A := fold_right insert [] l.
End Sort.

(** [sorted(set(l))] on integers *)
Definition sorted_set (l : list Z) : list Z := sort Z.leb (nodup Z.eq_dec l).

End Py.

(** ** Tables ([app/model/model.py]) *)

(** [DateTime(timezone=False)]: a point of the time line, in microseconds. *)
Definition datetime := Z.

Definition timedelta_minutes (m : Z) : Z := m * 60 * 1000000.

Record Movie := mkMovie
  { movie_id : Z; movie_title : string; movie_duration_minutes : Z }.

Record Theater := mkTheater
  { theater_id : Z; theater_name : string; theater_location : option string }.

Record Hall := mkHall
  { hall_id : Z; hall_theater_id : Z; hall_name : string }.

Record Seat := mkSeat
  { seat_id : Z; seat_hall_id : Z; seat_row_index : Z; seat_seat_number : Z;
    seat_is_aisle : bool }.

(** [price] is a [Numeric(8,2)]: kept in hundredths. *)
Record Show := mkShow
  { show_id : Z; show_movie_id : Z; show_hall_id : Z; show_start_time : datetime;
    show_price : Z }.

Record ShowSeat := mkShowSeat
  { ss_id : Z; ss_show_id : Z; ss_row_index : Z; ss_seat_number : Z;
    ss_status : string; ss_booking_id : option Z }.

Record Booking := mkBooking
  { booking_id : Z; booking_show_id : Z; booking_group_name : option string;
    booking_created_at : datetime }.

Record Db := mkDb
  { movies : list Movie; theaters : list Theater; halls : list Hall;
    seats : list Seat; shows : list Show; show_seats : list ShowSeat;
    bookings : list Booking }.

Definition empty_db : Db := mkDb [] [] [] [] [] [] [].

(** Autoincrement primary key: larger than every key of the table. *)
Definition next_id (ids : list Z) : Z := 1 + fold_right Z.max 0 ids.

(** [UniqueConstraint("hall_id", "row_index", "seat_number")] *)
Definition seat_key (s : Seat) : Z * Z * Z :=
  (seat_hall_id s, seat_row_index s, seat_seat_number s).

(** [UniqueConstraint("show_id", "row_index", "seat_number")] *)
Definition ss_key (s : ShowSeat) : Z * Z * Z :=
  (ss_show_id s, ss_row_index s, ss_seat_number s).

Definition key_eqb (a b : Z * Z * Z) : bool :=
  let '(a1, a2, a3) := a in
  let '(b1, b2, b3) := b in
  (a1 =? b1) && (a2 =? b2) && (a3 =? b3).

Fixpoint distinct_keys (l : list (Z * Z * Z)) : bool :=
  match l with
  | [] => true
  | k :: l' => negb (existsb (key_eqb k) l') && distinct_keys l'
  end.

Definition uq_hall_row_seat (db : Db) : bool :=
  distinct_keys (map seat_key (seats db)).

Definition uq_show_row_seat (db : Db) : bool :=
  distinct_keys (map ss_key (show_seats db)).

(** [booking_id = Column(ForeignKey("bookings.id"), nullable=True)] *)
Definition fk_show_seat_booking (db : Db) : bool :=
  forallb
    (fun s =>
       match ss_booking_id s with
       | None => true
       | Some b => existsb (fun bk => booking_id bk =? b) (bookings db)
       end)
    (show_seats db).

(** ** Request and response bodies ([app/schemas/schemas.py]) *)

Record HallCreateRow := mkHallCreateRow
  { hcr_row_index : Z; hcr_seat_count : Z; hcr_aisle_seats : option (list Z) }.

Record HallCreate := mkHallCreate
  { hc_name : string; hc_rows : list HallCreateRow }.

Record ShowCreate := mkShowCreate
  { sc_movie_id : Z; sc_hall_id : Z; sc_start_time : datetime; sc_price : Z }.

Record BookingRequest := mkBookingRequest
  { br_show_id : Z; br_group_name : option string; br_seats_requested : Z }.

Record BookingResponse := mkBookingResponse
  { resp_booking_id : Z; resp_seats : list (Z * Z) }.

(** [row_index: conint(ge=1)], [seat_count: conint(ge=6)] *)
Definition HallCreateRow_valid (r : HallCreateRow) : bool :=
  (1 <=? hcr_row_index r) && (6 <=? hcr_seat_count r).

Definition HallCreate_valid (p : HallCreate) : bool :=
  forallb HallCreateRow_valid (hc_rows p).

(** [show_id: int], [seats_requested: int]: every integer is accepted. *)
Definition BookingRequest_valid (p : BookingRequest) : bool := true.

(** The entries of the suggestion list of [suggest_other_shows]; the start
    time is the one the handler renders with [isoformat()]. *)
Record Suggestion := mkSuggestion
  { sg_show_id : Z; sg_start_time : datetime; sg_seats : list (Z * Z) }.

Record BookingView := mkBookingView
  { bv_booking : Booking; bv_seats : list (Z * Z) }.

(** ** The session monad *)

Inductive Detail :=
| Message (msg : string)
| MessageWithSuggestions (msg : string) (suggestions : list Suggestion).

(** [InvalidRequestError] is SQLAlchemy's "A transaction is already begun on
    this Session". *)
Inductive Exn :=
| HTTPException (status_code : Z) (detail : Detail)
| IntegrityError
| InvalidRequestError
| RequestValidationError.

Inductive Outcome (A : Type) :=
| Return (a : A)
| Raise (e : Exn).
Arguments Return {A} a.
Arguments Raise {A} e.

(** [committed] is what every other connection sees, [working] is the image
    of the open transaction, [locked] lists the primary keys of the
    [show_seats] rows held [FOR UPDATE]. *)
Record Session := mkSession
  { committed : Db; working : Db; locked : list Z }.

Definition M (A : Type) : Type := Session -> Session * Outcome A.

Definition ret {A : Type} (a : A) : M A := fun s => (s, Return a).

Definition bind {A B : Type} (m : M A) (f : A -> M B) : M B :=
  fun s =>
    match m s with
    | (s', Return a) => f a s'
    | (s', Raise e) => (s', Raise e)
    end.

Definition raise {A : Type} (e : Exn) : M A := fun s => (s, Raise e).

Declare Scope session_scope.
Delimit Scope session_scope with session.
Notation "x <- m ;; k" := (bind m (fun x => k))
  (at level 61, m at next level, right associativity) : session_scope.
Notation "m ;; k" := (bind m (fun _ => k))
  (at level 61, right associativity) : session_scope.
Open Scope session_scope.

(** [for x in xs: body(x)] *)
Fixpoint for_each {A : Type} (xs : list A) (body : A -> M unit) : M unit :=
  match xs with
  | [] => ret tt
  | x :: xs' => body x ;; for_each xs' body
  end.

(** A loop that rebinds a local variable [acc] in its body. *)
Fixpoint for_fold {A B : Type} (xs : list A) (acc : B) (body : B -> A -> M B) : M B :=
  match xs with
  | [] => ret acc
  | x :: xs' => acc' <- body acc x ;; for_fold xs' acc' body
  end.

(** [await db.execute(select(...))]: a read of the working image. *)
Definition db_execute {A : Type} (q : Db -> A) : M A :=
  fun s => (s, Return (q (working s))).

Definition db_modify (f : Db -> Db) : M unit :=
  fun s => (mkSession (committed s) (f (working s)) (locked s), Return tt).

(** [await db.flush()]: the pending INSERTs reach the database, which
    refuses them when a unique constraint is violated. *)
Definition db_flush : M unit :=
  fun s =>
    if uq_hall_row_seat (working s) && uq_show_row_seat (working s)
    then (s, Return tt)
    else (s, Raise IntegrityError).

Definition db_rollback : M unit :=
  fun s => (mkSession (committed s) (committed s) [], Return tt).

(** [await db.commit()]: flush, publish the working image, release locks. *)
Definition db_commit : M unit :=
  db_flush ;; fun s => (mkSession (working s) (working s) [], Return tt).

(** [async with db.begin(): body].  A session begins its transaction by
    itself the first time it is used ([autobegin]), and [begin()] on a session
    that has been used raises [InvalidRequestError] before the body runs.  On
    a session that has not been used it opens the transaction, commits when
    the block ends and rolls back when it raises.  The images of a [Session]
    do not record whether the session has been used: the caller passes what
    holds at the call, [used = true] after any [db.get], [db.execute] or
    [db.add]. *)
Definition db_begin {A : Type} (used : bool) (body : M A) : M A :=
  if used then raise InvalidRequestError
  else
    fun s =>
      match body s with
      | (s', Return a) =>
          match db_commit s' with
          | (s'', Return _) => (s'', Return a)
          | (s'', Raise e) => (fst (db_rollback s''), Raise e)
          end
      | (s', Raise e) => (fst (db_rollback s'), Raise e)
      end.

(** [select(ShowSeat).where(...).with_for_update()] *)
Definition db_lock_show_seats (where_ : ShowSeat -> bool) : M unit :=
  fun s =>
    (mkSession (committed s) (working s)
       (locked s ++ map ss_id (filter where_ (show_seats (working s)))),
     Return tt).

(** Modelled from the spec: [get_db], which [routers/user.py] imports from
    [app.database.database] and that module does not define.  It hands the
    handler a fresh session and closes it afterwards, so that work that was
    not committed is rolled back ("transaction rollback is unconditional on
    any validation failure or abort"). *)
Definition get_db {A : Type} (handler : M A) (db : Db) : Db * Outcome A :=
  let '(s, r) := handler (mkSession db db []) in (committed s, r).

(** ** Catalogue handlers *)

Definition db_get_theater (id : Z) : M (option Theater) :=
  db_execute (fun db => find (fun t => theater_id t =? id) (theaters db)).

Definition db_get_movie (id : Z) : M (option Movie) :=
  db_execute (fun db => find (fun m => movie_id m =? id) (movies db)).

Definition db_get_hall (id : Z) : M (option Hall) :=
  db_execute (fun db => find (fun h => hall_id h =? id) (halls db)).

Definition db_get_show (id : Z) : M (option Show) :=
  db_execute (fun db => find (fun sh => show_id sh =? id) (shows db)).

Definition db_get_booking (id : Z) : M (option Booking) :=
  db_execute (fun db => find (fun b => booking_id b =? id) (bookings db)).

Definition add_movie (m : Movie) (db : Db) : Db :=
  mkDb (movies db ++ [m]) (theaters db) (halls db) (seats db) (shows db)
       (show_seats db) (bookings db).

Definition add_theater (t : Theater) (db : Db) : Db :=
  mkDb (movies db) (theaters db ++ [t]) (halls db) (seats db) (shows db)
       (show_seats db) (bookings db).

Definition add_hall (h : Hall) (db : Db) : Db :=
  mkDb (movies db) (theaters db) (halls db ++ [h]) (seats db) (shows db)
       (show_seats db) (bookings db).

Definition add_seat (x : Seat) (db : Db) : Db :=
  mkDb (movies db) (theaters db) (halls db) (seats db ++ [x]) (shows db)
       (show_seats db) (bookings db).

Definition add_show (sh : Show) (db : Db) : Db :=
  mkDb (movies db) (theaters db) (halls db) (seats db) (shows db ++ [sh])
       (show_seats db) (bookings db).

Definition add_show_seat (x : ShowSeat) (db : Db) : Db :=
  mkDb (movies db) (theaters db) (halls db) (seats db) (shows db)
       (show_seats db ++ [x]) (bookings db).

Definition add_booking (b : Booking) (db : Db) : Db :=
  mkDb (movies db) (theaters db) (halls db) (seats db) (shows db)
       (show_seats db) (bookings db ++ [b]).

Definition set_seats (l : list Seat) (db : Db) : Db :=
  mkDb (movies db) (theaters db) (halls db) l (shows db)
       (show_seats db) (bookings db).

Definition set_show_seats (l : list ShowSeat) (db : Db) : Db :=
  mkDb (movies db) (theaters db) (halls db) (seats db) (shows db)
       l (bookings db).

(** [db.add(x)] for each table: the row gets the next primary key. *)
Definition db_add_movie (title : string) (duration : Z) : M Movie :=
  ids <- db_execute (fun db => map movie_id (movies db)) ;;
  let m := mkMovie (next_id ids) title duration in
  db_modify (add_movie m) ;; ret m.

Definition db_add_theater (name : string) (location : option string) : M Theater :=
  ids <- db_execute (fun db => map theater_id (theaters db)) ;;
  let t := mkTheater (next_id ids) name location in
  db_modify (add_theater t) ;; ret t.

Definition db_add_hall (theater : Z) (name : string) : M Hall :=
  ids <- db_execute (fun db => map hall_id (halls db)) ;;
  let h := mkHall (next_id ids) theater name in
  db_modify (add_hall h) ;; ret h.

Definition db_add_seat (hall row num : Z) (is_aisle : bool) : M unit :=
  ids <- db_execute (fun db => map seat_id (seats db)) ;;
  db_modify (add_seat (mkSeat (next_id ids) hall row num is_aisle)).

Definition db_add_show (movie hall : Z) (start : datetime) (price : Z) : M Show :=
  ids <- db_execute (fun db => map show_id (shows db)) ;;
  let sh := mkShow (next_id ids) movie hall start price in
  db_modify (add_show sh) ;; ret sh.

Definition db_add_show_seat (show row num : Z) (status : string) : M unit :=
  ids <- db_execute (fun db => map ss_id (show_seats db)) ;;
  db_modify (add_show_seat (mkShowSeat (next_id ids) show row num status None)).

Definition db_add_booking (show : Z) (group_name : option string) (now : datetime)
  : M Booking :=
  ids <- db_execute (fun db => map booking_id (bookings db)) ;;
  let b := mkBooking (next_id ids) show group_name now in
  db_modify (add_booking b) ;; ret b.

Definition create_movie (title : string) (duration : Z) : M Movie :=
  m <- db_add_movie title duration ;;
  db_commit ;;
  ret m.

Definition create_theater (name : string) (location : option string) : M Theater :=
  t <- db_add_theater name location ;;
  db_commit ;;
  ret t.

Definition row_too_short : Exn :=
  HTTPException 400 (Message "each row must have at least 6 seats").

Definition create_hall (theater : Z) (payload : HallCreate) : M Hall :=
  t <- db_get_theater theater ;;
  match t with
  | None => raise (HTTPException 404 (Message "theater not found"))
  | Some _ =>
      h <- db_add_hall theater (hc_name payload) ;;
      db_flush ;;
      for_each (hc_rows payload) (fun r =>
        if hcr_seat_count r <? 6
        then raise row_too_short
        else
          for_each (Py.range 1 (hcr_seat_count r + 1)) (fun seat_num =>
            let is_aisle :=
              existsb (Z.eqb seat_num)
                      (match hcr_aisle_seats r with Some l => l | None => [] end) in
            db_add_seat (hall_id h) (hcr_row_index r) seat_num is_aisle)) ;;
      db_commit ;;
      ret h
  end.

Definition create_show (payload : ShowCreate) : M Show :=
  movie <- db_get_movie (sc_movie_id payload) ;;
  hall <- db_get_hall (sc_hall_id payload) ;;
  match movie, hall with
  | Some _, Some _ =>
      show <- db_add_show (sc_movie_id payload) (sc_hall_id payload)
                          (sc_start_time payload) (sc_price payload) ;;
      db_flush ;;
      hall_seats <- db_execute (fun db =>
        filter (fun hs => seat_hall_id hs =? sc_hall_id payload) (seats db)) ;;
      for_each hall_seats (fun hs =>
        db_add_show_seat (show_id show) (seat_row_index hs) (seat_seat_number hs)
                         "available") ;;
      db_commit ;;
      ret show
  | _, _ => raise (HTTPException 404 (Message "movie or hall not found"))
  end.

(** ** Booking logic *)

(** [order_by(ShowSeat.row_index, ShowSeat.seat_number)] *)
Definition row_seat_leb (a b : ShowSeat) : bool :=
  (ss_row_index a <? ss_row_index b)
  || ((ss_row_index a =? ss_row_index b) && (ss_seat_number a <=? ss_seat_number b)).

Definition select_show_seats_ordered (show : Z) (db : Db) : list ShowSeat :=
  Py.sort row_seat_leb (filter (fun s => ss_show_id s =? show) (show_seats db)).

(** [rows[key].append(n)] on a [defaultdict(list)]: a dict keeps its keys in
    the order of their first insertion. *)
Fixpoint rows_append (rows : list (Z * list Z)) (key n : Z) : list (Z * list Z) :=
  match rows with
  | [] => [(key, [n])]
  | (k, l) :: rows' =>
      if k =? key then (k, l ++ [n]) :: rows' else (k, l) :: rows_append rows' key n
  end.

Definition is_available (s : ShowSeat) : bool := String.eqb (ss_status s) "available".

Definition group_step (rows : list (Z * list Z)) (s : ShowSeat) : list (Z * list Z) :=
  if is_available s
  then rows_append rows (ss_row_index s) (ss_seat_number s)
  else rows.

(** [for s in all_seats: if s.status == "available": rows[...].append(...)] *)
Definition group_by_row (all_seats : list ShowSeat) : list (Z * list Z) :=
  fold_left group_step all_seats [].

(** [all(window[j] + 1 == window[j+1] for j in range(len(window)-1))] *)
Definition strictly_consecutive (window : list Z) : bool :=
  Py.all (fun j => Py.item window j + 1 =? Py.item window (j + 1))
         (Py.range 0 (Py.len window - 1)).

(** The sliding window over one row: the first [i] of
    [range(len(seat_list) - group_size + 1)] whose window passes. *)
Definition first_window (seat_list : list Z) (group_size : Z) : option (list Z) :=
  match
    find (fun i => strictly_consecutive (Py.slice seat_list i (i + group_size)))
         (Py.range 0 (Py.len seat_list - group_size + 1))
  with
  | Some i => Some (Py.slice seat_list i (i + group_size))
  | None => None
  end.

Fixpoint scan_rows (rows : list (Z * list Z)) (group_size : Z)
  : option (list (Z * Z)) :=
  match rows with
  | [] => None
  | (row_idx, seat_list) :: rows' =>
      match first_window (Py.sort Z.leb seat_list) group_size with
      | Some window => Some (map (fun sn => (row_idx, sn)) window)
      | None => scan_rows rows' group_size
      end
  end.

Definition find_contiguous_in_show (show group_size : Z)
  : M (option (list (Z * Z))) :=
  all_seats <- db_execute (select_show_seats_ordered show) ;;
  match all_seats with
  | [] => ret None
  | _ => ret (scan_rows (group_by_row all_seats) group_size)
  end.

(** [Show.start_time.between(start, end)], [order_by(Show.start_time)] *)
Definition select_shows_between (start end_ : datetime) (db : Db) : list Show :=
  Py.sort (fun a b => show_start_time a <=? show_start_time b)
          (filter (fun sh => (start <=? show_start_time sh)
                              && (show_start_time sh <=? end_))
                  (shows db)).

(** Truth value of an [Optional[List]]: [None] and [[]] are false. *)
Definition truthy {A : Type} (x : option (list A)) : bool :=
  match x with
  | Some (_ :: _) => true
  | _ => false
  end.

Definition suggest_other_shows (target_show : Show) (group_size : Z)
                               (time_window_minutes : Z) : M (list Suggestion) :=
  let start := show_start_time target_show - timedelta_minutes time_window_minutes in
  let end_ := show_start_time target_show + timedelta_minutes time_window_minutes in
  candidates <- db_execute (select_shows_between start end_) ;;
  for_fold candidates [] (fun suggestions s =>
    contiguous <- find_contiguous_in_show (show_id s) group_size ;;
    if truthy contiguous
    then ret (suggestions
                ++ [mkSuggestion (show_id s) (show_start_time s)
                                 (match contiguous with Some c => c | None => [] end)])
    else ret suggestions).

(** [sa.tuple_(ShowSeat.row_index, ShowSeat.seat_number).in_(contiguous)] *)
Definition tuple_in (contiguous : list (Z * Z)) (s : ShowSeat) : bool :=
  existsb (fun p => (fst p =? ss_row_index s) && (snd p =? ss_seat_number s))
          contiguous.

Definition candidate_where (show : Z) (contiguous : list (Z * Z)) (s : ShowSeat) : bool :=
  (ss_show_id s =? show) && tuple_in contiguous s.

(** The row written by [values(status="booked", booking_id=b)]. *)
Definition booked_by (b : Z) (s : ShowSeat) : ShowSeat :=
  mkShowSeat (ss_id s) (ss_show_id s) (ss_row_index s) (ss_seat_number s)
             "booked" (Some b).

(** [update(ShowSeat).where(...).values(status="booked", booking_id=b)] *)
Definition update_show_seats (where_ : ShowSeat -> bool) (b : Z) (db : Db) : Db :=
  set_show_seats
    (map (fun s => if where_ s then booked_by b s else s) (show_seats db))
    db.

(** The [q_check] query of [book_group]. *)
Definition select_candidate (show : Z) (contiguous : list (Z * Z)) (db : Db)
  : list ShowSeat :=
  filter (candidate_where show contiguous) (show_seats db).

(** [any(s.status != "available" for s in seats_now)
     or len(seats_now) != len(contiguous)] *)
Definition recheck_fails (seats_now : list ShowSeat) (contiguous : list (Z * Z)) : bool :=
  Py.any (fun s => negb (is_available s)) seats_now
  || negb (Py.len seats_now =? Py.len contiguous).

Definition conflict_409 : Exn :=
  HTTPException 409
    (Message "some seats became unavailable while booking; please retry or choose alternatives").

(** The body of the [async with db.begin():] block of [book_group], for the
    candidate block the unlocked search proposed. *)
Definition booking_block (payload : BookingRequest) (now : datetime)
                         (contiguous : list (Z * Z)) : M Booking :=
  let rows_to_lock := Py.sorted_set (map fst contiguous) in
  db_lock_show_seats (fun s =>
    (ss_show_id s =? br_show_id payload)
    && existsb (Z.eqb (ss_row_index s)) rows_to_lock) ;;
  seats_now <- db_execute (select_candidate (br_show_id payload) contiguous) ;;
  if recheck_fails seats_now contiguous
  then raise conflict_409
  else
    booking <- db_add_booking (br_show_id payload) (br_group_name payload) now ;;
    db_flush ;;
    db_modify (update_show_seats
                 (candidate_where (br_show_id payload) contiguous)
                 (booking_id booking)) ;;
    ret booking.

(** [now] is the reading of [func.now()] that fills [created_at].  When the
    handler reaches [async with db.begin():] its session has been used, by
    [db.get(Show, ...)] and by the query of the finder, so [begin()] raises
    and the block does not run. *)
Definition book_group (payload : BookingRequest) (now : datetime) : M BookingResponse :=
  show <- db_get_show (br_show_id payload) ;;
  match show with
  | None => raise (HTTPException 404 (Message "show not found"))
  | Some show =>
      contiguous <- find_contiguous_in_show (br_show_id payload)
                                            (br_seats_requested payload) ;;
      match contiguous with
      | None =>
          suggestions <- suggest_other_shows show (br_seats_requested payload) 180 ;;
          raise (HTTPException 409
                   (MessageWithSuggestions
                      "cannot find contiguous seats in requested show" suggestions))
      | Some contiguous =>
          booking <- db_begin true (booking_block payload now contiguous) ;;
          ret (mkBookingResponse (booking_id booking) contiguous)
      end
  end.

(** The block of [book_group] in a session of its own that has not been
    used, where [begin()] opens the transaction: the block as it is written,
    which the handler never reaches. *)
Definition book_group_locked (payload : BookingRequest) (now : datetime)
                             (contiguous : list (Z * Z)) : M BookingResponse :=
  booking <- db_begin false (booking_block payload now contiguous) ;;
  ret (mkBookingResponse (booking_id booking) contiguous).

(** [(s.row_index, s.seat_number)] *)
Definition seat_pair (s : ShowSeat) : Z * Z := (ss_row_index s, ss_seat_number s).

(** [select(ShowSeat).where(ShowSeat.booking_id == booking_id)] *)
Definition select_seats_of_booking (id : Z) (db : Db) : list ShowSeat :=
  filter (fun s => match ss_booking_id s with
                   | Some x => x =? id
                   | None => false
                   end)
         (show_seats db).

Definition get_booking (id : Z) : M BookingView :=
  b <- db_get_booking id ;;
  match b with
  | None => raise (HTTPException 404 (Message "booking not found"))
  | Some b =>
      seats <- db_execute (select_seats_of_booking id) ;;
      ret (mkBookingView b (map seat_pair seats))
  end.

(** ** The endpoints: body validation, then the handler in its own session *)

Definition post_hall (theater : Z) (payload : HallCreate) (db : Db) : Db * Outcome Hall :=
  if HallCreate_valid payload
  then get_db (create_hall theater payload) db
  else (db, Raise RequestValidationError).

Definition post_book (payload : BookingRequest) (now : datetime) (db : Db)
  : Db * Outcome BookingResponse :=
  if BookingRequest_valid payload
  then get_db (book_group payload now) db
  else (db, Raise RequestValidationError).

(** The steps that change the database: the requests of the API, and
    [CommitBook], which is no request: it is the block of [book_group] run
    in a session where its transaction can begin ([book_group_locked]).
    The handler cannot take that step; with it the databases reached below
    include every one the block could produce as it is written, so what
    holds of all of them holds of the databases the API reaches. *)
Inductive Request :=
| PostMovie (title : string) (duration : Z)
| PostTheater (name : string) (location : option string)
| PostHall (theater : Z) (payload : HallCreate)
| PostShow (payload : ShowCreate)
| PostBook (payload : BookingRequest) (now : datetime)
| CommitBook (payload : BookingRequest) (now : datetime) (contiguous : list (Z * Z)).

Definition serve (db : Db) (r : Request) : Db :=
  match r with
  | PostMovie title duration => fst (get_db (create_movie title duration) db)
  | PostTheater name location => fst (get_db (create_theater name location) db)
  | PostHall theater payload => fst (post_hall theater payload db)
  | PostShow payload => fst (get_db (create_show payload) db)
  | PostBook payload now => fst (post_book payload now db)
  | CommitBook payload now contiguous =>
      fst (get_db (book_group_locked payload now contiguous) db)
  end.

Definition serve_all (db : Db) (rs : list Request) : Db := fold_left serve rs db.


(** ** Read handlers of [routers/user.py] *)

(** [GET /movies] *)
Definition list_movies : M (list Movie) := db_execute movies.

(** [GET /movies/{movie_id}] *)
Definition get_movie (id : Z) : M Movie :=
  r <- db_get_movie id ;;
  match r with
  | None => raise (HTTPException 404 (Message "movie not found"))
  | Some r => ret r
  end.

(** [GET /shows/{show_id}] *)
Definition get_show (id : Z) : M Show :=
  s <- db_get_show id ;;
  match s with
  | None => raise (HTTPException 404 (Message "show not found"))
  | Some s => ret s
  end.

(** [layout.setdefault(key, []).append(v)]: a dict keeps its keys in the
    order of their first insertion. *)
Fixpoint setdefault_append {V : Type} (layout : list (Z * list V)) (key : Z) (v : V)
  : list (Z * list V) :=
  match layout with
  | [] => [(key, [v])]
  | (k, l) :: layout' =>
      if k =? key then (k, l ++ [v]) :: layout'
      else (k, l) :: setdefault_append layout' key v
  end.

(** [layout = {}; for s in seats: layout.setdefault(key(s), []).append(val(s))] *)
Definition layout_of {A V : Type} (key : A -> Z) (val : A -> V) (seats : list A)
  : list (Z * list V) :=
  fold_left (fun layout s => setdefault_append layout (key s) (val s)) seats [].

(** [{"seat_number": ..., "is_aisle": ...}] *)
Record LayoutSeat := mkLayoutSeat { ls_seat_number : Z; ls_is_aisle : bool }.

(** [{"hall_id": hall_id, "layout": layout}] *)
Record HallLayout := mkHallLayout
  { hl_hall_id : Z; hl_layout : list (Z * list LayoutSeat) }.

(** [order_by(Seat.row_index, Seat.seat_number)] *)
Definition seat_row_leb (a b : Seat) : bool :=
  (seat_row_index a <? seat_row_index b)
  || ((seat_row_index a =? seat_row_index b)
      && (seat_seat_number a <=? seat_seat_number b)).

Definition select_hall_seats_ordered (hall : Z) (db : Db) : list Seat :=
  Py.sort seat_row_leb (filter (fun s => seat_hall_id s =? hall) (seats db)).

(** [GET /theaters/{theater_id}/halls/{hall_id}/layout] *)
Definition hall_layout (theater hall : Z) : M HallLayout :=
  seats <- db_execute (select_hall_seats_ordered hall) ;;
  match seats with
  | [] => raise (HTTPException 404 (Message "no seats / hall not found"))
  | _ =>
      ret (mkHallLayout hall
             (layout_of seat_row_index
                        (fun s => mkLayoutSeat (seat_seat_number s) (seat_is_aisle s))
                        seats))
  end.

(** [{"seat_number": ..., "status": ...}] *)
Record MapSeat := mkMapSeat { ms_seat_number : Z; ms_status : string }.

(** [{"show_id": show_id, "layout": layout}] *)
Record SeatMap := mkSeatMap
  { sm_show_id : Z; sm_layout : list (Z * list MapSeat) }.

(** [GET /shows/{show_id}/seats], the handler [show_seats] of the router
    (the name is taken here by the table). *)
Definition show_seats_map (show : Z) : M SeatMap :=
  seats <- db_execute (select_show_seats_ordered show) ;;
  match seats with
  | [] => raise (HTTPException 404 (Message "show seats not found"))
  | _ =>
      ret (mkSeatMap show
             (layout_of ss_row_index
                        (fun s => mkMapSeat (ss_seat_number s) (ss_status s))
                        seats))
  end.
(** ** Vocabulary of the properties *)

(** The numbers [a], [a+1], ..., [a+k-1] all occur in [l]. *)
Definition has_run (l : list Z) (a k : Z) : Prop :=
  forall j, 0 <= j < k -> In (a + j) l.

(** The strict order of [ORDER BY row_index, seat_number]. *)
Definition lex_lt (a b : ShowSeat) : Prop :=
  ss_row_index a < ss_row_index b
  \/ (ss_row_index a = ss_row_index b /\ ss_seat_number a < ss_seat_number b).

(** What the [rows] dict holds after the seats [P] were processed: row
    indices ascending, and under each the available seat numbers of that row,
    ascending. *)
Record grouped (P : list ShowSeat) (rows : list (Z * list Z)) : Prop := mkGrouped
  { g_keys : StronglySorted Z.lt (map fst rows);
    g_lists : forall r sl, In (r, sl) rows -> StronglySorted Z.lt sl /\ sl <> [];
    g_mem : forall r n,
      (exists sl, In (r, sl) rows /\ In n sl) <->
      (exists s, In s P /\ is_available s = true
                 /\ ss_row_index s = r /\ ss_seat_number s = n) }.

(** The show has a seat (r, n) and its status is available. *)
Definition available_at (db : Db) (show r n : Z) : Prop :=
  exists s, In s (show_seats db) /\ ss_show_id s = show /\ ss_row_index s = r
            /\ ss_seat_number s = n /\ ss_status s = "available".

(** Seats [a], ..., [a+k-1] of row [r] of the show are all available. *)
Definition is_run (db : Db) (show k r a : Z) : Prop :=
  forall j, 0 <= j < k -> available_at db show r (a + j).

(** The block [(r, a); (r, a+1); ...; (r, a+k-1)]. *)
Definition block (r a k : Z) : list (Z * Z) :=
  map (fun sn => (r, sn)) (Py.range a (a + k)).

(** The value [find_contiguous_in_show] returns on a database image. *)
Definition found (db : Db) (show k : Z) : option (list (Z * Z)) :=
  scan_rows (group_by_row (select_show_seats_ordered show db)) k.

(** [(r, a)] is the first start of a run of [k] available seats of the show:
    lowest row, and left-most in that row. *)
Definition first_run (db : Db) (show k r a : Z) : Prop :=
  is_run db show k r a
  /\ forall r' a', is_run db show k r' a' -> r < r' \/ (r = r' /\ a <= a').

(** The three constraints of [model.py] that the booking logic relies on. *)
Definition schema_ok (db : Db) : bool :=
  uq_hall_row_seat db && uq_show_row_seat db && fk_show_seat_booking db.

(** The list [suggest_other_shows] builds, as a function of the image. *)
Definition suggested (db : Db) (target : Show) (k w : Z) : list Suggestion :=
  flat_map
    (fun sh =>
       match found db (show_id sh) k with
       | Some (p :: c) => [mkSuggestion (show_id sh) (show_start_time sh) (p :: c)]
       | _ => []
       end)
    (select_shows_between (show_start_time target - timedelta_minutes w)
                          (show_start_time target + timedelta_minutes w) db).

(** The seat numbers stored under one (hall or show, row), in table order. *)
Definition row_of_keys (h r : Z) (keys : list (Z * Z * Z)) : list Z :=
  map snd (filter (fun k => (fst (fst k) =? h) && (snd (fst k) =? r)) keys).

Definition hall_row (db : Db) (h r : Z) : list Z :=
  row_of_keys h r (map seat_key (seats db)).

Definition show_row (db : Db) (sh r : Z) : list Z :=
  row_of_keys sh r (map ss_key (show_seats db)).

(** A row of at least six seats numbered 1, 2, ..., n. *)
Definition full_row (l : list Z) : Prop :=
  exists n, 6 <= n /\ l = Py.range 1 (n + 1).

(** The keys of the seats [create_hall] adds for a layout. *)
Definition new_keys (h : Z) (rows : list HallCreateRow) : list (Z * Z * Z) :=
  flat_map
    (fun r => map (fun n => (h, hcr_row_index r, n))
                  (Py.range 1 (hcr_seat_count r + 1)))
    rows.

(** What every database reached through the endpoints satisfies. *)
Record Inv (db : Db) : Prop := mkInv
  { inv_uq_hall : uq_hall_row_seat db = true;
    inv_uq_show : uq_show_row_seat db = true;
    inv_booking_pk : NoDup (map booking_id (bookings db));
    inv_booked : forall s b,
      In s (show_seats db) -> ss_booking_id s = Some b ->
      ss_status s = "booked"
      /\ exists bk, In bk (bookings db) /\ booking_id bk = b
                    /\ booking_show_id bk = ss_show_id s;
    inv_seat_fk : forall x,
      In x (seats db) -> In (seat_hall_id x) (map hall_id (halls db));
    inv_ss_fk : forall s,
      In s (show_seats db) -> In (ss_show_id s) (map show_id (shows db));
    inv_hall_rows : forall x,
      In x (seats db) -> full_row (hall_row db (seat_hall_id x) (seat_row_index x));
    inv_show_rows : forall s,
      In s (show_seats db) ->
      full_row (show_row db (ss_show_id s) (ss_row_index s)) }.

(** ** The values the columns and Python's types hold *)

(** [sa.Integer] is a 32-bit column; the driver refuses a query parameter
    and the database a value outside it. *)
Definition int32 (n : Z) : Prop := -2147483648 <= n <= 2147483647.

(** [datetime.min] (0001-01-01T00:00:00) and [datetime.max]
    (9999-12-31T23:59:59.999999), in microseconds from 1970-01-01T00:00:00;
    [datetime] arithmetic that leaves this range raises [OverflowError]. *)
Definition datetime_min : datetime := -62135596800000000.

Definition datetime_max : datetime := 253402300799999999.


(** ** Concrete databases used in the examples *)

(** One hall with a single row of ten seats, one show in it. *)
Definition layout_10 : HallCreate :=
  mkHallCreate "Hall A" [mkHallCreateRow 1 10 None].

Definition catalogue : list Request :=
  [ PostMovie "Feature" 120; PostTheater "Central" None; PostHall 1 layout_10;
    PostShow (mkShowCreate 1 1 0 1000) ].

Definition one_show_db : Db := serve_all empty_db catalogue.

(** The same show with seats 3 and 7 already booked. *)
Definition scenario_db : Db :=
  mkDb [mkMovie 1 "Feature" 120] [mkTheater 1 "Central" None] [mkHall 1 1 "Hall A"]
       (map (fun n => mkSeat n 1 1 n false) (Py.range 1 11))
       [mkShow 1 1 1 0 1000]
       (map (fun n =>
               if n =? 3 then mkShowSeat n 1 1 n "booked" (Some 1)
               else if n =? 7 then mkShowSeat n 1 1 n "booked" (Some 2)
               else mkShowSeat n 1 1 n "available" None)
            (Py.range 1 11))
       [mkBooking 1 1 None 0; mkBooking 2 1 None 0].

(** A second hall with one row of twelve seats, and a show in it that starts
    one hour after the first show. *)
Definition two_halls_db : Db :=
  serve_all one_show_db
    [ PostHall 1 (mkHallCreate "Hall B" [mkHallCreateRow 1 12 None]);
      PostShow (mkShowCreate 1 2 (timedelta_minutes 60) 1000) ].

(** A second hall without rows, and a show in it that has no seat. *)
Definition empty_hall_db : Db :=
  serve_all one_show_db
    [ PostHall 1 (mkHallCreate "Foyer" []);
      PostShow (mkShowCreate 1 2 (timedelta_minutes 60) 1000) ].

(** A layout whose second row is too short. *)
Definition layout_short : HallCreate :=
  mkHallCreate "Hall B" [mkHallCreateRow 1 8 None; mkHallCreateRow 2 5 None].

Definition session_of (db : Db) : Session := mkSession db db [].

(** ** Vocabulary of the further properties *)

(** [seat_num in (r.aisle_seats or [])] *)
Definition is_aisle_in (r : HallCreateRow) (n : Z) : bool :=
  existsb (Z.eqb n) (match hcr_aisle_seats r with Some l => l | None => [] end).

(** The columns of a seat other than its primary key. *)
Definition seat_fields (x : Seat) : Z * Z * Z * bool :=
  (seat_hall_id x, seat_row_index x, seat_seat_number x, seat_is_aisle x).

(** The seats of a layout, row after row, for hall [h]. *)
Definition layout_seats (h : Z) (rows : list HallCreateRow) : list (Z * Z * Z * bool) :=
  flat_map
    (fun r => map (fun n => (h, hcr_row_index r, n, is_aisle_in r n))
                  (Py.range 1 (hcr_seat_count r + 1)))
    rows.

(** The entry of row [r] in a layout built from [l]: the values of the
    elements of [l] whose key is [r], in the order of [l]. *)
Definition row_entry {A V : Type} (key : A -> Z) (val : A -> V) (l : list A) (r : Z)
  : Z * list V :=
  (r, map val (filter (fun s => key s =? r) l)).

(** The seat map of a hall layout in which every seat is available. *)
Definition all_available (layout : list (Z * list LayoutSeat)) : list (Z * list MapSeat) :=
  map (fun e => (fst e, map (fun x => mkMapSeat (ls_seat_number x) "available") (snd e)))
      layout.

(** [order_by(row_index, seat_number)] on the columns (row, number, status). *)
Definition row_number_leb (a b : Z * Z * string) : bool :=
  (fst (fst a) <? fst (fst b))
  || ((fst (fst a) =? fst (fst b)) && (snd (fst a) <=? snd (fst b))).

(** [order_by(Seat.row_index, Seat.seat_number)] on the columns of a seat. *)
Definition fields_leb (a b : Z * Z * Z * bool) : bool :=
  (snd (fst (fst a)) <? snd (fst (fst b)))
  || ((snd (fst (fst a)) =? snd (fst (fst b))) && (snd (fst a) <=? snd (fst b))).

(** The layout dictionary a list of rows describes: per row its seats 1 to
    [seat_count] with their aisle flags. *)
Definition posted_layout (rows : list HallCreateRow) : list (Z * list LayoutSeat) :=
  map (fun r =>
         (hcr_row_index r,
          map (fun n => mkLayoutSeat n (is_aisle_in r n))
              (Py.range 1 (hcr_seat_count r + 1))))
      rows.

(** ** What the columns accept *)

(** [sa.String]: a PostgreSQL text value holds every character but NUL. *)
Definition storable_text (t : string) : bool :=
  negb (existsb (Ascii.eqb Ascii.zero) (list_ascii_of_string t)).

Definition storable_optional_text (t : option string) : bool :=
  match t with
  | Some t => storable_text t
  | None => true
  end.

(** [sa.Numeric(8, 2)], in hundredths. *)
Definition numeric_8_2 (p : Z) : Prop := -99999999 <= p <= 99999999.

(** The values of a [POST /movies] fit the columns of [movies], and so does
    the key the table hands out. *)
Definition movie_fits (db : Db) (title : string) (duration : Z) : Prop :=
  storable_text title = true /\ int32 duration
  /\ int32 (next_id (map movie_id (movies db))).

Definition theater_fits (db : Db) (name : string) (location : option string) : Prop :=
  storable_text name = true /\ storable_optional_text location = true
  /\ int32 (next_id (map theater_id (theaters db))).

(** The number of seats a layout asks for. *)
Definition seats_of_layout (rows : list HallCreateRow) : Z :=
  Py.len (layout_seats 0 rows).

(** The values of a [POST /theaters/{theater_id}/halls] fit the columns of
    [halls] and [seats], and so do the keys the two tables hand out. *)
Definition hall_fits (db : Db) (theater : Z) (payload : HallCreate) : Prop :=
  int32 theater /\ storable_text (hc_name payload) = true
  /\ (forall r, In r (hc_rows payload) ->
                int32 (hcr_row_index r) /\ int32 (hcr_seat_count r))
  /\ int32 (next_id (map hall_id (halls db)))
  /\ int32 (next_id (map seat_id (seats db)) + seats_of_layout (hc_rows payload)).

(** The values of a [POST /shows] fit the columns of [shows], the start time
    is a value of [datetime], and the keys [shows] and [show_seats] hand out
    fit. *)
Definition show_fits (db : Db) (payload : ShowCreate) : Prop :=
  int32 (sc_movie_id payload) /\ int32 (sc_hall_id payload)
  /\ datetime_min <= sc_start_time payload <= datetime_max
  /\ numeric_8_2 (sc_price payload)
  /\ int32 (next_id (map show_id (shows db)))
  /\ int32 (next_id (map ss_id (show_seats db))
            + Py.len (filter (fun hs => seat_hall_id hs =? sc_hall_id payload) (seats db))).

(** The requests of the API, as opposed to the step [CommitBook]. *)
Definition api_request (r : Request) : bool :=
  match r with
  | CommitBook _ _ _ => false
  | _ => true
  end.
(** * Properties *)

(** ** Sorting *)

Section SortFacts.
Context {A : Type} (le : A -> A -> bool).

Lemma insert_perm (x : A) (l : list A) : Permutation (Py.insert le x l) (x :: l).
Proof.
  induction l as [|y l IH]; simpl.
  - apply Permutation_refl.
  - destruct (le x y).
    + apply Permutation_refl.
    + apply perm_trans with (y :: x :: l).
      * now apply perm_skip.
      * apply perm_swap.
Qed.

Lemma sort_perm (l : list A) : Permutation (Py.sort le l) l.
Proof.
  induction l as [|x l IH]; simpl.
  - apply perm_nil.
  - eapply perm_trans; [apply insert_perm|]. now apply perm_skip.
Qed.

Lemma sort_In (l : list A) (x : A) : In x (Py.sort le l) <-> In x l.
Proof.
  split; apply Permutation_in; [|apply Permutation_sym]; apply sort_perm.
Qed.

Hypothesis le_total : forall a b, le a b = true \/ le b a = true.
Hypothesis le_trans : forall a b c, le a b = true -> le b c = true -> le a c = true.

Let R (a b : A) : Prop := le a b = true.

Lemma insert_sorted (x : A) (l : list A) :
  StronglySorted R l -> StronglySorted R (Py.insert le x l).
Proof.
  induction 1 as [|y l Hs IH Hy]; simpl.
  - constructor; [constructor | constructor].
  - destruct (le x y) eqn:E.
    + constructor.
      * now constructor.
      * constructor; [exact E|].
        rewrite Forall_forall in *. intros z Hz. eapply le_trans; [exact E|]. now apply Hy.
    + constructor; [exact IH|].
      rewrite Forall_forall in *. intros z Hz.
      apply (Permutation_in _ (insert_perm x l)) in Hz. destruct Hz as [<-|Hz].
      * destruct (le_total x y) as [H|H]; [congruence | exact H].
      * now apply Hy.
Qed.

Lemma sort_sorted (l : list A) : StronglySorted R (Py.sort le l).
Proof.
  induction l as [|x l IH]; simpl; [constructor | now apply insert_sorted].
Qed.
End SortFacts.

(** Sorting a list that is already in strictly increasing order returns it. *)
Lemma sort_increasing (l : list Z) : StronglySorted Z.lt l -> Py.sort Z.leb l = l.
Proof.
  induction 1 as [|x l Hs IH Hx]; simpl; [reflexivity|].
  rewrite IH. destruct l as [|y l']; simpl; [reflexivity|].
  inversion Hx as [|? ? Hxy _]; subst.
  destruct (Z.leb_spec x y); [reflexivity | lia].
Qed.

Lemma StronglySorted_app_inv {A : Type} (R : A -> A -> Prop) (l1 l2 : list A) :
  StronglySorted R (l1 ++ l2) ->
  StronglySorted R l1 /\ StronglySorted R l2 /\
  forall a b, In a l1 -> In b l2 -> R a b.
Proof.
  induction l1 as [|x l1 IH]; simpl; intros H.
  - repeat split; [constructor | exact H | intros a b []].
  - inversion H as [|? ? Hs Hx]; subst.
    destruct (IH Hs) as (H1 & H2 & H3).
    rewrite Forall_forall in Hx.
    repeat split.
    + constructor; [exact H1|]. rewrite Forall_forall. intros z Hz. apply Hx, in_or_app. now left.
    + exact H2.
    + intros a b [<-|Ha] Hb; [apply Hx, in_or_app; now right | now apply H3].
Qed.

Lemma StronglySorted_snoc {A : Type} (R : A -> A -> Prop) (l : list A) (x : A) :
  StronglySorted R l -> (forall a, In a l -> R a x) -> StronglySorted R (l ++ [x]).
Proof.
  induction 1 as [|y l Hs IH Hy]; simpl; intros Hx.
  - constructor; constructor.
  - constructor.
    + apply IH. intros a Ha. apply Hx. now right.
    + rewrite Forall_forall in *. intros z Hz. apply in_app_or in Hz.
      destruct Hz as [Hz|[<-|[]]]; [now apply Hy | apply Hx; now left].
Qed.

(** ** Unique constraints as [NoDup] *)

Lemma key_eqb_eq (a b : Z * Z * Z) : key_eqb a b = true <-> a = b.
Proof.
  destruct a as [[a1 a2] a3], b as [[b1 b2] b3]; simpl.
  rewrite !andb_true_iff, !Z.eqb_eq. split.
  - intros [[-> ->] ->]. reflexivity.
  - intros H. inversion H. auto.
Qed.

Lemma distinct_keys_NoDup (l : list (Z * Z * Z)) : distinct_keys l = true <-> NoDup l.
Proof.
  induction l as [|k l IH]; simpl.
  - split; [constructor | reflexivity].
  - rewrite andb_true_iff, negb_true_iff, IH. split.
    + intros [Hn Hd]. constructor; [|exact Hd].
      intros Hin. assert (existsb (key_eqb k) l = true); [|congruence].
      apply existsb_exists. exists k. split; [exact Hin | now apply key_eqb_eq].
    + intros H. inversion H as [|? ? Hn Hd]; subst. split; [|exact Hd].
      destruct (existsb (key_eqb k) l) eqn:E; [|reflexivity].
      apply existsb_exists in E. destruct E as (x & Hx & E). apply key_eqb_eq in E.
      subst. contradiction.
Qed.

(** A [WHERE] clause keeps a unique constraint. *)
Lemma NoDup_map_filter {Row Key : Type} (key : Row -> Key) (where_ : Row -> bool)
      (table : list Row) :
  NoDup (map key table) -> NoDup (map key (filter where_ table)).
Proof.
  intros Huniq. induction table as [|x rest IH]; simpl; [constructor|].
  simpl in Huniq. apply NoDup_cons_iff in Huniq. destruct Huniq as [Hfresh Hrest].
  destruct (where_ x); simpl; [|now apply IH].
  apply NoDup_cons_iff. split; [|now apply IH].
  intros Hin. apply Hfresh. apply in_map_iff in Hin. destruct Hin as (y & Hy & Hin).
  apply filter_In in Hin. apply in_map_iff. exists y. tauto.
Qed.

Lemma NoDup_map_inj_on {A B : Type} (f : A -> B) (l : list A) (a b : A) :
  NoDup (map f l) -> In a l -> In b l -> f a = f b -> a = b.
Proof.
  induction l as [|x l IH]; simpl; intros H Ha Hb E; [contradiction|].
  inversion H as [|? ? Hn Hd]; subst.
  destruct Ha as [<-|Ha], Hb as [<-|Hb]; try reflexivity.
  - exfalso. apply Hn. rewrite E. now apply in_map.
  - exfalso. apply Hn. rewrite <- E. now apply in_map.
  - now apply IH.
Qed.

(** ** The sliding window over one row *)

Lemma range_In (lo hi i : Z) : In i (Py.range lo hi) <-> lo <= i < hi.
Proof.
  unfold Py.range. rewrite in_map_iff. split.
  - intros (n & <- & Hn). apply in_seq in Hn. lia.
  - intros H. exists (Z.to_nat (i - lo)). split; [lia|]. apply in_seq. lia.
Qed.

Lemma range_length (lo hi : Z) : List.length (Py.range lo hi) = Z.to_nat (hi - lo).
Proof. unfold Py.range. now rewrite length_map, length_seq. Qed.

Lemma range_nth (lo hi : Z) (j : nat) :
  (j < Z.to_nat (hi - lo))%nat -> nth j (Py.range lo hi) 0 = lo + Z.of_nat j.
Proof.
  intros H. unfold Py.range.
  set (f := fun i : nat => lo + Z.of_nat i).
  rewrite (nth_indep _ 0 (f 0%nat)) by now rewrite length_map, length_seq.
  rewrite (map_nth f), seq_nth by exact H. reflexivity.
Qed.

(** [find] over a range returns the first index that passes. *)
Lemma find_seq_first (p : Z -> bool) (f : nat -> Z) (n s : nat) :
  match find p (map f (seq s n)) with
  | Some x =>
      exists j, (s <= j < s + n)%nat /\ x = f j /\ p (f j) = true /\
                forall j', (s <= j' < j)%nat -> p (f j') = false
  | None => forall j, (s <= j < s + n)%nat -> p (f j) = false
  end.
Proof.
  revert s. induction n as [|n IH]; intros s; simpl.
  - intros j Hj. lia.
  - destruct (p (f s)) eqn:E.
    + exists s. repeat split; try lia. exact E.
    + specialize (IH (S s)). destruct (find p (map f (seq (S s) n))).
      * destruct IH as (j & Hj & Hx & Hp & Hfirst). exists j. repeat split; try lia; trivial.
        intros j' Hj'. destruct (Nat.eq_dec j' s) as [->|Hne]; [exact E|]. apply Hfirst. lia.
      * intros j Hj. destruct (Nat.eq_dec j s) as [->|Hne]; [exact E|]. apply IH. lia.
Qed.

Lemma slice_window {A : Type} (l : list A) (i k : nat) :
  (i + k <= List.length l)%nat ->
  Py.slice l (Z.of_nat i) (Z.of_nat i + Z.of_nat k) = firstn k (skipn i l).
Proof.
  intros H. unfold Py.slice, Py.clamp, Py.len.
  destruct (Z.ltb_spec (Z.of_nat i) 0); [lia|].
  destruct (Z.ltb_spec (Z.of_nat i + Z.of_nat k) 0); [lia|].
  rewrite !Z.min_l by lia.
  replace (Z.to_nat (Z.of_nat i + Z.of_nat k - Z.of_nat i)) with k by lia.
  now rewrite Nat2Z.id.
Qed.

Lemma window_length {A : Type} (l : list A) (i k : nat) :
  (i + k <= List.length l)%nat -> List.length (firstn k (skipn i l)) = k.
Proof. intros H. rewrite firstn_length_le; [reflexivity|]. rewrite length_skipn. lia. Qed.

Lemma window_nth (l : list Z) (i k j : nat) :
  (j < k)%nat -> nth j (firstn k (skipn i l)) 0 = nth (i + j) l 0.
Proof.
  intros H. rewrite nth_firstn. destruct (Nat.ltb_spec j k); [|lia]. apply nth_skipn.
Qed.

Lemma strictly_consecutive_spec (w : list Z) :
  strictly_consecutive w = true <->
  forall j : nat, (S j < List.length w)%nat -> nth j w 0 + 1 = nth (S j) w 0.
Proof.
  unfold strictly_consecutive, Py.all, Py.item, Py.len. rewrite forallb_forall. split.
  - intros H j Hj. specialize (H (Z.of_nat j)). rewrite Z.eqb_eq in H.
    replace (Z.to_nat (Z.of_nat j + 1)) with (S j) in H by lia.
    rewrite Nat2Z.id in H. apply H. apply range_In. lia.
  - intros H x Hx. apply range_In in Hx. apply Z.eqb_eq.
    replace (Z.to_nat (x + 1)) with (S (Z.to_nat x)) by lia. apply H. lia.
Qed.

Lemma strictly_consecutive_offset (w : list Z) :
  strictly_consecutive w = true <->
  forall j : nat, (j < List.length w)%nat -> nth j w 0 = nth 0 w 0 + Z.of_nat j.
Proof.
  rewrite strictly_consecutive_spec. split.
  - intros H j. induction j as [|j IH]; intros Hj; [lia|].
    rewrite <- H by exact Hj. rewrite IH by lia. lia.
  - intros H j Hj. rewrite (H j), (H (S j)) by lia. lia.
Qed.

Lemma consecutive_is_range (w : list Z) :
  strictly_consecutive w = true ->
  w = Py.range (nth 0 w 0) (nth 0 w 0 + Py.len w).
Proof.
  intros H. apply (nth_ext _ _ 0 0).
  - rewrite range_length. unfold Py.len. lia.
  - intros j Hj. rewrite range_nth by (unfold Py.len; lia).
    now apply strictly_consecutive_offset.
Qed.

(** In a strictly increasing list the position determines the order. *)
Lemma increasing_nth (l : list Z) :
  StronglySorted Z.lt l ->
  forall i j : nat, (i < j)%nat -> (j < List.length l)%nat -> nth i l 0 < nth j l 0.
Proof.
  induction 1 as [|x l Hs IH Hx]; intros i j Hij Hj; simpl in Hj; [lia|].
  destruct j as [|j]; [lia|]. simpl. rewrite Forall_forall in Hx.
  destruct i as [|i].
  - apply Hx, nth_In. lia.
  - apply IH; lia.
Qed.

Lemma increasing_nth_le (l : list Z) (i j : nat) :
  StronglySorted Z.lt l -> (i <= j)%nat -> (j < List.length l)%nat ->
  nth i l 0 <= nth j l 0.
Proof.
  intros Hs Hij Hj. destruct (Nat.eq_dec i j) as [->|Hne]; [lia|].
  apply Z.lt_le_incl, increasing_nth; trivial; lia.
Qed.

(** [k] consecutive numbers that all occur in a strictly increasing list sit
    at [k] consecutive positions. *)
Lemma run_positions (l : list Z) (a : Z) (k : nat) :
  StronglySorted Z.lt l -> (1 <= k)%nat ->
  (forall j : nat, (j < k)%nat -> In (a + Z.of_nat j) l) ->
  exists i : nat, (i + k <= List.length l)%nat /\
                  forall j : nat, (j < k)%nat -> nth (i + j) l 0 = a + Z.of_nat j.
Proof.
  intros Hs Hk Hrun.
  destruct (In_nth l a 0) as (i & Hi & Hnth).
  { specialize (Hrun 0%nat). rewrite Z.add_0_r in Hrun. apply Hrun. lia. }
  exists i.
  assert (Hall : forall j : nat, (j < k)%nat ->
             (i + j < List.length l)%nat /\ nth (i + j) l 0 = a + Z.of_nat j).
  { induction j as [|j IH]; intros Hj.
    - rewrite Nat.add_0_r, Z.add_0_r. split; [exact Hi | exact Hnth].
    - destruct IH as [Hlen Heq]; [lia|].
      destruct (In_nth l (a + Z.of_nat (S j)) 0 (Hrun (S j) Hj)) as (q & Hq & Hnq).
      assert (Hlt : (i + j < q)%nat).
      { destruct (Nat.lt_ge_cases (i + j) q) as [Hc|Hc]; [exact Hc|].
        pose proof (increasing_nth_le l q (i + j) Hs Hc Hlen). lia. }
      split; [lia|].
      pose proof (increasing_nth l Hs (i + j) (i + S j) ltac:(lia) ltac:(lia)).
      pose proof (increasing_nth_le l (i + S j) q Hs ltac:(lia) Hq). lia. }
  split.
  - destruct (Hall (k - 1)%nat) as [H _]; lia.
  - intros j Hj. now apply Hall.
Qed.

Lemma first_window_scan (sl : list Z) (k : Z) :
  1 <= k ->
  match first_window sl k with
  | Some w =>
      exists i : nat, (i + Z.to_nat k <= List.length sl)%nat /\
        w = firstn (Z.to_nat k) (skipn i sl) /\ strictly_consecutive w = true /\
        forall i' : nat, (i' < i)%nat ->
          strictly_consecutive (firstn (Z.to_nat k) (skipn i' sl)) = false
  | None =>
      forall i : nat, (i + Z.to_nat k <= List.length sl)%nat ->
        strictly_consecutive (firstn (Z.to_nat k) (skipn i sl)) = false
  end.
Proof.
  intros Hk. unfold first_window, Py.range.
  set (p := fun i => strictly_consecutive (Py.slice sl i (i + k))).
  set (n := Z.to_nat (Py.len sl - k + 1 - 0)).
  assert (Hn : forall i : nat, (i < n)%nat <-> (i + Z.to_nat k <= List.length sl)%nat).
  { intros i. unfold n, Py.len. lia. }
  assert (Hp : forall i : nat, (i + Z.to_nat k <= List.length sl)%nat ->
             p (0 + Z.of_nat i) = strictly_consecutive (firstn (Z.to_nat k) (skipn i sl))).
  { intros i Hi. unfold p. rewrite Z.add_0_l.
    replace k with (Z.of_nat (Z.to_nat k)) at 1 by lia. now rewrite slice_window. }
  pose proof (find_seq_first p (fun i => 0 + Z.of_nat i) n 0) as H.
  destruct (find p (map (fun i => 0 + Z.of_nat i) (seq 0 n))) as [x|].
  - destruct H as (j & Hj & -> & Hpj & Hfirst). exists j.
    assert (Hj' : (j + Z.to_nat k <= List.length sl)%nat) by (apply Hn; lia).
    rewrite Hp in Hpj by exact Hj'.
    repeat split; trivial.
    + rewrite Z.add_0_l. replace k with (Z.of_nat (Z.to_nat k)) at 1 by lia.
      now rewrite slice_window.
    + rewrite Z.add_0_l. replace k with (Z.of_nat (Z.to_nat k)) at 1 by lia.
      now rewrite slice_window.
    + intros i' Hi'. rewrite <- Hp by lia. apply Hfirst. lia.
  - intros i Hi. rewrite <- Hp by exact Hi. apply H. apply Hn in Hi. lia.
Qed.

Lemma window_consecutive_iff (sl : list Z) (i k : nat) :
  (i + k <= List.length sl)%nat ->
  strictly_consecutive (firstn k (skipn i sl)) = true <->
  forall j : nat, (j < k)%nat -> nth (i + j) sl 0 = nth i sl 0 + Z.of_nat j.
Proof.
  intros H. rewrite strictly_consecutive_offset, window_length by exact H. split.
  - intros Hw j Hj. specialize (Hw j Hj).
    destruct k as [|k]; [lia|].
    rewrite !window_nth in Hw by lia. now rewrite Nat.add_0_r in Hw.
  - intros Hw j Hj. destruct k as [|k]; [lia|].
    rewrite !window_nth by lia. rewrite Nat.add_0_r. now apply Hw.
Qed.

(** The window search on a strictly increasing row: the left-most run. *)
Lemma first_window_Some (sl : list Z) (k : Z) (w : list Z) :
  StronglySorted Z.lt sl -> 1 <= k -> first_window sl k = Some w ->
  exists a, w = Py.range a (a + k) /\ has_run sl a k /\
            forall a', has_run sl a' k -> a <= a'.
Proof.
  intros Hs Hk E. pose proof (first_window_scan sl k Hk) as H. rewrite E in H.
  destruct H as (i & Hi & Hw & Hc & Hfirst).
  assert (Hoff := proj1 (window_consecutive_iff sl i (Z.to_nat k) Hi)).
  rewrite <- Hw in Hoff. specialize (Hoff Hc).
  exists (nth i sl 0). split; [|split].
  - rewrite (consecutive_is_range w Hc).
    assert (Hlen : Py.len w = k).
    { unfold Py.len. rewrite Hw, window_length by exact Hi. lia. }
    rewrite Hlen. rewrite Hw at 1 2. rewrite window_nth by lia.
    now rewrite Nat.add_0_r.
  - intros j Hj. replace j with (Z.of_nat (Z.to_nat j)) by lia.
    rewrite <- Hoff by lia. apply nth_In. lia.
  - intros a' Hrun.
    destruct (run_positions sl a' (Z.to_nat k) Hs ltac:(lia)) as (i' & Hi' & Hpos).
    { intros j Hj. apply Hrun. lia. }
    assert (Ha' : nth i' sl 0 = a').
    { specialize (Hpos 0%nat). rewrite Nat.add_0_r, Z.add_0_r in Hpos. apply Hpos. lia. }
    destruct (Nat.lt_ge_cases i' i) as [Hlt|Hge].
    + specialize (Hfirst i' Hlt).
      assert (strictly_consecutive (firstn (Z.to_nat k) (skipn i' sl)) = true); [|congruence].
      apply window_consecutive_iff; [exact Hi'|]. intros j Hj. rewrite Ha'. now apply Hpos.
    + rewrite <- Ha'. apply increasing_nth_le; trivial. lia.
Qed.

Lemma first_window_None (sl : list Z) (k : Z) :
  StronglySorted Z.lt sl -> 1 <= k -> first_window sl k = None ->
  forall a, ~ has_run sl a k.
Proof.
  intros Hs Hk E a Hrun. pose proof (first_window_scan sl k Hk) as H. rewrite E in H.
  destruct (run_positions sl a (Z.to_nat k) Hs ltac:(lia)) as (i & Hi & Hpos).
  { intros j Hj. apply Hrun. lia. }
  specialize (H i Hi).
  assert (strictly_consecutive (firstn (Z.to_nat k) (skipn i sl)) = true); [|congruence].
  apply window_consecutive_iff; [exact Hi|]. intros j Hj.
  rewrite (Hpos j Hj). specialize (Hpos 0%nat). rewrite Nat.add_0_r, Z.add_0_r in Hpos.
  rewrite Hpos by lia. reflexivity.
Qed.

(** ** Grouping the ordered seats by row *)

Lemma rows_append_keys (rows : list (Z * list Z)) (key n : Z) :
  (In key (map fst rows) /\ map fst (rows_append rows key n) = map fst rows)
  \/ (~ In key (map fst rows)
      /\ map fst (rows_append rows key n) = map fst rows ++ [key]).
Proof.
  induction rows as [|[k l] rows IH]; simpl.
  - right. split; [tauto | reflexivity].
  - destruct (Z.eqb_spec k key) as [->|Hne]; simpl.
    + left. split; [now left | reflexivity].
    + destruct IH as [[Hin E]|[Hnin E]].
      * left. split; [now right | now rewrite E].
      * right. split; [intros [H|H]; tauto | now rewrite E].
Qed.

Lemma rows_append_In (rows : list (Z * list Z)) (key n r : Z) (sl : list Z) :
  In (r, sl) (rows_append rows key n) ->
  In (r, sl) rows
  \/ (r = key /\ ((exists l, In (key, l) rows /\ sl = l ++ [n]) \/ sl = [n])).
Proof.
  induction rows as [|[k l] rows IH]; simpl.
  - intros [H|[]]. inversion H; subst. right. split; [reflexivity | now right].
  - destruct (Z.eqb_spec k key) as [->|Hne]; simpl.
    + intros [H|H].
      * inversion H; subst. right. split; [reflexivity|]. left. exists l. split; [now left | reflexivity].
      * left. now right.
    + intros [H|H].
      * left. now left.
      * destruct (IH H) as [H'|(-> & [(l' & Hl' & ->) | ->])].
        -- left. now right.
        -- right. split; [reflexivity|]. left. exists l'. split; [now right | reflexivity].
        -- right. split; [reflexivity | now right].
Qed.

Lemma rows_append_keep (rows : list (Z * list Z)) (key n r : Z) (sl : list Z) :
  In (r, sl) rows ->
  exists sl', In (r, sl') (rows_append rows key n) /\ forall m, In m sl -> In m sl'.
Proof.
  induction rows as [|[k l] rows IH]; simpl; [intros []|].
  destruct (Z.eqb_spec k key) as [->|Hne]; simpl.
  - intros [H|H].
    + inversion H; subst. exists (sl ++ [n]). split; [now left|].
      intros m Hm. apply in_or_app. now left.
    + exists sl. split; [now right | trivial].
  - intros [H|H].
    + exists sl. split; [now left | trivial].
    + destruct (IH H) as (sl' & Hin & Hsub). exists sl'. split; [now right | exact Hsub].
Qed.

Lemma rows_append_new (rows : list (Z * list Z)) (key n : Z) :
  exists sl, In (key, sl) (rows_append rows key n) /\ In n sl.
Proof.
  induction rows as [|[k l] rows IH]; simpl.
  - exists [n]. split; left; reflexivity.
  - destruct (Z.eqb_spec k key) as [->|Hne]; simpl.
    + exists (l ++ [n]). split; [now left|]. apply in_or_app. right. now left.
    + destruct IH as (sl & Hin & Hn). exists sl. split; [now right | exact Hn].
Qed.

Lemma grouped_nil : grouped [] [].
Proof.
  constructor; simpl.
  - constructor.
  - intros r sl [].
  - intros r n. split; [intros (sl & [] & _) | intros (s & [] & _)].
Qed.

Lemma grouped_step (P : list ShowSeat) (rows : list (Z * list Z)) (s : ShowSeat) :
  grouped P rows -> (forall s', In s' P -> lex_lt s' s) ->
  grouped (P ++ [s]) (group_step rows s).
Proof.
  intros [Hk Hl Hm] Hlt. unfold group_step. destruct (is_available s) eqn:Ea.
  - set (key := ss_row_index s). set (n := ss_seat_number s).
    constructor.
    + destruct (rows_append_keys rows key n) as [[_ ->]|[Hnin ->]]; [exact Hk|].
      apply StronglySorted_snoc; [exact Hk|]. intros r' Hr'.
      apply in_map_iff in Hr'. destruct Hr' as ([r0 sl] & <- & Hin). simpl.
      destruct (Hl _ _ Hin) as [_ Hne]. destruct sl as [|m sl]; [congruence|].
      destruct (proj1 (Hm r0 m)) as (s' & Hs' & _ & Hr & _).
      { exists (m :: sl). split; [exact Hin | now left]. }
      assert (r0 <> key).
      { intros ->. apply Hnin. apply in_map_iff. exists (key, m :: sl). now split. }
      destruct (Hlt s' Hs') as [H'|[H' _]]; fold key in H'; lia.
    + intros r sl Hin. apply rows_append_In in Hin.
      destruct Hin as [Hin|(-> & [(l & Hin & ->) | ->])].
      * exact (Hl _ _ Hin).
      * destruct (Hl _ _ Hin) as [Hsl _]. split.
        -- apply StronglySorted_snoc; [exact Hsl|]. intros m Hmem.
           destruct (proj1 (Hm key m)) as (s' & Hs' & _ & Hr & Hn).
           { exists l. now split. }
           destruct (Hlt s' Hs') as [H'|[_ H']]; fold key in H'; fold n in H'; lia.
        -- intros E. apply app_eq_nil in E. destruct E as [_ E]. discriminate.
      * split; [repeat constructor | discriminate].
    + intros r m. split.
      * intros (sl & Hin & Hmem). apply rows_append_In in Hin.
        destruct Hin as [Hin|(-> & [(l & Hin & ->) | ->])].
        -- destruct (proj1 (Hm r m)) as (s' & Hs' & H'); [exists sl; now split|].
           exists s'. split; [apply in_or_app; now left | exact H'].
        -- apply in_app_or in Hmem. destruct Hmem as [Hmem|[<-|[]]].
           ++ destruct (proj1 (Hm key m)) as (s' & Hs' & H'); [exists l; now split|].
              exists s'. split; [apply in_or_app; now left | exact H'].
           ++ exists s. split; [apply in_or_app; right; now left | tauto].
        -- destruct Hmem as [<-|[]].
           exists s. split; [apply in_or_app; right; now left | tauto].
      * intros (s' & Hs' & Hav & Hr & Hn). apply in_app_or in Hs'.
        destruct Hs' as [Hs'|[<-|[]]].
        -- destruct (proj2 (Hm r m)) as (sl & Hin & Hmem); [exists s'; tauto|].
           destruct (rows_append_keep rows key n r sl Hin) as (sl' & Hin' & Hsub).
           exists sl'. split; [exact Hin' | now apply Hsub].
        -- subst r m. apply rows_append_new.
  -     constructor.
    + exact Hk.
    + exact Hl.
    + intros r m. rewrite Hm. split.
      * intros (s' & Hs' & H'). exists s'. split; [apply in_or_app; now left | exact H'].
      * intros (s' & Hs' & Hav & H'). apply in_app_or in Hs'.
        destruct Hs' as [Hs'|[<-|[]]]; [exists s'; tauto | congruence].
Qed.

Lemma grouped_fold (L P : list ShowSeat) (rows : list (Z * list Z)) :
  grouped P rows -> StronglySorted lex_lt (P ++ L) ->
  grouped (P ++ L) (fold_left group_step L rows).
Proof.
  revert P rows. induction L as [|s L IH]; intros P rows Hg Hs; simpl.
  - now rewrite app_nil_r.
  - replace (P ++ s :: L) with ((P ++ [s]) ++ L) in * by now rewrite <- app_assoc.
    apply IH; [|exact Hs]. apply grouped_step; [exact Hg|].
    apply StronglySorted_app_inv in Hs. destruct Hs as (Hs & _ & _).
    apply StronglySorted_app_inv in Hs. destruct Hs as (_ & _ & Hs).
    intros s' Hs'. apply Hs; [exact Hs' | now left].
Qed.

Lemma group_by_row_grouped (L : list ShowSeat) :
  StronglySorted lex_lt L -> grouped L (group_by_row L).
Proof.
  intros Hs. apply (grouped_fold L [] []); [apply grouped_nil | exact Hs].
Qed.

(** ** The scan over the rows *)

Lemma scan_rows_Some (rows : list (Z * list Z)) (k : Z) (blk : list (Z * Z)) :
  scan_rows rows k = Some blk ->
  exists pre r sl post w,
    rows = pre ++ (r, sl) :: post
    /\ first_window (Py.sort Z.leb sl) k = Some w
    /\ blk = map (fun sn => (r, sn)) w
    /\ forall r' sl', In (r', sl') pre -> first_window (Py.sort Z.leb sl') k = None.
Proof.
  induction rows as [|[r sl] rows IH]; simpl; [discriminate|].
  destruct (first_window (Py.sort Z.leb sl) k) as [w|] eqn:E.
  - intros H. inversion H; subst. exists [], r, sl, rows, w.
    repeat split; trivial. intros r' sl' [].
  - intros H. destruct (IH H) as (pre & r0 & sl0 & post & w & -> & Hw & Hb & Hpre).
    exists ((r, sl) :: pre), r0, sl0, post, w. repeat split; trivial.
    intros r' sl' [H'|H']; [inversion H'; subst; exact E | now apply (Hpre r')].
Qed.

Lemma scan_rows_None (rows : list (Z * list Z)) (k : Z) :
  scan_rows rows k = None ->
  forall r sl, In (r, sl) rows -> first_window (Py.sort Z.leb sl) k = None.
Proof.
  induction rows as [|[r sl] rows IH]; simpl; [intros _ ? ? []|].
  destruct (first_window (Py.sort Z.leb sl) k) as [w|] eqn:E; [discriminate|].
  intros H r' sl' [H'|H']; [inversion H'; subst; exact E | now apply (IH H r')].
Qed.

(** ** The ordered query *)

Lemma row_seat_leb_total (a b : ShowSeat) :
  row_seat_leb a b = true \/ row_seat_leb b a = true.
Proof.
  unfold row_seat_leb.
  destruct (Z.ltb_spec (ss_row_index a) (ss_row_index b)); simpl; [now left|].
  destruct (Z.ltb_spec (ss_row_index b) (ss_row_index a)); simpl; [now right|].
  destruct (Z.eqb_spec (ss_row_index a) (ss_row_index b)); [|lia].
  destruct (Z.eqb_spec (ss_row_index b) (ss_row_index a)); [|lia]. simpl.
  destruct (Z.leb_spec (ss_seat_number a) (ss_seat_number b)); [now left|].
  right. apply Z.leb_le. lia.
Qed.

Lemma row_seat_leb_spec (a b : ShowSeat) :
  row_seat_leb a b = true <->
  ss_row_index a < ss_row_index b
  \/ (ss_row_index a = ss_row_index b /\ ss_seat_number a <= ss_seat_number b).
Proof.
  unfold row_seat_leb.
  rewrite orb_true_iff, andb_true_iff, Z.ltb_lt, Z.eqb_eq, Z.leb_le. tauto.
Qed.

Lemma row_seat_leb_trans (a b c : ShowSeat) :
  row_seat_leb a b = true -> row_seat_leb b c = true -> row_seat_leb a c = true.
Proof. rewrite !row_seat_leb_spec. lia. Qed.

Lemma StronglySorted_strengthen {A : Type} (R R' : A -> A -> Prop) (l : list A) :
  (forall a b, In a l -> In b l -> a <> b -> R a b -> R' a b) ->
  NoDup l -> StronglySorted R l -> StronglySorted R' l.
Proof.
  intros HR Hnd Hs. induction Hs as [|x l Hs IH Hx]; [constructor|].
  inversion Hnd as [|? ? Hn Hd]; subst. constructor.
  - apply IH; [|exact Hd]. intros a b Ha Hb. apply HR; now right.
  - rewrite Forall_forall in *. intros y Hy. apply HR; [now left | now right | | now apply Hx].
    intros ->. contradiction.
Qed.

Lemma increasing_NoDup (l : list Z) : StronglySorted Z.lt l -> NoDup l.
Proof.
  induction 1 as [|x l Hs IH Hx]; constructor; [|exact IH].
  rewrite Forall_forall in Hx. intros Hin. specialize (Hx x Hin). lia.
Qed.

Lemma uq_show_row_seat_NoDup (db : Db) :
  uq_show_row_seat db = true <-> NoDup (map ss_key (show_seats db)).
Proof. apply distinct_keys_NoDup. Qed.

Lemma select_ordered_In (db : Db) (show : Z) (s : ShowSeat) :
  In s (select_show_seats_ordered show db) <->
  In s (show_seats db) /\ ss_show_id s = show.
Proof.
  unfold select_show_seats_ordered. rewrite sort_In, filter_In, Z.eqb_eq. tauto.
Qed.

Lemma select_ordered_NoDup (db : Db) (show : Z) :
  uq_show_row_seat db = true ->
  NoDup (map ss_key (select_show_seats_ordered show db)).
Proof.
  intros Hu. apply uq_show_row_seat_NoDup in Hu.
  apply (Permutation_NoDup
           (l := map ss_key (filter (fun s => ss_show_id s =? show) (show_seats db)))).
  - apply Permutation_map, Permutation_sym, sort_perm.
  - now apply NoDup_map_filter.
Qed.

Lemma select_ordered_sorted (db : Db) (show : Z) :
  uq_show_row_seat db = true ->
  StronglySorted lex_lt (select_show_seats_ordered show db).
Proof.
  intros Hu. pose proof (select_ordered_NoDup db show Hu) as Hnd.
  apply StronglySorted_strengthen with (R := fun a b => row_seat_leb a b = true).
  - intros a b Ha Hb Hne Hle. apply row_seat_leb_spec in Hle.
    destruct Hle as [H|[Hr Hn]]; [now left|]. right. split; [exact Hr|].
    destruct (Z.eq_dec (ss_seat_number a) (ss_seat_number b)) as [E|E]; [|lia].
    exfalso. apply Hne. apply (NoDup_map_inj_on ss_key _ a b Hnd Ha Hb).
    apply select_ordered_In in Ha, Hb. destruct Ha as [_ Ha], Hb as [_ Hb].
    unfold ss_key. congruence.
  - now apply NoDup_map_inv in Hnd.
  - apply sort_sorted; [apply row_seat_leb_total | apply row_seat_leb_trans].
Qed.

Lemma is_available_spec (s : ShowSeat) :
  is_available s = true <-> ss_status s = "available".
Proof. unfold is_available. apply String.eqb_eq. Qed.

Lemma rows_available (db : Db) (show r n : Z) :
  uq_show_row_seat db = true ->
  (exists sl, In (r, sl) (group_by_row (select_show_seats_ordered show db)) /\ In n sl)
  <-> available_at db show r n.
Proof.
  intros Hu.
  pose proof (group_by_row_grouped _ (select_ordered_sorted db show Hu)) as [_ _ Hm].
  rewrite Hm. unfold available_at. split.
  - intros (s & Hs & Ha & Hr & Hn). apply select_ordered_In in Hs.
    apply is_available_spec in Ha. exists s. tauto.
  - intros (s & Hs & Hsh & Hr & Hn & Ha). exists s.
    rewrite select_ordered_In, is_available_spec. tauto.
Qed.

Lemma rows_key_unique (rows : list (Z * list Z)) (r : Z) (sl1 sl2 : list Z) :
  StronglySorted Z.lt (map fst rows) ->
  In (r, sl1) rows -> In (r, sl2) rows -> sl1 = sl2.
Proof.
  intros Hs H1 H2. apply increasing_NoDup in Hs.
  assert (E : (r, sl1) = (r, sl2)) by now apply (NoDup_map_inj_on fst rows).
  now inversion E.
Qed.

Lemma run_in_row (db : Db) (show k r a : Z) :
  1 <= k -> uq_show_row_seat db = true ->
  is_run db show k r a <->
  exists sl, In (r, sl) (group_by_row (select_show_seats_ordered show db))
             /\ has_run sl a k.
Proof.
  intros Hk Hu.
  pose proof (group_by_row_grouped _ (select_ordered_sorted db show Hu)) as [Hkeys _ _].
  split.
  - intros Hrun.
    destruct (proj2 (rows_available db show r (a + 0) Hu)) as (sl & Hin & _);
      [apply Hrun; lia|].
    exists sl. split; [exact Hin|]. intros j Hj.
    destruct (proj2 (rows_available db show r (a + j) Hu)) as (sl' & Hin' & Hmem);
      [now apply Hrun|].
    now rewrite (rows_key_unique _ r sl sl' Hkeys Hin Hin').
  - intros (sl & Hin & Hrun) j Hj. apply rows_available; [exact Hu|].
    exists sl. split; [exact Hin | now apply Hrun].
Qed.

(** ** What the finder returns *)

Lemma find_contiguous_in_show_eval (show k : Z) (s : Session) :
  find_contiguous_in_show show k s = (s, Return (found (working s) show k)).
Proof.
  unfold find_contiguous_in_show, found, bind, db_execute, ret.
  destruct (select_show_seats_ordered show (working s)); reflexivity.
Qed.

Lemma found_Some (db : Db) (show k : Z) (blk : list (Z * Z)) :
  1 <= k -> uq_show_row_seat db = true -> found db show k = Some blk ->
  exists r a, blk = block r a k /\ first_run db show k r a.
Proof.
  intros Hk Hu E. unfold found in E.
  pose proof (group_by_row_grouped _ (select_ordered_sorted db show Hu)) as [Hkeys Hl _].
  destruct (scan_rows_Some _ _ _ E) as (pre & r & sl & post & w & Hrows & Hw & Hb & Hpre).
  assert (Hin : In (r, sl) (group_by_row (select_show_seats_ordered show db))).
  { rewrite Hrows. apply in_or_app. right. now left. }
  destruct (Hl _ _ Hin) as [Hsl _]. rewrite (sort_increasing sl Hsl) in Hw.
  destruct (first_window_Some sl k w Hsl Hk Hw) as (a & -> & Hrun & Hmin).
  exists r, a. split; [exact Hb|]. split.
  - apply run_in_row; trivial. exists sl. now split.
  - intros r' a' Hrun'. apply run_in_row in Hrun'; trivial.
    destruct Hrun' as (sl' & Hin' & Hrun').
    rewrite Hrows in Hin', Hkeys. apply in_app_or in Hin'.
    destruct Hin' as [Hin'|[Hin'|Hin']].
    + exfalso. specialize (Hpre _ _ Hin').
      assert (Hin'' : In (r', sl') (group_by_row (select_show_seats_ordered show db))).
      { rewrite Hrows. apply in_or_app. now left. }
      destruct (Hl _ _ Hin'') as [Hsl' _]. rewrite (sort_increasing sl' Hsl') in Hpre.
      exact (first_window_None sl' k Hsl' Hk Hpre a' Hrun').
    + inversion Hin'; subst. right. split; [reflexivity | now apply Hmin].
    + left. rewrite map_app in Hkeys. simpl in Hkeys.
      apply StronglySorted_app_inv in Hkeys. destruct Hkeys as (_ & Hkeys & _).
      apply StronglySorted_inv in Hkeys. destruct Hkeys as [_ Hkeys].
      rewrite Forall_forall in Hkeys. apply Hkeys.
      apply in_map_iff. exists (r', sl'). now split.
Qed.

Lemma found_None (db : Db) (show k : Z) :
  1 <= k -> uq_show_row_seat db = true -> found db show k = None ->
  forall r a, ~ is_run db show k r a.
Proof.
  intros Hk Hu E r a Hrun. unfold found in E.
  pose proof (group_by_row_grouped _ (select_ordered_sorted db show Hu)) as [_ Hl _].
  apply run_in_row in Hrun; trivial. destruct Hrun as (sl & Hin & Hrun).
  pose proof (scan_rows_None _ _ E _ _ Hin) as Hw.
  destruct (Hl _ _ Hin) as [Hsl _]. rewrite (sort_increasing sl Hsl) in Hw.
  exact (first_window_None sl k Hsl Hk Hw a Hrun).
Qed.

Lemma first_run_unique (db : Db) (show k r a r' a' : Z) :
  first_run db show k r a -> first_run db show k r' a' -> r = r' /\ a = a'.
Proof.
  intros [H1 M1] [H2 M2]. specialize (M1 _ _ H2). specialize (M2 _ _ H1). lia.
Qed.

Lemma is_run_perm (db db' : Db) (show k r a : Z) :
  Permutation (show_seats db) (show_seats db') ->
  is_run db show k r a -> is_run db' show k r a.
Proof.
  intros Hp Hrun j Hj. destruct (Hrun j Hj) as (s & Hs & H). exists s.
  split; [now apply (Permutation_in _ Hp) | exact H].
Qed.

Lemma found_perm (db db' : Db) (show k : Z) :
  1 <= k -> uq_show_row_seat db = true ->
  Permutation (show_seats db) (show_seats db') ->
  found db' show k = found db show k.
Proof.
  intros Hk Hu Hp.
  assert (Hu' : uq_show_row_seat db' = true).
  { apply uq_show_row_seat_NoDup. apply uq_show_row_seat_NoDup in Hu.
    apply (Permutation_NoDup (l := map ss_key (show_seats db))); [|exact Hu].
    now apply Permutation_map. }
  destruct (found db show k) as [blk|] eqn:E, (found db' show k) as [blk'|] eqn:E'.
  - destruct (found_Some _ _ _ _ Hk Hu E) as (r & a & -> & Hf).
    destruct (found_Some _ _ _ _ Hk Hu' E') as (r' & a' & -> & [Hr' Hm']).
    assert (Hf' : first_run db show k r' a').
    { split.
      - apply (is_run_perm db' db); [now apply Permutation_sym | exact Hr'].
      - intros r0 a0 H0. apply Hm'. now apply (is_run_perm db db'). }
    destruct (first_run_unique _ _ _ _ _ _ _ Hf Hf') as [-> ->]. reflexivity.
  - exfalso. destruct (found_Some _ _ _ _ Hk Hu E) as (r & a & _ & [Hr _]).
    apply (found_None _ _ _ Hk Hu' E' r a). now apply (is_run_perm db db').
  - exfalso. destruct (found_Some _ _ _ _ Hk Hu' E') as (r & a & _ & [Hr _]).
    apply (found_None _ _ _ Hk Hu E r a). apply (is_run_perm db' db); [|exact Hr].
    now apply Permutation_sym.
  - reflexivity.
Qed.

(** ** The block of [book_group] in a session of its own *)

Lemma update_show_seats_keys (w : ShowSeat -> bool) (b : Z) (db : Db) :
  map ss_key (show_seats (update_show_seats w b db)) = map ss_key (show_seats db).
Proof.
  unfold update_show_seats. simpl. rewrite map_map. apply map_ext.
  intros s. destruct (w s); reflexivity.
Qed.

Lemma update_show_seats_uq (w : ShowSeat -> bool) (b : Z) (db : Db) :
  uq_show_row_seat (update_show_seats w b db) = uq_show_row_seat db.
Proof. unfold uq_show_row_seat. now rewrite update_show_seats_keys. Qed.

(** The booking the block inserts and the image it commits. *)
Lemma book_group_locked_run (payload : BookingRequest) (now : datetime)
      (c : list (Z * Z)) (s : Session) :
  uq_hall_row_seat (working s) = true -> uq_show_row_seat (working s) = true ->
  book_group_locked payload now c s =
  if recheck_fails (select_candidate (br_show_id payload) c (working s)) c
  then (mkSession (committed s) (committed s) [], Raise conflict_409)
  else
    let b := mkBooking (next_id (map booking_id (bookings (working s))))
                       (br_show_id payload) (br_group_name payload) now in
    let db' := update_show_seats (candidate_where (br_show_id payload) c)
                                 (booking_id b) (add_booking b (working s)) in
    (mkSession db' db' [], Return (mkBookingResponse (booking_id b) c)).
Proof.
  intros Hh Hs.
  unfold book_group_locked, booking_block, bind, db_begin, db_lock_show_seats,
    db_execute. simpl.
  destruct (recheck_fails _ c) eqn:E.
  - reflexivity.
  - unfold bind, db_add_booking, bind, db_execute, db_modify, db_flush, db_commit,
      bind, db_flush, ret. simpl.
    unfold uq_hall_row_seat, uq_show_row_seat in *. simpl.
    rewrite Hh, Hs. simpl.
    pose proof (update_show_seats_keys (candidate_where (br_show_id payload) c)
                  (next_id (map booking_id (bookings (working s))))
                  (add_booking
                     (mkBooking (next_id (map booking_id (bookings (working s))))
                                (br_show_id payload) (br_group_name payload) now)
                     (working s))) as K.
    unfold update_show_seats in K. simpl in K. rewrite K, Hh, Hs. reflexivity.
Qed.

Lemma tuple_in_spec (c : list (Z * Z)) (s : ShowSeat) :
  tuple_in c s = true <-> In (seat_pair s) c.
Proof.
  unfold tuple_in, seat_pair. rewrite existsb_exists. split.
  - intros ([r n] & Hin & H). simpl in H. apply andb_true_iff in H.
    rewrite !Z.eqb_eq in H. destruct H as [-> ->]. exact Hin.
  - intros H. eexists. split; [exact H|]. simpl. now rewrite !Z.eqb_refl.
Qed.

Lemma select_candidate_In (show : Z) (c : list (Z * Z)) (db : Db) (s : ShowSeat) :
  In s (select_candidate show c db) <->
  In s (show_seats db) /\ ss_show_id s = show /\ In (seat_pair s) c.
Proof.
  unfold select_candidate, candidate_where.
  rewrite filter_In, andb_true_iff, Z.eqb_eq, tuple_in_spec. tauto.
Qed.

Lemma select_candidate_NoDup (show : Z) (c : list (Z * Z)) (db : Db) :
  uq_show_row_seat db = true ->
  NoDup (map seat_pair (select_candidate show c db)).
Proof.
  intros Hu. apply uq_show_row_seat_NoDup in Hu.
  apply (NoDup_map_inv (fun p : Z * Z => (show, fst p, snd p))).
  rewrite map_map.
  rewrite (map_ext_in _ ss_key).
  - now apply NoDup_map_filter.
  - intros s Hs. apply select_candidate_In in Hs. destruct Hs as (_ & <- & _).
    reflexivity.
Qed.

(** When the re-check passes, the rows it read are exactly the candidate's
    seats, each of them present and available. *)
Lemma recheck_passes (show : Z) (c : list (Z * Z)) (db : Db) :
  uq_show_row_seat db = true ->
  recheck_fails (select_candidate show c db) c = false ->
  Permutation (map seat_pair (select_candidate show c db)) c
  /\ NoDup c
  /\ (forall s, In s (select_candidate show c db) -> ss_status s = "available").
Proof.
  intros Hu Hc. unfold recheck_fails, Py.any, Py.len in Hc.
  apply orb_false_iff in Hc. destruct Hc as [Hany Hlen].
  apply negb_false_iff, Z.eqb_eq in Hlen.
  pose proof (select_candidate_NoDup show c db Hu) as Hnd.
  assert (Hincl : incl (map seat_pair (select_candidate show c db)) c).
  { intros p Hp. apply in_map_iff in Hp. destruct Hp as (s & <- & Hs).
    now apply select_candidate_In in Hs. }
  assert (Hle : (List.length c <= List.length (map seat_pair (select_candidate show c db)))%nat).
  { rewrite length_map. lia. }
  assert (Hndc : NoDup c) by exact (NoDup_incl_NoDup Hnd Hle Hincl).
  split; [|split].
  - apply NoDup_Permutation; trivial. intros p. split; [apply Hincl|].
    apply (NoDup_length_incl Hnd Hle Hincl).
  - exact Hndc.
  - intros s Hs. apply is_available_spec.
    destruct (is_available s) eqn:E; [reflexivity|].
    assert (existsb (fun s => negb (is_available s)) (select_candidate show c db) = true);
      [|congruence].
    apply existsb_exists. exists s. split; [exact Hs | now rewrite E].
Qed.

(** ** Primary keys *)

Lemma next_id_fresh (ids : list Z) (x : Z) : In x ids -> x < next_id ids.
Proof.
  unfold next_id. induction ids as [|y ids IH]; cbn [fold_right In]; [intros []|].
  pose proof (Z.le_max_l y (fold_right Z.max 0 ids)).
  pose proof (Z.le_max_r y (fold_right Z.max 0 ids)).
  intros [->|Hx]; [lia|]. specialize (IH Hx). lia.
Qed.

Lemma fk_show_seat_booking_spec (db : Db) :
  fk_show_seat_booking db = true <->
  forall s b, In s (show_seats db) -> ss_booking_id s = Some b ->
              In b (map booking_id (bookings db)).
Proof.
  unfold fk_show_seat_booking. rewrite forallb_forall. split.
  - intros H s b Hs Hb. specialize (H s Hs). rewrite Hb in H.
    apply existsb_exists in H. destruct H as (bk & Hbk & E). apply Z.eqb_eq in E.
    subst b. now apply in_map.
  - intros H s Hs. destruct (ss_booking_id s) as [b|] eqn:E; [|reflexivity].
    specialize (H s b Hs E). apply in_map_iff in H. destruct H as (bk & <- & Hbk).
    apply existsb_exists. exists bk. split; [exact Hbk | apply Z.eqb_refl].
Qed.


(** ** The suggestion engine only reads *)

Lemma for_fold_suggest (k : Z) (cands : list Show) (acc : list Suggestion) (s : Session) :
  for_fold cands acc (fun suggestions sh =>
    contiguous <- find_contiguous_in_show (show_id sh) k ;;
    if truthy contiguous
    then ret (suggestions
                ++ [mkSuggestion (show_id sh) (show_start_time sh)
                                 (match contiguous with Some c => c | None => [] end)])
    else ret suggestions) s
  = (s, Return
          (acc ++ flat_map
                    (fun sh =>
                       match found (working s) (show_id sh) k with
                       | Some (p :: c) =>
                           [mkSuggestion (show_id sh) (show_start_time sh) (p :: c)]
                       | _ => []
                       end) cands)).
Proof.
  revert acc. induction cands as [|sh cands IH]; intros acc; simpl.
  - unfold ret. now rewrite app_nil_r.
  - unfold bind at 1. unfold bind at 1. rewrite find_contiguous_in_show_eval.
    destruct (found (working s) (show_id sh) k) as [[|p c]|]; simpl; unfold ret.
    + apply IH.
    + rewrite IH. now rewrite <- app_assoc.
    + apply IH.
Qed.

Lemma suggest_other_shows_eval (target : Show) (k w : Z) (s : Session) :
  suggest_other_shows target k w s = (s, Return (suggested (working s) target k w)).
Proof.
  unfold suggest_other_shows, suggested. unfold bind at 1. unfold db_execute.
  apply for_fold_suggest.
Qed.

(** ** [book_group] as a function of the image it starts from *)

Lemma book_group_run (payload : BookingRequest) (now : datetime) (s : Session) :
  book_group payload now s =
  match find (fun sh => show_id sh =? br_show_id payload) (shows (working s)) with
  | None => (s, Raise (HTTPException 404 (Message "show not found")))
  | Some show =>
      match found (working s) (br_show_id payload) (br_seats_requested payload) with
      | None =>
          (s, Raise (HTTPException 409
                       (MessageWithSuggestions
                          "cannot find contiguous seats in requested show"
                          (suggested (working s) show (br_seats_requested payload) 180))))
      | Some c => (s, Raise InvalidRequestError)
      end
  end.
Proof.
  unfold book_group, bind, db_get_show, db_execute.
  destruct (find _ (shows (working s))) as [show|]; [|reflexivity].
  rewrite find_contiguous_in_show_eval.
  destruct (found _ _ _) as [c|]; [reflexivity|].
  now rewrite suggest_other_shows_eval.
Qed.

Lemma schema_ok_spec (db : Db) :
  schema_ok db = true <->
  uq_hall_row_seat db = true /\ uq_show_row_seat db = true
  /\ fk_show_seat_booking db = true.
Proof. unfold schema_ok. rewrite !andb_true_iff. tauto. Qed.

(** The block in a session of its own, as one step on the committed image:
    the 409 and no change, or one booking more and the candidate's rows
    rewritten. *)
Lemma locked_outcome (payload : BookingRequest) (now : datetime)
      (c : list (Z * Z)) (db : Db) :
  uq_hall_row_seat db = true -> uq_show_row_seat db = true ->
  get_db (book_group_locked payload now c) db =
  if recheck_fails (select_candidate (br_show_id payload) c db) c
  then (db, Raise conflict_409)
  else
    let b := mkBooking (next_id (map booking_id (bookings db)))
                       (br_show_id payload) (br_group_name payload) now in
    (update_show_seats (candidate_where (br_show_id payload) c) (booking_id b)
                       (add_booking b db),
     Return (mkBookingResponse (booking_id b) c)).
Proof.
  intros Hh Hs. unfold get_db.
  rewrite book_group_locked_run by assumption. simpl.
  destruct (recheck_fails _ c); reflexivity.
Qed.

(** [POST /book] as a function of the committed image: no case changes it. *)
Lemma post_book_outcome (payload : BookingRequest) (now : datetime) (db : Db) :
  post_book payload now db =
  (db,
   match find (fun sh => show_id sh =? br_show_id payload) (shows db) with
   | None => Raise (HTTPException 404 (Message "show not found"))
   | Some show =>
       match found db (br_show_id payload) (br_seats_requested payload) with
       | None =>
           Raise (HTTPException 409
                    (MessageWithSuggestions
                       "cannot find contiguous seats in requested show"
                       (suggested db show (br_seats_requested payload) 180)))
       | Some c => Raise InvalidRequestError
       end
   end).
Proof.
  unfold post_book, BookingRequest_valid, get_db. rewrite book_group_run. simpl.
  destruct (find _ (shows db)) as [show|]; [|reflexivity].
  destruct (found db _ _) as [c|]; reflexivity.
Qed.

(** ** [create_hall] *)

Lemma bind_run {A B : Type} (m : M A) (f : A -> M B) (s : Session) :
  bind m f s = match m s with
               | (s', Return a) => f a s'
               | (s', Raise e) => (s', Raise e)
               end.
Proof. reflexivity. Qed.

Lemma session_eta (s : Session) :
  mkSession (committed s) (set_seats (seats (working s) ++ []) (working s)) (locked s) = s.
Proof. destruct s as [c [] l]. simpl. now rewrite app_nil_r. Qed.

Lemma add_seats_run (h r : Z) (aisle : Z -> bool) (nums : list Z) (s : Session) :
  exists added,
    for_each nums (fun n => db_add_seat h r n (aisle n)) s
    = (mkSession (committed s) (set_seats (seats (working s) ++ added) (working s))
                 (locked s), Return tt)
    /\ map seat_key added = map (fun n => (h, r, n)) nums.
Proof.
  revert s. induction nums as [|n nums IH]; intros s; simpl.
  - exists []. split; [|reflexivity]. unfold ret. now rewrite session_eta.
  - rewrite bind_run. unfold db_add_seat at 1. rewrite bind_run.
    unfold db_execute, db_modify. simpl.
    match goal with
    | |- context [for_each nums _ ?s1] => destruct (IH s1) as (added & E & K); rewrite E
    end.
    simpl. eexists (_ :: added). split.
    + unfold set_seats, add_seat. simpl. rewrite <- app_assoc. reflexivity.
    + simpl. now rewrite K.
Qed.

Lemma add_rows_run (h : Z) (rows : list HallCreateRow) (s : Session) :
  let body := fun r =>
    if hcr_seat_count r <? 6
    then raise row_too_short
    else
      for_each (Py.range 1 (hcr_seat_count r + 1)) (fun seat_num =>
        let is_aisle :=
          existsb (Z.eqb seat_num)
                  (match hcr_aisle_seats r with Some l => l | None => [] end) in
        db_add_seat h (hcr_row_index r) seat_num is_aisle) in
  if forallb (fun r => 6 <=? hcr_seat_count r) rows
  then exists added,
      for_each rows body s
      = (mkSession (committed s) (set_seats (seats (working s) ++ added) (working s))
                   (locked s), Return tt)
      /\ map seat_key added = new_keys h rows
  else exists s', for_each rows body s = (s', Raise row_too_short)
                  /\ committed s' = committed s.
Proof.
  cbv zeta. revert s. induction rows as [|r rows IH]; intros s; simpl.
  - exists []. split; [|reflexivity]. unfold ret. now rewrite session_eta.
  - rewrite bind_run.
    destruct (Z.ltb_spec (hcr_seat_count r) 6) as [Hlt|Hge].
    + destruct (Z.leb_spec 6 (hcr_seat_count r)); [lia|]. simpl.
      exists s. split; reflexivity.
    + destruct (Z.leb_spec 6 (hcr_seat_count r)); [|lia]. simpl.
      destruct (add_seats_run h (hcr_row_index r)
                  (fun n => existsb (Z.eqb n)
                              (match hcr_aisle_seats r with Some l => l | None => [] end))
                  (Py.range 1 (hcr_seat_count r + 1)) s) as (a1 & E1 & K1).
      rewrite E1.
      match goal with
      | |- context [for_each rows _ ?s1] => specialize (IH s1)
      end.
      destruct (forallb _ rows).
      * destruct IH as (a2 & E2 & K2). exists (a1 ++ a2). split.
        -- rewrite E2. simpl. unfold set_seats. simpl. now rewrite <- app_assoc.
        -- now rewrite map_app, K1, K2.
      * destruct IH as (s' & E2 & C2). exists s'. split; [exact E2 | exact C2].
Qed.

Lemma create_hall_run (theater : Z) (payload : HallCreate) (db : Db) :
  let h := mkHall (next_id (map hall_id (halls db))) theater (hc_name payload) in
  match find (fun t => theater_id t =? theater) (theaters db) with
  | None =>
      get_db (create_hall theater payload) db
      = (db, Raise (HTTPException 404 (Message "theater not found")))
  | Some _ =>
      if uq_hall_row_seat db && uq_show_row_seat db
      then
        if forallb (fun r => 6 <=? hcr_seat_count r) (hc_rows payload)
        then exists added,
            map seat_key added = new_keys (hall_id h) (hc_rows payload)
            /\ let db' := set_seats (seats db ++ added) (add_hall h db) in
               get_db (create_hall theater payload) db
               = if uq_hall_row_seat db' && uq_show_row_seat db'
                 then (db', Return h)
                 else (db, Raise IntegrityError)
        else get_db (create_hall theater payload) db = (db, Raise row_too_short)
      else get_db (create_hall theater payload) db = (db, Raise IntegrityError)
  end.
Proof.
  cbv zeta.
  pose proof (add_rows_run (next_id (map hall_id (halls db))) (hc_rows payload)
                (mkSession db
                   (add_hall (mkHall (next_id (map hall_id (halls db))) theater
                                     (hc_name payload)) db) [])) as R.
  cbv zeta in R. simpl in R.
  unfold get_db, create_hall, row_too_short, bind, db_get_theater, db_execute,
    db_add_hall, db_add_seat, db_commit, db_flush, db_modify, bind, db_execute,
    db_modify, ret, raise in *.
  simpl.
  destruct (find _ (theaters db)); [|reflexivity].
  unfold uq_hall_row_seat, uq_show_row_seat. simpl.
  destruct (distinct_keys (map seat_key (seats db))
            && distinct_keys (map ss_key (show_seats db))); [|reflexivity].
  destruct (forallb _ (hc_rows payload)).
  - destruct R as (added & E & K). exists added. split; [exact K|].
    rewrite E. simpl.
    destruct (distinct_keys _ && distinct_keys _); reflexivity.
  - destruct R as (s' & E & C). rewrite E. now rewrite C.
Qed.
(** ** [create_show] *)

Lemma session_eta_show (s : Session) :
  mkSession (committed s)
            (set_show_seats (show_seats (working s) ++ []) (working s)) (locked s) = s.
Proof. destruct s as [c [] l]. simpl. now rewrite app_nil_r. Qed.

Lemma add_show_seats_run (show : Z) (hall_seats : list Seat) (s : Session) :
  exists added,
    for_each hall_seats (fun hs =>
      db_add_show_seat show (seat_row_index hs) (seat_seat_number hs) "available") s
    = (mkSession (committed s)
                 (set_show_seats (show_seats (working s) ++ added) (working s))
                 (locked s), Return tt)
    /\ map ss_key added
       = map (fun hs => (show, seat_row_index hs, seat_seat_number hs)) hall_seats
    /\ Forall (fun x => ss_status x = "available" /\ ss_booking_id x = None) added.
Proof.
  revert s. induction hall_seats as [|hs l IH]; intros s; simpl.
  - exists []. split; [|split; [reflexivity | constructor]].
    unfold ret. now rewrite session_eta_show.
  - rewrite bind_run. unfold db_add_show_seat at 1. rewrite bind_run.
    unfold db_execute, db_modify. simpl.
    match goal with
    | |- context [for_each l _ ?s1] => destruct (IH s1) as (added & E & K & F); rewrite E
    end.
    simpl. eexists (_ :: added). split; [|split].
    + unfold set_show_seats, add_show_seat. simpl. rewrite <- app_assoc. reflexivity.
    + simpl. now rewrite K.
    + constructor; [split; reflexivity | exact F].
Qed.

Lemma create_show_run (payload : ShowCreate) (db : Db) :
  let sh := mkShow (next_id (map show_id (shows db))) (sc_movie_id payload)
                   (sc_hall_id payload) (sc_start_time payload) (sc_price payload) in
  match find (fun m => movie_id m =? sc_movie_id payload) (movies db),
        find (fun h => hall_id h =? sc_hall_id payload) (halls db) with
  | Some _, Some _ =>
      if uq_hall_row_seat db && uq_show_row_seat db
      then exists added,
          map ss_key added
          = map (fun hs => (show_id sh, seat_row_index hs, seat_seat_number hs))
                (filter (fun hs => seat_hall_id hs =? sc_hall_id payload) (seats db))
          /\ Forall (fun x => ss_status x = "available" /\ ss_booking_id x = None) added
          /\ let db' := set_show_seats (show_seats db ++ added) (add_show sh db) in
             get_db (create_show payload) db
             = if uq_hall_row_seat db' && uq_show_row_seat db'
               then (db', Return sh)
               else (db, Raise IntegrityError)
      else get_db (create_show payload) db = (db, Raise IntegrityError)
  | _, _ =>
      get_db (create_show payload) db
      = (db, Raise (HTTPException 404 (Message "movie or hall not found")))
  end.
Proof.
  cbv zeta.
  pose proof (add_show_seats_run (next_id (map show_id (shows db)))
                (filter (fun hs => seat_hall_id hs =? sc_hall_id payload) (seats db))
                (mkSession db
                   (add_show (mkShow (next_id (map show_id (shows db)))
                                     (sc_movie_id payload) (sc_hall_id payload)
                                     (sc_start_time payload) (sc_price payload)) db)
                   [])) as R.
  simpl in R.
  unfold get_db, create_show, bind, db_get_movie, db_get_hall, db_execute,
    db_add_show, db_add_show_seat, db_commit, db_flush, db_modify, bind, db_execute,
    db_modify, ret, raise in *.
  simpl.
  destruct (find (fun m => movie_id m =? sc_movie_id payload) (movies db));
    destruct (find (fun h => hall_id h =? sc_hall_id payload) (halls db));
    try reflexivity.
  unfold uq_hall_row_seat, uq_show_row_seat. simpl.
  destruct (distinct_keys (map seat_key (seats db))
            && distinct_keys (map ss_key (show_seats db))); [|reflexivity].
  destruct R as (added & E & K & F). exists added. split; [exact K|]. split; [exact F|].
  cbn [working add_show seats]. rewrite E. simpl.
  destruct (distinct_keys _ && distinct_keys _); reflexivity.
Qed.

(** ** [create_movie], [create_theater] *)

Lemma create_movie_run (title : string) (duration : Z) (db : Db) :
  get_db (create_movie title duration) db
  = if uq_hall_row_seat db && uq_show_row_seat db
    then let m := mkMovie (next_id (map movie_id (movies db))) title duration in
         (add_movie m db, Return m)
    else (db, Raise IntegrityError).
Proof.
  unfold get_db, create_movie, bind, db_add_movie, db_commit, db_flush, bind,
    db_execute, db_modify, ret. simpl.
  unfold uq_hall_row_seat, uq_show_row_seat. simpl.
  destruct (distinct_keys _ && distinct_keys _); reflexivity.
Qed.

Lemma create_theater_run (name : string) (location : option string) (db : Db) :
  get_db (create_theater name location) db
  = if uq_hall_row_seat db && uq_show_row_seat db
    then let t := mkTheater (next_id (map theater_id (theaters db))) name location in
         (add_theater t db, Return t)
    else (db, Raise IntegrityError).
Proof.
  unfold get_db, create_theater, bind, db_add_theater, db_commit, db_flush, bind,
    db_execute, db_modify, ret. simpl.
  unfold uq_hall_row_seat, uq_show_row_seat. simpl.
  destruct (distinct_keys _ && distinct_keys _); reflexivity.
Qed.

(** ** Rows of a hall and of a show *)

Lemma row_of_keys_app (h r : Z) (k1 k2 : list (Z * Z * Z)) :
  row_of_keys h r (k1 ++ k2) = row_of_keys h r k1 ++ row_of_keys h r k2.
Proof. unfold row_of_keys. now rewrite filter_app, map_app. Qed.

Lemma row_of_keys_none (h r : Z) (keys : list (Z * Z * Z)) :
  (forall k, In k keys -> fst (fst k) = h -> snd (fst k) <> r) ->
  row_of_keys h r keys = [].
Proof.
  unfold row_of_keys. induction keys as [|k keys IH]; simpl; intros H; [reflexivity|].
  destruct (Z.eqb_spec (fst (fst k)) h) as [E|E]; simpl.
  - destruct (Z.eqb_spec (snd (fst k)) r) as [E'|E'].
    + exfalso. apply (H k); auto.
    + apply IH. intros k' Hk'. apply H. now right.
  - apply IH. intros k' Hk'. apply H. now right.
Qed.

Lemma row_of_keys_In (h r n : Z) (keys : list (Z * Z * Z)) :
  In n (row_of_keys h r keys) <-> In (h, r, n) keys.
Proof.
  unfold row_of_keys. rewrite in_map_iff. split.
  - intros ([[h' r'] n'] & E & Hin). apply filter_In in Hin. simpl in *.
    destruct Hin as [Hin Hb]. apply andb_true_iff in Hb.
    rewrite !Z.eqb_eq in Hb. destruct Hb. now subst.
  - intros Hin. exists (h, r, n). split; [reflexivity|]. apply filter_In.
    split; [exact Hin|]. simpl. now rewrite !Z.eqb_refl.
Qed.

Lemma new_keys_In (h : Z) (rows : list HallCreateRow) (k : Z * Z * Z) :
  In k (new_keys h rows) <->
  exists r, In r rows /\ fst (fst k) = h /\ snd (fst k) = hcr_row_index r
            /\ 1 <= snd k < hcr_seat_count r + 1.
Proof.
  unfold new_keys. rewrite in_flat_map. split.
  - intros (r & Hr & Hk). apply in_map_iff in Hk. destruct Hk as (n & <- & Hn).
    apply range_In in Hn. exists r. simpl. tauto.
  - intros (r & Hr & Hh & Hrow & Hn). exists r. split; [exact Hr|].
    apply in_map_iff. exists (snd k). split; [|now apply range_In].
    destruct k as [[a b] c]. simpl in *. now subst.
Qed.

Lemma row_of_keys_segment (h r : Z) (nums : list Z) :
  row_of_keys h r (map (fun n => (h, r, n)) nums) = nums.
Proof.
  unfold row_of_keys. induction nums as [|n nums IH]; simpl; [reflexivity|].
  rewrite !Z.eqb_refl. simpl. now rewrite IH.
Qed.

(** In a layout without a repeated key, the seats [create_hall] adds under
    one row index are those of one layout row: 1, ..., seat_count. *)
Lemma new_keys_row (h r0 : Z) (rows : list HallCreateRow) :
  NoDup (new_keys h rows) ->
  forallb (fun r => 6 <=? hcr_seat_count r) rows = true ->
  (exists n, In (h, r0, n) (new_keys h rows)) ->
  full_row (row_of_keys h r0 (new_keys h rows)).
Proof.
  induction rows as [|r rows IH]; simpl; intros Hnd Hall (n & Hn); [contradiction|].
  apply andb_true_iff in Hall. destruct Hall as [Hr Hall]. apply Z.leb_le in Hr.
  fold (new_keys h rows) in *. rewrite row_of_keys_app.
  destruct (Z.eq_dec (hcr_row_index r) r0) as [<-|Hne].
  - rewrite row_of_keys_segment.
    rewrite (row_of_keys_none h (hcr_row_index r) (new_keys h rows)).
    + rewrite app_nil_r. exists (hcr_seat_count r). split; [exact Hr | reflexivity].
    + intros k Hk _ Hrow. apply new_keys_In in Hk.
      destruct Hk as (r' & Hr' & Hh & Hrow' & _).
      rewrite forallb_forall in Hall. specialize (Hall r' Hr'). apply Z.leb_le in Hall.
      assert (Hin2 : In (h, hcr_row_index r, 1) (new_keys h rows)).
      { apply new_keys_In. exists r'. simpl. repeat split; trivial; try lia; congruence. }
      assert (Hin1 : In (h, hcr_row_index r, 1)
                        (map (fun n => (h, hcr_row_index r, n))
                             (Py.range 1 (hcr_seat_count r + 1)))).
      { apply in_map_iff. exists 1. split; [reflexivity|]. apply range_In. lia. }
      revert Hnd Hin1 Hin2. clear. intros Hnd Hin1 Hin2.
      induction (map (fun n => (h, hcr_row_index r, n)) (Py.range 1 (hcr_seat_count r + 1)))
        as [|x l IHl]; [contradiction|].
      simpl in Hnd. inversion Hnd as [|? ? Hx Hl]; subst.
      destruct Hin1 as [->|Hin1]; [apply Hx, in_or_app; now right | now apply IHl].
  - rewrite (row_of_keys_none h r0 (map _ _)).
    + simpl. apply IH; [now apply NoDup_app_remove_l in Hnd | exact Hall |].
      exists n. apply in_app_or in Hn. destruct Hn as [Hn|Hn]; [|exact Hn].
      apply in_map_iff in Hn. destruct Hn as (m & E & _). inversion E. contradiction.
    + intros k Hk _ Hrow. apply in_map_iff in Hk. destruct Hk as (m & <- & _).
      simpl in Hrow. contradiction.
Qed.

Lemma row_of_keys_copy (sh h r0 : Z) (l : list Seat) :
  row_of_keys sh r0
    (map (fun hs => (sh, seat_row_index hs, seat_seat_number hs))
         (filter (fun hs => seat_hall_id hs =? h) l))
  = row_of_keys h r0 (map seat_key l).
Proof.
  unfold row_of_keys. induction l as [|x l IH]; simpl; [reflexivity|].
  destruct (Z.eqb_spec (seat_hall_id x) h) as [E|E]; simpl.
  - rewrite Z.eqb_refl. simpl.
    destruct (seat_row_index x =? r0); simpl; now rewrite IH.
  - exact IH.
Qed.

(** ** The invariant of the reachable databases *)

Lemma uq_hall_row_seat_NoDup (db : Db) :
  uq_hall_row_seat db = true <-> NoDup (map seat_key (seats db)).
Proof. apply distinct_keys_NoDup. Qed.

Lemma Inv_empty : Inv empty_db.
Proof.
  constructor; simpl; try reflexivity; try constructor; intros; contradiction.
Qed.

Lemma Inv_schema_ok (db : Db) : Inv db -> schema_ok db = true.
Proof.
  intros I. apply schema_ok_spec. repeat split; try apply I.
  apply fk_show_seat_booking_spec. intros s b Hs Hb.
  destruct (inv_booked db I s b Hs Hb) as (_ & bk & Hbk & <- & _). now apply in_map.
Qed.

Lemma Inv_add_movie (m : Movie) (db : Db) : Inv db -> Inv (add_movie m db).
Proof. intros I. constructor; try apply I. Qed.

Lemma Inv_add_theater (t : Theater) (db : Db) : Inv db -> Inv (add_theater t db).
Proof. intros I. constructor; try apply I. Qed.

Lemma Inv_create_hall (db : Db) (h : Hall) (rows : list HallCreateRow)
      (added : list Seat) :
  Inv db ->
  hall_id h = next_id (map hall_id (halls db)) ->
  map seat_key added = new_keys (hall_id h) rows ->
  forallb (fun r => 6 <=? hcr_seat_count r) rows = true ->
  uq_hall_row_seat (set_seats (seats db ++ added) (add_hall h db)) = true ->
  Inv (set_seats (seats db ++ added) (add_hall h db)).
Proof.
  intros I Hh K Hall U.
  assert (Hold : forall x, In x (seats db) -> seat_hall_id x <> hall_id h).
  { intros x Hx E. apply (inv_seat_fk db I) in Hx. apply next_id_fresh in Hx.
    rewrite <- Hh in Hx. lia. }
  assert (Hnew : forall x, In x added -> seat_hall_id x = hall_id h).
  { intros x Hx. apply (in_map seat_key) in Hx. rewrite K in Hx.
    apply new_keys_In in Hx. destruct Hx as (_ & _ & E & _). exact E. }
  assert (Hrow : forall h0 r0,
             hall_row (set_seats (seats db ++ added) (add_hall h db)) h0 r0
             = hall_row db h0 r0 ++ row_of_keys h0 r0 (new_keys (hall_id h) rows)).
  { intros h0 r0. unfold hall_row. simpl. now rewrite map_app, row_of_keys_app, K. }
  constructor; try apply I; trivial.
  - simpl. intros x Hx. rewrite map_app. apply in_or_app. apply in_app_or in Hx.
    destruct Hx as [Hx|Hx]; [left; now apply (inv_seat_fk db I)|].
    right. simpl. left. symmetry. now apply Hnew.
  - intros x Hx. rewrite Hrow. simpl in Hx. apply in_app_or in Hx.
    destruct Hx as [Hx|Hx].
    + rewrite row_of_keys_none.
      * rewrite app_nil_r. now apply (inv_hall_rows db I).
      * intros k Hk E _. apply new_keys_In in Hk. destruct Hk as (_ & _ & E' & _).
        apply (Hold x Hx). congruence.
    + unfold hall_row. rewrite (row_of_keys_none _ _ (map seat_key (seats db))).
      * simpl. rewrite (Hnew x Hx). apply new_keys_row; trivial.
        -- apply uq_hall_row_seat_NoDup in U. simpl in U. rewrite map_app, K in U.
           now apply NoDup_app_remove_l in U.
        -- exists (seat_seat_number x). rewrite <- K, <- (Hnew x Hx).
           now apply (in_map seat_key) in Hx.
      * intros k Hk E _. apply in_map_iff in Hk. destruct Hk as (y & <- & Hy).
        apply (Hold y Hy). simpl in E. rewrite E. now apply Hnew.
Qed.

Lemma Inv_create_show (db : Db) (sh : Show) (hall : Z) (added : list ShowSeat) :
  Inv db ->
  show_id sh = next_id (map show_id (shows db)) ->
  map ss_key added
  = map (fun hs => (show_id sh, seat_row_index hs, seat_seat_number hs))
        (filter (fun hs => seat_hall_id hs =? hall) (seats db)) ->
  Forall (fun x => ss_status x = "available" /\ ss_booking_id x = None) added ->
  uq_show_row_seat (set_show_seats (show_seats db ++ added) (add_show sh db)) = true ->
  Inv (set_show_seats (show_seats db ++ added) (add_show sh db)).
Proof.
  intros I Hsh K F U. rewrite Forall_forall in F.
  assert (Hold : forall s, In s (show_seats db) -> ss_show_id s <> show_id sh).
  { intros s Hs E. apply (inv_ss_fk db I) in Hs. apply next_id_fresh in Hs.
    rewrite <- Hsh in Hs. lia. }
  assert (Hnew : forall s, In s added ->
             ss_show_id s = show_id sh
             /\ exists hs, In hs (seats db) /\ seat_hall_id hs = hall
                           /\ seat_row_index hs = ss_row_index s).
  { intros s Hs. apply (in_map ss_key) in Hs. rewrite K in Hs.
    apply in_map_iff in Hs. destruct Hs as (hs & E & Hhs). apply filter_In in Hhs.
    destruct Hhs as [Hhs Hb]. apply Z.eqb_eq in Hb. inversion E.
    split; [reflexivity|]. exists hs. tauto. }
  constructor; try apply I; trivial.
  - simpl. intros s b Hs Hb. apply in_app_or in Hs. destruct Hs as [Hs|Hs].
    + now apply (inv_booked db I).
    + destruct (F s Hs) as [_ E]. congruence.
  - simpl. intros s Hs. rewrite map_app. apply in_or_app. apply in_app_or in Hs.
    destruct Hs as [Hs|Hs]; [left; now apply (inv_ss_fk db I)|].
    right. simpl. left. symmetry. now apply Hnew.
  - intros s Hs. unfold show_row. simpl. rewrite map_app, row_of_keys_app, K.
    simpl in Hs. apply in_app_or in Hs. destruct Hs as [Hs|Hs].
    + rewrite (row_of_keys_none _ _ (map _ (filter _ _))).
      * rewrite app_nil_r. now apply (inv_show_rows db I).
      * intros k Hk E _. apply in_map_iff in Hk. destruct Hk as (hs & <- & _).
        simpl in E. apply (Hold s Hs). congruence.
    + destruct (Hnew s Hs) as (E & hs & Hhs & Hhall & Hrow).
      rewrite (row_of_keys_none _ _ (map ss_key (show_seats db))).
      * simpl. rewrite E, row_of_keys_copy, <- Hrow, <- Hhall.
        now apply (inv_hall_rows db I).
      * intros k Hk E' _. apply in_map_iff in Hk. destruct Hk as (y & <- & Hy).
        apply (Hold y Hy). simpl in E'. congruence.
Qed.

Lemma Inv_book (db : Db) (w : ShowSeat -> bool) (bk : Booking) :
  Inv db ->
  booking_id bk = next_id (map booking_id (bookings db)) ->
  (forall s, w s = true -> ss_show_id s = booking_show_id bk) ->
  Inv (update_show_seats w (booking_id bk) (add_booking bk db)).
Proof.
  intros I Hb Hw.
  assert (Hin : forall s', In s' (show_seats (update_show_seats w (booking_id bk)
                                                  (add_booking bk db))) ->
             exists s, In s (show_seats db) /\ ss_key s' = ss_key s
                       /\ ((w s = true /\ s' = booked_by (booking_id bk) s)
                           \/ (w s = false /\ s' = s))).
  { simpl. intros s' Hs'. apply in_map_iff in Hs'. destruct Hs' as (s & <- & Hs).
    exists s. split; [exact Hs|]. destruct (w s); split; auto. }
  constructor; try apply I.
  - rewrite update_show_seats_uq. apply I.
  - simpl. rewrite map_app. simpl.
    apply (Permutation_NoDup (l := booking_id bk :: map booking_id (bookings db))).
    + apply Permutation_cons_append.
    + constructor; [|apply I]. intros Hx. apply next_id_fresh in Hx. lia.
  - intros s' b Hs' Hb'. destruct (Hin s' Hs') as (s & Hs & _ & [[Hws ->]|[Hws ->]]).
    + simpl in Hb'. inversion Hb'; subst b. split; [reflexivity|].
      exists bk. simpl. split; [apply in_or_app; right; now left|].
      split; [reflexivity|]. symmetry. now apply Hw.
    + destruct (inv_booked db I s b Hs Hb') as (Hst & bk' & Hbk' & E1 & E2).
      split; [exact Hst|]. exists bk'. simpl. split; [apply in_or_app; now left|].
      now split.
  - intros s' Hs'. destruct (Hin s' Hs') as (s & Hs & Hk & _).
    replace (ss_show_id s') with (ss_show_id s) by (unfold ss_key in Hk; congruence).
    now apply (inv_ss_fk db I).
  - intros s' Hs'. destruct (Hin s' Hs') as (s & Hs & Hk & _).
    unfold show_row. rewrite update_show_seats_keys. simpl.
    replace (ss_show_id s') with (ss_show_id s) by (unfold ss_key in Hk; congruence).
    replace (ss_row_index s') with (ss_row_index s) by (unfold ss_key in Hk; congruence).
    now apply (inv_show_rows db I).
Qed.

Lemma Inv_locked (db : Db) (payload : BookingRequest) (now : datetime)
      (c : list (Z * Z)) :
  Inv db -> Inv (fst (get_db (book_group_locked payload now c) db)).
Proof.
  intros I. rewrite locked_outcome by apply I.
  destruct (recheck_fails _ c); simpl; [exact I|].
  apply (Inv_book db (candidate_where (br_show_id payload) c)
           (mkBooking (next_id (map booking_id (bookings db))) (br_show_id payload)
                      (br_group_name payload) now)); trivial.
  intros s Hs. simpl. unfold candidate_where in Hs. apply andb_true_iff in Hs.
  destruct Hs as [Hs _]. now apply Z.eqb_eq in Hs.
Qed.

Lemma Inv_serve (db : Db) (r : Request) : Inv db -> Inv (serve db r).
Proof.
  intros I. pose proof (inv_uq_hall db I) as Uh. pose proof (inv_uq_show db I) as Us.
  destruct r as [title duration|name location|theater payload|payload|payload now
                 |payload now c]; simpl.
  - rewrite create_movie_run, Uh, Us. simpl. now apply Inv_add_movie.
  - rewrite create_theater_run, Uh, Us. simpl. now apply Inv_add_theater.
  - unfold post_hall. destruct (HallCreate_valid payload); [|exact I].
    pose proof (create_hall_run theater payload db) as R. cbv zeta in R.
    destruct (find _ (theaters db)); [|rewrite R; exact I].
    rewrite Uh, Us in R. simpl in R.
    destruct (forallb _ (hc_rows payload)) eqn:Hall; [|rewrite R; exact I].
    destruct R as (added & K & R). rewrite R.
    destruct (uq_hall_row_seat _ && uq_show_row_seat _) eqn:U; [|exact I].
    apply andb_true_iff in U. destruct U as [U _]. simpl.
    apply (Inv_create_hall db _ (hc_rows payload)); trivial.
  - pose proof (create_show_run payload db) as R. cbv zeta in R.
    destruct (find _ (movies db)); [|rewrite R; exact I].
    destruct (find _ (halls db)); [|rewrite R; exact I].
    rewrite Uh, Us in R. simpl in R. destruct R as (added & K & F & R). rewrite R.
    destruct (uq_hall_row_seat _ && uq_show_row_seat _) eqn:U; [|exact I].
    apply andb_true_iff in U. destruct U as [_ U]. simpl.
    apply (Inv_create_show db _ (sc_hall_id payload)); trivial.
  - rewrite post_book_outcome. exact I.
  - now apply Inv_locked.
Qed.

Lemma Inv_serve_all (rs : list Request) (db : Db) : Inv db -> Inv (serve_all db rs).
Proof.
  revert db. induction rs as [|r rs IH]; intros db I; simpl; [exact I|].
  apply IH. now apply Inv_serve.
Qed.

Lemma Inv_reachable (rs : list Request) : Inv (serve_all empty_db rs).
Proof. apply Inv_serve_all, Inv_empty. Qed.

(** * The claims *)

(** C3.  For the show with the single row 1 of seats 1..10 in which seats 3
    and 7 are booked and all others available, [find_contiguous_in_show]
    with group size 3 returns exactly the block [(1,4); (1,5); (1,6)]. *)
Theorem find_contiguous_in_show_scenario :
  find_contiguous_in_show 1 3 (session_of scenario_db)
  = (session_of scenario_db, Return (Some [(1, 4); (1, 5); (1, 6)])).
Proof. vm_compute. reflexivity. Qed.

(** C4.  On every inventory snapshot that satisfies the unique constraint of
    [show_seats], and for every group size [k >= 1], the finder returns
    without touching the session; a returned block is the run of [k]
    consecutive available seat numbers in the lowest row that has one, and the
    left-most such run of that row; it returns [None] exactly when no row has
    a run; and the answer is the same for every physical order of the rows
    of the table (it is a function of the snapshot alone). *)
Theorem find_contiguous_in_show_first_run (s : Session) (show k : Z) :
  1 <= k ->
  uq_show_row_seat (working s) = true ->
  exists res,
    find_contiguous_in_show show k s = (s, Return res)
    /\ (forall blk, res = Some blk ->
          exists r a, blk = block r a k /\ first_run (working s) show k r a)
    /\ (res = None <-> forall r a, ~ is_run (working s) show k r a)
    /\ (forall s', Permutation (show_seats (working s)) (show_seats (working s')) ->
          snd (find_contiguous_in_show show k s') = Return res).
Proof.
  intros Hk Hu. exists (found (working s) show k).
  split; [apply find_contiguous_in_show_eval|]. split; [|split].
  - intros blk E. now apply found_Some.
  - split.
    + intros E. now apply found_None.
    + intros Hno. destruct (found (working s) show k) as [blk|] eqn:E; [|reflexivity].
      destruct (found_Some _ _ _ _ Hk Hu E) as (r & a & _ & [Hr _]).
      exfalso. exact (Hno r a Hr).
  - intros s' Hp. rewrite find_contiguous_in_show_eval. simpl.
    now rewrite (found_perm (working s) (working s') show k Hk Hu Hp).
Qed.

Lemma find_contiguous_in_show_first_run_witness :
  exists res,
    find_contiguous_in_show 1 3 (session_of scenario_db)
    = (session_of scenario_db, Return res)
    /\ (forall blk, res = Some blk ->
          exists r a, blk = block r a 3 /\ first_run scenario_db 1 3 r a).
Proof.
  destruct (find_contiguous_in_show_first_run (session_of scenario_db) 1 3
              ltac:(lia) ltac:(vm_compute; reflexivity)) as (res & E & H & _).
  exists res. split; [exact E | exact H].
Defined.



(** C9.  [suggest_other_shows], with all the [find_contiguous_in_show] calls
    it makes, returns a list and leaves the session as it found it: the
    committed image, the working image (every show, seat and booking row) and
    the set of locked rows are unchanged. *)
Theorem suggest_other_shows_read_only (target : Show) (k w : Z) (s : Session) :
  (exists suggestions, suggest_other_shows target k w s = (s, Return suggestions))
  /\ forall show, exists res, find_contiguous_in_show show k s = (s, Return res).
Proof.
  split.
  - eexists. apply suggest_other_shows_eval.
  - intros show. eexists. apply find_contiguous_in_show_eval.
Qed.

(** ** One step of the service, seen from the seat inventory *)

Lemma serve_cases (db : Db) (r : Request) :
  Inv db ->
  (exists added, show_seats (serve db r) = show_seats db ++ added
                 /\ bookings (serve db r) = bookings db)
  \/ (exists payload now c,
        recheck_fails (select_candidate (br_show_id payload) c db) c = false
        /\ serve db r
           = update_show_seats (candidate_where (br_show_id payload) c)
               (next_id (map booking_id (bookings db)))
               (add_booking
                  (mkBooking (next_id (map booking_id (bookings db)))
                             (br_show_id payload) (br_group_name payload) now)
                  db)).
Proof.
  intros I. pose proof (inv_uq_hall db I) as Uh. pose proof (inv_uq_show db I) as Us.
  assert (Hsame : exists added, show_seats db = show_seats db ++ added
                                /\ bookings db = bookings db).
  { exists []. now rewrite app_nil_r. }
  assert (Hlocked : forall payload now c,
             (exists added,
                 show_seats (fst (get_db (book_group_locked payload now c) db))
                 = show_seats db ++ added
                 /\ bookings (fst (get_db (book_group_locked payload now c) db))
                    = bookings db)
             \/ (exists payload' now' c',
                   recheck_fails (select_candidate (br_show_id payload') c' db) c' = false
                   /\ fst (get_db (book_group_locked payload now c) db)
                      = update_show_seats (candidate_where (br_show_id payload') c')
                          (next_id (map booking_id (bookings db)))
                          (add_booking
                             (mkBooking (next_id (map booking_id (bookings db)))
                                        (br_show_id payload') (br_group_name payload')
                                        now')
                             db))).
  { intros payload now c. rewrite locked_outcome by assumption.
    destruct (recheck_fails _ c) eqn:E; simpl; [left; exact Hsame|].
    right. exists payload, now, c. split; [exact E | reflexivity]. }
  destruct r as [title duration|name location|theater payload|payload|payload now
                 |payload now c]; simpl.
  - left. rewrite create_movie_run, Uh, Us. simpl. exact Hsame.
  - left. rewrite create_theater_run, Uh, Us. simpl. exact Hsame.
  - left. unfold post_hall. destruct (HallCreate_valid payload); [|exact Hsame].
    pose proof (create_hall_run theater payload db) as R. cbv zeta in R.
    destruct (find _ (theaters db)); [|rewrite R; exact Hsame].
    rewrite Uh, Us in R. simpl in R.
    destruct (forallb _ (hc_rows payload)); [|rewrite R; exact Hsame].
    destruct R as (added & K & R). rewrite R.
    destruct (uq_hall_row_seat _ && uq_show_row_seat _); exact Hsame.
  - left. pose proof (create_show_run payload db) as R. cbv zeta in R.
    destruct (find _ (movies db)); [|rewrite R; exact Hsame].
    destruct (find _ (halls db)); [|rewrite R; exact Hsame].
    rewrite Uh, Us in R. simpl in R. destruct R as (added & K & F & R). rewrite R.
    destruct (uq_hall_row_seat _ && uq_show_row_seat _); [|exact Hsame].
    simpl. exists added. split; reflexivity.
  - left. rewrite post_book_outcome. exact Hsame.
  - apply Hlocked.
Qed.

Lemma serve_seat_step (db : Db) (r : Request) (s : ShowSeat) :
  Inv db -> In s (show_seats db) ->
  In s (show_seats (serve db r))
  \/ (ss_status s = "available" /\ ss_booking_id s = None
      /\ exists b, ~ In b (map booking_id (bookings db))
                   /\ In b (map booking_id (bookings (serve db r)))
                   /\ In (booked_by b s) (show_seats (serve db r))).
Proof.
  intros I Hs.
  destruct (serve_cases db r I) as [(added & E & _)|(payload & now & c & Hc & Hdb)].
  - left. rewrite E. apply in_or_app. now left.
  - rewrite Hdb. clear Hdb. simpl.
    destruct (candidate_where (br_show_id payload) c s) eqn:W.
    + right.
      assert (Hav : ss_status s = "available").
      { destruct (recheck_passes _ _ db (inv_uq_show db I) Hc) as (_ & _ & Hav).
        apply Hav. unfold select_candidate. apply filter_In. now split. }
      split; [exact Hav|]. split.
      { destruct (ss_booking_id s) as [b|] eqn:Eb; [|reflexivity].
        destruct (inv_booked db I s b Hs Eb) as [Hst _]. rewrite Hav in Hst. discriminate. }
      exists (next_id (map booking_id (bookings db))). split; [|split].
      * intros Hin. apply next_id_fresh in Hin. lia.
      * rewrite map_app. apply in_or_app. right. now left.
      * apply in_map_iff. exists s. rewrite W. now split.
    + left. apply in_map_iff. exists s. rewrite W. now split.
Qed.

Lemma booked_seat_frozen (rs : list Request) (db : Db) (s : ShowSeat) :
  Inv db -> In s (show_seats db) -> ss_status s <> "available" ->
  In s (show_seats (serve_all db rs)).
Proof.
  revert db. induction rs as [|r rs IH]; intros db I Hs Hst; simpl; [exact Hs|].
  apply IH; [now apply Inv_serve | | exact Hst].
  destruct (serve_seat_step db r s I Hs) as [H|(Hav & _)]; [exact H | contradiction].
Qed.

Lemma owned_seat_show (db : Db) (B : Booking) (s : ShowSeat) :
  Inv db -> In B (bookings db) ->
  In s (select_seats_of_booking (booking_id B) db) ->
  In s (show_seats db) /\ ss_booking_id s = Some (booking_id B)
  /\ ss_show_id s = booking_show_id B.
Proof.
  intros I HB Hs. unfold select_seats_of_booking in Hs. apply filter_In in Hs.
  destruct Hs as [Hs Hb]. destruct (ss_booking_id s) as [b|] eqn:Eb; [|discriminate].
  apply Z.eqb_eq in Hb. subst b. split; [exact Hs|]. split; [reflexivity|].
  destruct (inv_booked db I s _ Hs Eb) as (_ & bk & Hbk & Hid & Hshow).
  rewrite <- Hshow. f_equal.
  now apply (NoDup_map_inj_on booking_id (bookings db) bk B (inv_booking_pk db I)).
Qed.

(** C1.  In every database reached through the endpoints, the locked blocks
    of bookings in flight included ([CommitBook]): the seats a booking owns
    belong to the show of the booking, and two different bookings of one
    show never own a seat with the same (row, number); one more request
    leaves every seat row as it is or turns an available row without a
    booking into a booked row of a booking that did not exist before; and a
    row that is not available stays exactly as it is, with its booking,
    through every further sequence of requests. *)
Theorem one_booking_per_seat (rs : list Request) :
  let db := serve_all empty_db rs in
  (forall B s, In B (bookings db) ->
               In s (select_seats_of_booking (booking_id B) db) ->
               ss_show_id s = booking_show_id B)
  /\ (forall B1 B2 s1 s2,
        In B1 (bookings db) -> In B2 (bookings db) ->
        booking_id B1 <> booking_id B2 ->
        booking_show_id B1 = booking_show_id B2 ->
        In s1 (select_seats_of_booking (booking_id B1) db) ->
        In s2 (select_seats_of_booking (booking_id B2) db) ->
        seat_pair s1 <> seat_pair s2)
  /\ (forall r s, In s (show_seats db) ->
        In s (show_seats (serve db r))
        \/ (ss_status s = "available" /\ ss_booking_id s = None
            /\ exists b, ~ In b (map booking_id (bookings db))
                         /\ In b (map booking_id (bookings (serve db r)))
                         /\ In (booked_by b s) (show_seats (serve db r))))
  /\ (forall more s, In s (show_seats db) -> ss_status s <> "available" ->
        In s (show_seats (serve_all db more))).
Proof.
  intros db. pose proof (Inv_reachable rs) as I. fold db in I.
  split; [|split; [|split]].
  - intros B s HB Hs. now apply (owned_seat_show db B s I HB).
  - intros B1 B2 s1 s2 H1 H2 Hne Hshow Hs1 Hs2 Hp.
    destruct (owned_seat_show db B1 s1 I H1 Hs1) as (Hin1 & Hb1 & Hsh1).
    destruct (owned_seat_show db B2 s2 I H2 Hs2) as (Hin2 & Hb2 & Hsh2).
    assert (E : s1 = s2).
    { apply (NoDup_map_inj_on ss_key (show_seats db)); trivial.
      - apply uq_show_row_seat_NoDup, I.
      - unfold ss_key. unfold seat_pair in Hp. inversion Hp. congruence. }
    subst s2. congruence.
  - intros r s Hs. now apply serve_seat_step.
  - intros more s Hs Hst. now apply booked_seat_frozen.
Qed.

(** ** Layouts with a short row *)

Lemma short_row_fails_check (rows : list HallCreateRow) :
  (exists r, In r rows /\ hcr_seat_count r < 6) ->
  forallb (fun r => 6 <=? hcr_seat_count r) rows = false.
Proof.
  intros (r & Hr & Hlt). destruct (forallb _ rows) eqn:E; [|reflexivity].
  rewrite forallb_forall in E. specialize (E r Hr). apply Z.leb_le in E. lia.
Qed.

Lemma create_hall_short (theater : Z) (payload : HallCreate) (db : Db) :
  (exists r, In r (hc_rows payload) /\ hcr_seat_count r < 6) ->
  (exists e, get_db (create_hall theater payload) db = (db, Raise e))
  /\ (find (fun t => theater_id t =? theater) (theaters db) <> None ->
      uq_hall_row_seat db = true -> uq_show_row_seat db = true ->
      get_db (create_hall theater payload) db = (db, Raise row_too_short)).
Proof.
  intros Hshort. apply short_row_fails_check in Hshort.
  pose proof (create_hall_run theater payload db) as R. cbv zeta in R.
  rewrite Hshort in R.
  destruct (find _ (theaters db)).
  - destruct (uq_hall_row_seat db && uq_show_row_seat db) eqn:U.
    + split; [eexists; exact R | intros _ _ _; exact R].
    + split; [eexists; exact R|]. intros _ Uh Us. rewrite Uh, Us in U. discriminate.
  - split; [eexists; exact R | intros H; congruence].
Qed.

(** C10.  A layout with a row of fewer than 6 seats is refused, by the
    handler (whatever came before the short row in the layout, no hall and no
    seat is stored; with the theater present the answer is the 400) and by
    the validation of the request body; and in every database reached through
    the endpoints each row of each hall, and each row of each show's seat
    inventory, holds the seats 1, 2, ..., n for some n >= 6, each once. *)
Theorem create_hall_rows_at_least_six :
  (forall theater payload db,
      (exists r, In r (hc_rows payload) /\ hcr_seat_count r < 6) ->
      (exists e, get_db (create_hall theater payload) db = (db, Raise e))
      /\ (find (fun t => theater_id t =? theater) (theaters db) <> None ->
          uq_hall_row_seat db = true -> uq_show_row_seat db = true ->
          get_db (create_hall theater payload) db = (db, Raise row_too_short))
      /\ post_hall theater payload db = (db, Raise RequestValidationError))
  /\ (forall rs,
        let db := serve_all empty_db rs in
        (forall x, In x (seats db) ->
           exists n, 6 <= n
             /\ Permutation (hall_row db (seat_hall_id x) (seat_row_index x))
                            (Py.range 1 (n + 1)))
        /\ (forall s, In s (show_seats db) ->
              exists n, 6 <= n
                /\ Permutation (show_row db (ss_show_id s) (ss_row_index s))
                               (Py.range 1 (n + 1)))).
Proof.
  split.
  - intros theater payload db Hshort.
    destruct (create_hall_short theater payload db Hshort) as [H1 H2].
    split; [exact H1|]. split; [exact H2|].
    unfold post_hall. destruct (HallCreate_valid payload) eqn:V; [|reflexivity].
    exfalso. destruct Hshort as (r & Hr & Hlt). unfold HallCreate_valid in V.
    rewrite forallb_forall in V. specialize (V r Hr). unfold HallCreateRow_valid in V.
    apply andb_true_iff in V. destruct V as [_ V]. apply Z.leb_le in V. lia.
  - intros rs db. pose proof (Inv_reachable rs) as I. fold db in I. split.
    + intros x Hx. destruct (inv_hall_rows db I x Hx) as (n & Hn & E).
      exists n. split; [exact Hn|]. rewrite E. apply Permutation_refl.
    + intros s Hs. destruct (inv_show_rows db I s Hs) as (n & Hn & E).
      exists n. split; [exact Hn|]. rewrite E. apply Permutation_refl.
Qed.

Lemma create_hall_rows_at_least_six_witness :
  get_db (create_hall 1 layout_short) one_show_db = (one_show_db, Raise row_too_short)
  /\ post_hall 1 layout_short one_show_db = (one_show_db, Raise RequestValidationError).
Proof.
  destruct (proj1 create_hall_rows_at_least_six 1 layout_short one_show_db)
    as (_ & H400 & H422).
  - exists (mkHallCreateRow 2 5 None). split; [right; left; reflexivity | simpl; lia].
  - split; [|exact H422].
    apply H400; [vm_compute; discriminate | vm_compute; reflexivity
                 | vm_compute; reflexivity].
Defined.

(** ** The suggestion list *)

Lemma select_shows_between_In (lo hi : datetime) (db : Db) (sh : Show) :
  In sh (select_shows_between lo hi db) <->
  In sh (shows db) /\ lo <= show_start_time sh <= hi.
Proof.
  unfold select_shows_between.
  rewrite sort_In, filter_In, andb_true_iff, !Z.leb_le. tauto.
Qed.

Lemma StronglySorted_impl {A : Type} (R R' : A -> A -> Prop) (l : list A) :
  (forall a b, R a b -> R' a b) -> StronglySorted R l -> StronglySorted R' l.
Proof.
  intros HR. induction 1 as [|x l Hs IH Hx]; constructor; [exact IH|].
  rewrite Forall_forall in *. intros y Hy. now apply HR, Hx.
Qed.


Lemma flat_map_sorted {A B : Type} (R : A -> A -> Prop) (R' : B -> B -> Prop)
      (f : A -> list B) (l : list A) :
  (forall a, StronglySorted R' (f a)) ->
  (forall a b x y, R a b -> In x (f a) -> In y (f b) -> R' x y) ->
  StronglySorted R l -> StronglySorted R' (flat_map f l).
Proof.
  intros Hf HR. induction 1 as [|a l Hs IH Ha]; simpl; [constructor|].
  rewrite Forall_forall in Ha.
  assert (Hcross : forall x y, In x (f a) -> In y (flat_map f l) -> R' x y).
  { intros x y Hx Hy. apply in_flat_map in Hy. destruct Hy as (b & Hb & Hy).
    apply (HR a b); auto. }
  specialize (Hf a). induction Hf as [|x fa Hfa IHfa Hx]; simpl; [exact IH|].
  constructor.
  - apply IHfa. intros x' y Hx' Hy. apply Hcross; [now right | exact Hy].
  - rewrite Forall_forall in *. intros y Hy. apply in_app_or in Hy.
    destruct Hy as [Hy|Hy]; [now apply Hx | apply Hcross; [now left | exact Hy]].
Qed.

Lemma suggested_In (db : Db) (target : Show) (k w : Z) (sg : Suggestion) :
  In sg (suggested db target k w) <->
  exists sh,
    In sh (shows db)
    /\ show_start_time target - timedelta_minutes w <= show_start_time sh
       <= show_start_time target + timedelta_minutes w
    /\ found db (show_id sh) k = Some (sg_seats sg)
    /\ sg_seats sg <> []
    /\ sg = mkSuggestion (show_id sh) (show_start_time sh) (sg_seats sg).
Proof.
  unfold suggested. rewrite in_flat_map. split.
  - intros (sh & Hsh & Hsg). apply select_shows_between_In in Hsh.
    exists sh. destruct (found db (show_id sh) k) as [[|p c]|]; try contradiction.
    destruct Hsg as [<-|[]]. simpl. repeat split; try tauto. discriminate.
  - intros (sh & Hsh & Hw & Hf & Hne & E). exists sh.
    split; [apply select_shows_between_In; tauto|].
    rewrite Hf. destruct (sg_seats sg) as [|p c] eqn:Es; [congruence|].
    left. now rewrite E.
Qed.







(** The request for eleven seats in the hall of ten: the search fails and the
    answer carries the show in the hall of twelve. *)
Example suggestion_for_eleven :
  post_book (mkBookingRequest 1 None 11) 5 two_halls_db
  = (two_halls_db,
     Raise (HTTPException 409
              (MessageWithSuggestions
                 "cannot find contiguous seats in requested show"
                 [mkSuggestion 2 (timedelta_minutes 60) (block 1 1 11)]))).
Proof. vm_compute. reflexivity. Qed.

(** ** Group sizes *)

(** C6.  The body check of [BookingRequest] accepts a group size of 0 and of
    -1 and [book_group] runs the finder for them: on the show with ten
    available seats it returns the empty block for 0 and the first nine
    seats for -1, and the request then ends in [InvalidRequestError] as it
    does for every size the finder has a block for; on a show without seats
    the finder returns [None] for 0 and the answer is the 409 of a failed
    search.  Nothing is stored. *)
Theorem group_size_not_checked :
  BookingRequest_valid (mkBookingRequest 1 None 0) = true
  /\ BookingRequest_valid (mkBookingRequest 1 None (-1)) = true
  /\ find_contiguous_in_show 1 0 (session_of one_show_db)
     = (session_of one_show_db, Return (Some []))
  /\ find_contiguous_in_show 1 (-1) (session_of one_show_db)
     = (session_of one_show_db, Return (Some (block 1 1 9)))
  /\ post_book (mkBookingRequest 1 None 0) 5 one_show_db
     = (one_show_db, Raise InvalidRequestError)
  /\ post_book (mkBookingRequest 1 None (-1)) 5 one_show_db
     = (one_show_db, Raise InvalidRequestError)
  /\ post_book (mkBookingRequest 2 None 0) 5 empty_hall_db
     = (empty_hall_db,
        Raise (HTTPException 409
                 (MessageWithSuggestions
                    "cannot find contiguous seats in requested show" []))).
Proof. vm_compute. repeat split; reflexivity. Qed.


(** * Further properties *)

(** ** Blocks for every group size *)

Lemma slice_incl {A : Type} (l : list A) (i j : Z) (x : A) :
  In x (Py.slice l i j) -> In x l.
Proof.
  unfold Py.slice. intros H.
  rewrite <- (firstn_skipn (Z.to_nat (Py.clamp (Py.len l) i)) l).
  apply in_or_app. right.
  rewrite <- (firstn_skipn
                (Z.to_nat (Py.clamp (Py.len l) j - Py.clamp (Py.len l) i))
                (skipn (Z.to_nat (Py.clamp (Py.len l) i)) l)).
  apply in_or_app. now left.
Qed.

Lemma first_window_slice (sl : list Z) (k : Z) (w : list Z) :
  first_window sl k = Some w ->
  strictly_consecutive w = true
  /\ exists i, 0 <= i < Py.len sl - k + 1 /\ w = Py.slice sl i (i + k).
Proof.
  unfold first_window.
  destruct (find _ (Py.range 0 (Py.len sl - k + 1))) as [i|] eqn:E; [|discriminate].
  intros H. injection H as <-. apply find_some in E. destruct E as [Hi Hp].
  split; [exact Hp|]. exists i. split; [now apply range_In | reflexivity].
Qed.

Lemma first_window_length (sl : list Z) (k : Z) (w : list Z) :
  0 <= k -> first_window sl k = Some w -> Py.len w = k.
Proof.
  intros Hk H. apply first_window_slice in H. destruct H as (_ & i & Hi & ->).
  unfold Py.len in *.
  assert (Hfit : (Z.to_nat i + Z.to_nat k <= List.length sl)%nat) by lia.
  pose proof (slice_window sl (Z.to_nat i) (Z.to_nat k) Hfit) as S.
  rewrite !Z2Nat.id in S by lia. rewrite S, window_length by exact Hfit. lia.
Qed.

(** Whatever the group size, a block of [found] is a run of consecutive
    available seats of one row. *)
Lemma found_block (db : Db) (show k : Z) (blk : list (Z * Z)) :
  uq_show_row_seat db = true -> found db show k = Some blk ->
  exists r a n, blk = block r a n /\ 0 <= n /\ (0 <= k -> n = k)
                /\ is_run db show n r a.
Proof.
  intros Hu E. unfold found in E.
  pose proof (group_by_row_grouped _ (select_ordered_sorted db show Hu)) as [_ Hl _].
  destruct (scan_rows_Some _ _ _ E) as (pre & r & sl & post & w & Hrows & Hw & -> & _).
  assert (Hin : In (r, sl) (group_by_row (select_show_seats_ordered show db))).
  { rewrite Hrows. apply in_or_app. right. now left. }
  destruct (Hl _ _ Hin) as [Hsl _]. rewrite (sort_increasing sl Hsl) in Hw.
  destruct (first_window_slice sl k w Hw) as (Hc & i & Hi & Hs).
  exists r, (nth 0 w 0), (Py.len w).
  split; [|split; [|split]].
  - unfold block. now rewrite <- (consecutive_is_range w Hc).
  - unfold Py.len. lia.
  - intros Hk. now apply (first_window_length sl).
  - intros j Hj. apply rows_available; [exact Hu|]. exists sl. split; [exact Hin|].
    apply (slice_incl sl i (i + k)). rewrite <- Hs.
    assert (Hr : In (nth 0 w 0 + j) (Py.range (nth 0 w 0) (nth 0 w 0 + Py.len w)))
      by (apply range_In; lia).
    now rewrite <- (consecutive_is_range w Hc) in Hr.
Qed.

(** X1.  Whatever integer the group size is, a block the finder returns is
    a run of consecutive available seats of one row of the show; for a group
    size that is not negative the run has exactly that many seats. *)
Theorem finder_block_any_size (s : Session) (show k : Z) (blk : list (Z * Z)) :
  uq_show_row_seat (working s) = true ->
  find_contiguous_in_show show k s = (s, Return (Some blk)) ->
  exists r a n,
    blk = block r a n /\ 0 <= n /\ (0 <= k -> n = k)
    /\ is_run (working s) show n r a.
Proof.
  intros Hu E. rewrite find_contiguous_in_show_eval in E.
  injection E as E. now apply (found_block (working s) show k).
Qed.

Lemma finder_block_any_size_witness :
  exists r a n,
    block 1 1 9 = block r a n /\ 0 <= n /\ (0 <= -1 -> n = -1)
    /\ is_run (working (session_of one_show_db)) 1 n r a.
Proof.
  exact (finder_block_any_size (session_of one_show_db) 1 (-1) (block 1 1 9)
           ltac:(vm_compute; reflexivity) ltac:(vm_compute; reflexivity)).
Defined.

(** ** [book_group] *)

Lemma range_NoDup (lo hi : Z) : NoDup (Py.range lo hi).
Proof.
  apply (NoDup_nth _ 0). intros i j Hi Hj E. rewrite range_length in Hi, Hj.
  rewrite !range_nth in E by assumption. lia.
Qed.

(** X2.  [POST /book] for a show id that fits the key column: 404 when the
    show does not exist; when the finder returns [None], and the window of
    180 minutes around the start of the show lies in the range of
    [datetime], the 409 that carries exactly the list of
    [suggest_other_shows]; and when the finder returns a block, whatever the
    block, [InvalidRequestError], because [begin()] is called on a session
    that is already in a transaction.  In the three cases the database is
    left as it was. *)
Theorem book_group_outcome (payload : BookingRequest) (now : datetime) (db : Db) :
  int32 (br_show_id payload) ->
  let show := br_show_id payload in
  let k := br_seats_requested payload in
  let lookup := find (fun sh => show_id sh =? show) (shows db) in
  (lookup = None ->
   post_book payload now db
   = (db, Raise (HTTPException 404 (Message "show not found"))))
  /\ (forall sh,
        lookup = Some sh ->
        find_contiguous_in_show show k (session_of db) = (session_of db, Return None) ->
        datetime_min <= show_start_time sh - timedelta_minutes 180 ->
        show_start_time sh + timedelta_minutes 180 <= datetime_max ->
        exists suggestions,
          suggest_other_shows sh k 180 (session_of db)
          = (session_of db, Return suggestions)
          /\ post_book payload now db
             = (db, Raise (HTTPException 409
                             (MessageWithSuggestions
                                "cannot find contiguous seats in requested show"
                                suggestions))))
  /\ (forall sh c,
        lookup = Some sh ->
        find_contiguous_in_show show k (session_of db)
        = (session_of db, Return (Some c)) ->
        post_book payload now db = (db, Raise InvalidRequestError)).
Proof.
  intros _. cbv zeta. pose proof (post_book_outcome payload now db) as R.
  split; [|split].
  - intros E. now rewrite E in R.
  - intros sh E F _ _. rewrite E in R. rewrite find_contiguous_in_show_eval in F.
    injection F as F. simpl in F. rewrite F in R.
    exists (suggested db sh (br_seats_requested payload) 180).
    split; [apply suggest_other_shows_eval | exact R].
  - intros sh c E F. rewrite E in R. rewrite find_contiguous_in_show_eval in F.
    injection F as F. simpl in F. now rewrite F in R.
Qed.

Lemma book_group_outcome_witness :
  post_book (mkBookingRequest 1 None 3) 5 one_show_db
  = (one_show_db, Raise InvalidRequestError).
Proof.
  apply (proj2 (proj2 (book_group_outcome (mkBookingRequest 1 None 3) 5 one_show_db
                         ltac:(unfold int32; simpl; lia)))
           (mkShow 1 1 1 0 1000) (block 1 1 3));
    vm_compute; reflexivity.
Defined.

(** ** Suggestions *)

Lemma find_show_of_In (db : Db) (sh : Show) :
  In sh (shows db) ->
  exists sh', find (fun x => show_id x =? show_id sh) (shows db) = Some sh'.
Proof.
  intros H. destruct (find _ (shows db)) as [sh'|] eqn:E; [now exists sh'|].
  apply (find_none _ _ E) in H. rewrite Z.eqb_refl in H. discriminate.
Qed.

(** X5.  When [POST /book] for a group of at least one answers the 409 with
    suggestions, on a database that satisfies the unique constraint of the
    show seats: nothing was stored; no suggestion is for the requested show;
    the block of every suggestion is the first run of that many available
    seats of the suggested show, a non-empty block; and a request for the
    suggested show with the same group size, on the same database, ends in
    [InvalidRequestError] like every request the finder has a block for. *)
Theorem suggestion_of_failed_search (payload : BookingRequest) (now : datetime)
        (db db' : Db) (msg : string) (suggestions : list Suggestion) :
  uq_show_row_seat db = true ->
  1 <= br_seats_requested payload ->
  post_book payload now db
  = (db', Raise (HTTPException 409 (MessageWithSuggestions msg suggestions))) ->
  db' = db
  /\ forall sg, In sg suggestions ->
       sg_show_id sg <> br_show_id payload
       /\ sg_seats sg <> []
       /\ (exists r a,
             sg_seats sg = block r a (br_seats_requested payload)
             /\ first_run db (sg_show_id sg) (br_seats_requested payload) r a)
       /\ forall name now',
            post_book (mkBookingRequest (sg_show_id sg) name
                                        (br_seats_requested payload)) now' db
            = (db, Raise InvalidRequestError).
Proof.
  intros Hu Hk H. rewrite post_book_outcome in H. injection H as <- H.
  split; [reflexivity|].
  destruct (find _ (shows db)) as [show|]; [|discriminate].
  destruct (found db _ _) as [c|] eqn:Ef; [discriminate|].
  injection H as _ <-.
  intros sg Hsg. apply suggested_In in Hsg.
  destruct Hsg as (sh & Hsh & _ & Hf & Hne & Esg).
  assert (Eid : sg_show_id sg = show_id sh) by (rewrite Esg; reflexivity).
  split; [|split; [exact Hne | split]].
  - intros E. rewrite Eid in E. rewrite E in Hf. congruence.
  - rewrite Eid. now apply found_Some.
  - intros name now'. rewrite post_book_outcome. simpl.
    rewrite Eid. destruct (find_show_of_In db sh Hsh) as (sh' & ->).
    now rewrite Hf.
Qed.

Lemma suggestion_of_failed_search_witness :
  sg_show_id (mkSuggestion 2 (timedelta_minutes 60) (block 1 1 11)) <> 1
  /\ sg_seats (mkSuggestion 2 (timedelta_minutes 60) (block 1 1 11)) <> []
  /\ (exists r a,
        sg_seats (mkSuggestion 2 (timedelta_minutes 60) (block 1 1 11)) = block r a 11
        /\ first_run two_halls_db
                     (sg_show_id (mkSuggestion 2 (timedelta_minutes 60) (block 1 1 11)))
                     11 r a)
  /\ forall name now',
       post_book (mkBookingRequest
                    (sg_show_id (mkSuggestion 2 (timedelta_minutes 60) (block 1 1 11)))
                    name 11) now' two_halls_db
       = (two_halls_db, Raise InvalidRequestError).
Proof.
  exact (proj2 (suggestion_of_failed_search (mkBookingRequest 1 None 11) 9 two_halls_db
                  two_halls_db "cannot find contiguous seats in requested show"
                  [mkSuggestion 2 (timedelta_minutes 60) (block 1 1 11)]
                  ltac:(vm_compute; reflexivity) ltac:(simpl; lia)
                  ltac:(vm_compute; reflexivity))
               (mkSuggestion 2 (timedelta_minutes 60) (block 1 1 11))
               (or_introl eq_refl)).
Defined.

(** ** Status and booking of a seat *)

Lemma serve_cases_added (db : Db) (r : Request) :
  Inv db ->
  (exists added, show_seats (serve db r) = show_seats db ++ added
                 /\ Forall (fun x => ss_status x = "available" /\ ss_booking_id x = None)
                           added)
  \/ (exists (w : ShowSeat -> bool) (b : Z), show_seats (serve db r)
                  = map (fun s => if w s then booked_by b s else s) (show_seats db)).
Proof.
  intros I. pose proof (inv_uq_hall db I) as Uh. pose proof (inv_uq_show db I) as Us.
  assert (Hsame : exists added, show_seats db = show_seats db ++ added
                    /\ Forall (fun x => ss_status x = "available" /\ ss_booking_id x = None)
                              added).
  { exists []. rewrite app_nil_r. split; [reflexivity | constructor]. }
  assert (Hlocked : forall payload now c,
             (exists added,
                 show_seats (fst (get_db (book_group_locked payload now c) db))
                 = show_seats db ++ added
                 /\ Forall (fun x => ss_status x = "available" /\ ss_booking_id x = None)
                           added)
             \/ (exists (w : ShowSeat -> bool) (b : Z),
                   show_seats (fst (get_db (book_group_locked payload now c) db))
                   = map (fun s => if w s then booked_by b s else s) (show_seats db))).
  { intros payload now c. rewrite locked_outcome by assumption.
    destruct (recheck_fails _ c); simpl; [left; exact Hsame|].
    right. eexists _, _. reflexivity. }
  destruct r as [title duration|name location|theater payload|payload|payload now
                 |payload now c]; simpl.
  - left. rewrite create_movie_run, Uh, Us. simpl. exact Hsame.
  - left. rewrite create_theater_run, Uh, Us. simpl. exact Hsame.
  - left. unfold post_hall. destruct (HallCreate_valid payload); [|exact Hsame].
    pose proof (create_hall_run theater payload db) as R. cbv zeta in R.
    destruct (find _ (theaters db)); [|rewrite R; exact Hsame].
    rewrite Uh, Us in R. simpl in R.
    destruct (forallb _ (hc_rows payload)); [|rewrite R; exact Hsame].
    destruct R as (added & K & R). rewrite R.
    destruct (uq_hall_row_seat _ && uq_show_row_seat _); exact Hsame.
  - left. pose proof (create_show_run payload db) as R. cbv zeta in R.
    destruct (find _ (movies db)); [|rewrite R; exact Hsame].
    destruct (find _ (halls db)); [|rewrite R; exact Hsame].
    rewrite Uh, Us in R. simpl in R. destruct R as (added & K & F & R). rewrite R.
    destruct (uq_hall_row_seat _ && uq_show_row_seat _); [|exact Hsame].
    simpl. exists added. split; [reflexivity | exact F].
  - left. rewrite post_book_outcome. exact Hsame.
  - apply Hlocked.
Qed.

Lemma unbooked_is_available (rs : list Request) (db : Db) :
  Inv db ->
  (forall s, In s (show_seats db) -> ss_booking_id s = None -> ss_status s = "available") ->
  forall s, In s (show_seats (serve_all db rs)) ->
            ss_booking_id s = None -> ss_status s = "available".
Proof.
  revert db. induction rs as [|r rs IH]; intros db I Q; simpl; [exact Q|].
  apply IH; [now apply Inv_serve|].
  intros s Hs Hb.
  destruct (serve_cases_added db r I) as [(added & E & F)|(w & b & E)]; rewrite E in Hs.
  - apply in_app_or in Hs. destruct Hs as [Hs|Hs]; [now apply Q|].
    rewrite Forall_forall in F. now apply F.
  - apply in_map_iff in Hs. destruct Hs as (s0 & Hupd & Hs0).
    destruct (w s0); subst s; [discriminate | now apply Q].
Qed.

(** X6.  In every database reached through the endpoints a seat of a show is
    in one of two states: available and without a booking, or booked and
    carrying the id of an existing booking of its own show. *)
Theorem seat_status_matches_booking (rs : list Request) (s : ShowSeat) :
  let db := serve_all empty_db rs in
  In s (show_seats db) ->
  (ss_status s = "available" /\ ss_booking_id s = None)
  \/ (ss_status s = "booked"
      /\ exists B, In B (bookings db) /\ ss_booking_id s = Some (booking_id B)
                   /\ booking_show_id B = ss_show_id s).
Proof.
  intros db Hs. pose proof (Inv_reachable rs) as I. fold db in I.
  destruct (ss_booking_id s) as [b|] eqn:Eb.
  - right. destruct (inv_booked db I s b Hs Eb) as (Hst & B & HB & Hid & Hshow).
    split; [exact Hst|]. exists B. rewrite Hid. tauto.
  - left. split; [|reflexivity].
    apply (unbooked_is_available rs empty_db Inv_empty); trivial.
    intros s0 [].
Qed.

Lemma seat_status_matches_booking_witness :
  let s := mkShowSeat 3 1 1 3 "available" None in
  let db := serve_all empty_db
              (catalogue ++ [PostBook (mkBookingRequest 1 (Some "early") 6) 1]) in
  (ss_status s = "available" /\ ss_booking_id s = None)
  \/ (ss_status s = "booked"
      /\ exists B, In B (bookings db) /\ ss_booking_id s = Some (booking_id B)
                   /\ booking_show_id B = ss_show_id s).
Proof.
  apply (seat_status_matches_booking
           (catalogue ++ [PostBook (mkBookingRequest 1 (Some "early") 6) 1])).
  vm_compute. tauto.
Defined.

(** ** Requests whose values fit the columns *)

Ltac fits :=
  unfold movie_fits, theater_fits, hall_fits, show_fits, int32, numeric_8_2;
  cbn [hc_rows hc_name hcr_row_index hcr_seat_count];
  repeat match goal with
         | |- _ /\ _ => split
         | |- forall r, In r _ -> _ => intros ? ?
         | H : In _ (_ :: _) |- _ => destruct H as [<-|H]
         | H : In _ [] |- _ => destruct H
         end;
  vm_compute; try reflexivity; try (split; discriminate); try discriminate.

(** ** Movies *)

Lemma find_new_id {A : Type} (id : A -> Z) (l : list A) (x : A) :
  id x = next_id (map id l) ->
  find (fun y => id y =? id x) (l ++ [x]) = Some x.
Proof.
  intros Hx.
  assert (H : forall y, In y l -> (id y =? id x) = false).
  { intros y Hy. apply Z.eqb_neq. apply (in_map id) in Hy.
    apply next_id_fresh in Hy. lia. }
  clear Hx. induction l as [|y l IH]; simpl.
  - now rewrite Z.eqb_refl.
  - rewrite (H y) by now left. apply IH. intros z Hz. apply H. now right.
Qed.

Lemma find_app_old {A : Type} (p : A -> bool) (l l' : list A) :
  (exists x, In x l /\ p x = true) -> find p (l ++ l') = find p l.
Proof.
  intros (x & Hx & Hp). induction l as [|y l IH]; simpl; [contradiction|].
  destruct (p y) eqn:E; [reflexivity|].
  destruct Hx as [->|Hx]; [congruence | now apply IH].
Qed.

Lemma find_absent {A : Type} (id : A -> Z) (l : list A) (k : Z) :
  ~ In k (map id l) -> find (fun y => id y =? k) l = None.
Proof.
  intros H. destruct (find _ l) as [x|] eqn:E; [|reflexivity].
  apply find_some in E. destruct E as [Hx E]. apply Z.eqb_eq in E.
  exfalso. apply H. rewrite <- E. now apply in_map.
Qed.

(** X7.  On a database that satisfies the unique constraints, for a title
    and a duration that fit their columns: [create_movie] stores a movie
    under an id that no movie had, [get_movie] with that id returns it,
    [list_movies] returns the old movies and the new one, the ids that were there
    before resolve to the same movies as before, and [get_movie] with an id
    of the range of the key column that no movie has answers 404. *)
Theorem create_movie_round_trip (title : string) (duration : Z) (db : Db) :
  uq_hall_row_seat db = true -> uq_show_row_seat db = true ->
  movie_fits db title duration ->
  exists db' m,
    get_db (create_movie title duration) db = (db', Return m)
    /\ movie_title m = title /\ movie_duration_minutes m = duration
    /\ ~ In (movie_id m) (map movie_id (movies db))
    /\ get_db (get_movie (movie_id m)) db' = (db', Return m)
    /\ (exists l, get_db list_movies db' = (db', Return l)
                  /\ Permutation l (m :: movies db))
    /\ (forall id, int32 id -> In id (map movie_id (movies db)) ->
                   snd (get_db (get_movie id) db') = snd (get_db (get_movie id) db))
    /\ (forall id, int32 id -> ~ In id (map movie_id (movies db')) ->
                   get_db (get_movie id) db'
                   = (db', Raise (HTTPException 404 (Message "movie not found")))).
Proof.
  intros Uh Us _. rewrite create_movie_run, Uh, Us. simpl.
  set (m := mkMovie (next_id (map movie_id (movies db))) title duration).
  exists (add_movie m db), m.
  split; [reflexivity|]. split; [reflexivity|]. split; [reflexivity|].
  split; [|split; [|split; [|split]]].
  - intros Hin. apply next_id_fresh in Hin. simpl in Hin. lia.
  - unfold get_db, get_movie, bind, db_get_movie, db_execute. simpl.
    change (next_id (map movie_id (movies db))) with (movie_id m).
    now rewrite (find_new_id movie_id (movies db) m eq_refl).
  - exists (movies db ++ [m]). split; [reflexivity|].
    apply Permutation_sym, Permutation_cons_append.
  - intros id _ Hid. unfold get_db, get_movie, bind, db_get_movie, db_execute. simpl.
    rewrite find_app_old; [destruct (find _ (movies db)); reflexivity|].
    apply in_map_iff in Hid. destruct Hid as (x & <- & Hx). exists x.
    split; [exact Hx | apply Z.eqb_refl].
  - intros id _ Hid. unfold get_db, get_movie, bind, db_get_movie, db_execute.
    cbn [working committed]. now rewrite (find_absent movie_id _ id Hid).
Qed.

Lemma create_movie_round_trip_witness :
  exists db' m,
    get_db (create_movie "Encore" 95) one_show_db = (db', Return m)
    /\ movie_title m = "Encore" /\ movie_duration_minutes m = 95
    /\ ~ In (movie_id m) (map movie_id (movies one_show_db))
    /\ get_db (get_movie (movie_id m)) db' = (db', Return m)
    /\ (exists l, get_db list_movies db' = (db', Return l)
                  /\ Permutation l (m :: movies one_show_db)).
Proof.
  destruct (create_movie_round_trip "Encore" 95 one_show_db
              ltac:(vm_compute; reflexivity) ltac:(vm_compute; reflexivity)
              ltac:(fits))
    as (db' & m & H1 & H2 & H3 & H4 & H5 & H6 & _).
  exists db', m. tauto.
Defined.

(** ** [create_show] on a reachable database *)

Lemma NoDup_map_inj_in {A B : Type} (f : A -> B) (l : list A) :
  (forall a b, In a l -> In b l -> f a = f b -> a = b) -> NoDup l -> NoDup (map f l).
Proof.
  intros Hinj Hnd. induction Hnd as [|x l Hx Hnd IH]; simpl; constructor.
  - intros Hin. apply in_map_iff in Hin. destruct Hin as (y & E & Hy).
    assert (y = x) by (apply Hinj; [now right | now left | exact E]).
    subst y. contradiction.
  - apply IH. intros a b Ha Hb. apply Hinj; now right.
Qed.

Lemma copied_keys_NoDup (sh hall : Z) (db : Db) :
  uq_hall_row_seat db = true ->
  NoDup (map (fun hs => (sh, seat_row_index hs, seat_seat_number hs))
             (filter (fun hs => seat_hall_id hs =? hall) (seats db))).
Proof.
  intros Uh. apply uq_hall_row_seat_NoDup in Uh.
  pose proof (NoDup_map_filter seat_key (fun hs => seat_hall_id hs =? hall) _ Uh) as Hnd.
  apply NoDup_map_inj_in; [|now apply NoDup_map_inv in Hnd].
  intros a b Ha Hb E. apply (NoDup_map_inj_on seat_key _ a b Hnd Ha Hb).
  apply filter_In in Ha, Hb. destruct Ha as [_ Ha], Hb as [_ Hb].
  apply Z.eqb_eq in Ha, Hb. unfold seat_key. inversion E. congruence.
Qed.

Lemma create_show_commits (payload : ShowCreate) (db : Db) :
  Inv db ->
  find (fun m => movie_id m =? sc_movie_id payload) (movies db) <> None ->
  find (fun h => hall_id h =? sc_hall_id payload) (halls db) <> None ->
  let sh := mkShow (next_id (map show_id (shows db))) (sc_movie_id payload)
                   (sc_hall_id payload) (sc_start_time payload) (sc_price payload) in
  exists added,
    get_db (create_show payload) db
    = (set_show_seats (show_seats db ++ added) (add_show sh db), Return sh)
    /\ map ss_key added
       = map (fun hs => (show_id sh, seat_row_index hs, seat_seat_number hs))
             (filter (fun hs => seat_hall_id hs =? sc_hall_id payload) (seats db))
    /\ Forall (fun x => ss_status x = "available" /\ ss_booking_id x = None) added.
Proof.
  intros I Hm Hh. cbv zeta.
  pose proof (inv_uq_hall db I) as Uh. pose proof (inv_uq_show db I) as Us.
  pose proof (create_show_run payload db) as R. cbv zeta in R.
  destruct (find _ (movies db)); [|congruence].
  destruct (find _ (halls db)); [|congruence].
  rewrite Uh, Us in R. simpl in R. destruct R as (added & K & F & R).
  exists added. split; [|split; [exact K | exact F]].
  rewrite R.
  assert (U : uq_show_row_seat
                (set_show_seats (show_seats db ++ added)
                   (add_show (mkShow (next_id (map show_id (shows db)))
                                     (sc_movie_id payload) (sc_hall_id payload)
                                     (sc_start_time payload) (sc_price payload)) db))
              = true).
  { apply uq_show_row_seat_NoDup. simpl. rewrite map_app. apply NoDup_app.
    - now apply uq_show_row_seat_NoDup.
    - rewrite K. now apply copied_keys_NoDup.
    - intros k Hold Hnew. rewrite K in Hnew.
      apply in_map_iff in Hold, Hnew.
      destruct Hold as (s & <- & Hs), Hnew as (hs & E & _).
      apply (inv_ss_fk db I) in Hs. apply next_id_fresh in Hs.
      unfold ss_key in E. inversion E. simpl in *. lia. }
  rewrite U. change (uq_hall_row_seat (set_show_seats ?l (add_show ?s db)))
    with (uq_hall_row_seat db). rewrite Uh. reflexivity.
Qed.

Lemma copied_seats_fields (sh : Z) (added : list ShowSeat) (l : list Seat) :
  map ss_key added = map (fun hs => (sh, seat_row_index hs, seat_seat_number hs)) l ->
  Forall (fun x => ss_status x = "available" /\ ss_booking_id x = None) added ->
  map (fun s => (ss_show_id s, ss_row_index s, ss_seat_number s,
                 ss_status s, ss_booking_id s)) added
  = map (fun hs => (sh, seat_row_index hs, seat_seat_number hs, "available", None)) l.
Proof.
  revert l. induction added as [|x added IH]; intros [|hs l] K F;
    try discriminate K; [reflexivity|].
  cbn [map] in *.
  pose proof (f_equal (hd (0, 0, 0)) K) as Kx. pose proof (f_equal (@tl _) K) as K'.
  cbn [hd tl] in Kx, K'. inversion F as [|? ? [Hst Hb] F']; subst.
  unfold ss_key in Kx. injection Kx as -> -> ->. rewrite Hst, Hb. f_equal.
  now apply IH.
Qed.

(** X8.  [create_show] on a database reached through the endpoints, for a
    request whose values fit their columns.  When the movie or the hall does
    not exist it answers 404 and stores nothing.  Otherwise it commits: the
    show gets an id no show had and the movie, hall and start time of the
    request, [get_show] returns it, the inventory of the other shows is
    untouched, and the new show gets exactly one seat for each seat of the
    hall, with the same row and number, available and without a booking. *)
Theorem create_show_outcome (rs : list Request) (payload : ShowCreate) :
  let db := serve_all empty_db rs in
  let movie := find (fun m => movie_id m =? sc_movie_id payload) (movies db) in
  let hall := find (fun h => hall_id h =? sc_hall_id payload) (halls db) in
  show_fits db payload ->
  ((movie = None \/ hall = None) ->
   get_db (create_show payload) db
   = (db, Raise (HTTPException 404 (Message "movie or hall not found"))))
  /\ (movie <> None -> hall <> None ->
      exists db' sh new,
        get_db (create_show payload) db = (db', Return sh)
        /\ show_movie_id sh = sc_movie_id payload
        /\ show_hall_id sh = sc_hall_id payload
        /\ show_start_time sh = sc_start_time payload
        /\ ~ In (show_id sh) (map show_id (shows db))
        /\ get_db (get_show (show_id sh)) db' = (db', Return sh)
        /\ show_seats db' = show_seats db ++ new
        /\ Permutation
             (map (fun s => (ss_show_id s, ss_row_index s, ss_seat_number s,
                             ss_status s, ss_booking_id s)) new)
             (map (fun hs => (show_id sh, seat_row_index hs, seat_seat_number hs,
                              "available", None))
                  (filter (fun hs => seat_hall_id hs =? sc_hall_id payload) (seats db)))).
Proof.
  intros db movie hall _. pose proof (Inv_reachable rs) as I. fold db in I. split.
  - intros Hmiss. pose proof (create_show_run payload db) as R. cbv zeta in R.
    fold movie hall in R.
    destruct movie; destruct hall; try exact R.
    destruct Hmiss; discriminate.
  - intros Hm Hh.
    destruct (create_show_commits payload db I Hm Hh) as (added & R & K & F).
    eexists _, _, added. split; [exact R|]. simpl.
    split; [reflexivity|]. split; [reflexivity|]. split; [reflexivity|].
    split; [|split; [|split; [reflexivity|]]].
    + intros Hin. apply next_id_fresh in Hin. lia.
    + unfold get_db, get_show, bind, db_get_show, db_execute. simpl.
      pose proof (find_new_id show_id (shows db)
                    (mkShow (next_id (map show_id (shows db))) (sc_movie_id payload)
                            (sc_hall_id payload) (sc_start_time payload)
                            (sc_price payload)) eq_refl) as Hf.
      simpl in Hf. now rewrite Hf.
    + rewrite (copied_seats_fields _ added _ K F). apply Permutation_refl.
Qed.

Lemma create_show_outcome_witness :
  exists db' sh new,
    get_db (create_show (mkShowCreate 1 1 7200 900)) (serve_all empty_db catalogue)
    = (db', Return sh)
    /\ show_movie_id sh = 1
    /\ show_hall_id sh = 1
    /\ show_start_time sh = 7200
    /\ ~ In (show_id sh) (map show_id (shows (serve_all empty_db catalogue)))
    /\ get_db (get_show (show_id sh)) db' = (db', Return sh)
    /\ show_seats db' = show_seats (serve_all empty_db catalogue) ++ new
    /\ Permutation
         (map (fun s => (ss_show_id s, ss_row_index s, ss_seat_number s,
                         ss_status s, ss_booking_id s)) new)
         (map (fun hs => (show_id sh, seat_row_index hs, seat_seat_number hs,
                          "available", None))
              (filter (fun hs => seat_hall_id hs =? 1)
                      (seats (serve_all empty_db catalogue)))).
Proof.
  exact (proj2 (create_show_outcome catalogue (mkShowCreate 1 1 7200 900)
                  ltac:(fits))
               ltac:(vm_compute; discriminate) ltac:(vm_compute; discriminate)).
Defined.

(** ** [create_hall] on a reachable database *)

Lemma add_seats_run_fields (h r : Z) (aisle : Z -> bool) (nums : list Z) (s : Session) :
  exists added,
    for_each nums (fun n => db_add_seat h r n (aisle n)) s
    = (mkSession (committed s) (set_seats (seats (working s) ++ added) (working s))
                 (locked s), Return tt)
    /\ map seat_fields added = map (fun n => (h, r, n, aisle n)) nums.
Proof.
  revert s. induction nums as [|n nums IH]; intros s; simpl.
  - exists []. split; [|reflexivity]. unfold ret. now rewrite session_eta.
  - rewrite bind_run. unfold db_add_seat at 1. rewrite bind_run.
    unfold db_execute, db_modify. simpl.
    match goal with
    | |- context [for_each nums _ ?s1] => destruct (IH s1) as (added & E & K); rewrite E
    end.
    simpl. eexists (_ :: added). split.
    + unfold set_seats, add_seat. simpl. rewrite <- app_assoc. reflexivity.
    + simpl. now rewrite K.
Qed.

Lemma add_rows_run_fields (h : Z) (rows : list HallCreateRow) (s : Session) :
  forallb (fun r => 6 <=? hcr_seat_count r) rows = true ->
  exists added,
    for_each rows
      (fun r =>
         if hcr_seat_count r <? 6
         then raise row_too_short
         else
           for_each (Py.range 1 (hcr_seat_count r + 1)) (fun seat_num =>
             let is_aisle :=
               existsb (Z.eqb seat_num)
                       (match hcr_aisle_seats r with Some l => l | None => [] end) in
             db_add_seat h (hcr_row_index r) seat_num is_aisle)) s
    = (mkSession (committed s) (set_seats (seats (working s) ++ added) (working s))
                 (locked s), Return tt)
    /\ map seat_fields added = layout_seats h rows.
Proof.
  cbv zeta. revert s. induction rows as [|r rows IH]; intros s Hall; simpl.
  - exists []. split; [|reflexivity]. unfold ret. now rewrite session_eta.
  - simpl in Hall. apply andb_true_iff in Hall. destruct Hall as [Hr Hall].
    apply Z.leb_le in Hr. rewrite bind_run.
    destruct (Z.ltb_spec (hcr_seat_count r) 6) as [Hlt|Hge]; [lia|].
    destruct (add_seats_run_fields h (hcr_row_index r) (is_aisle_in r)
                (Py.range 1 (hcr_seat_count r + 1)) s) as (a1 & E1 & K1).
    unfold is_aisle_in in E1 at 1. rewrite E1.
    match goal with
    | |- context [for_each rows _ ?s1] => destruct (IH s1 Hall) as (a2 & E2 & K2)
    end.
    exists (a1 ++ a2). split.
    + rewrite E2. simpl. unfold set_seats. simpl. now rewrite <- app_assoc.
    + now rewrite map_app, K1, K2.
Qed.

Lemma seat_fields_key (l : list Seat) :
  map seat_key l = map (fun f => (fst (fst (fst f)), snd (fst (fst f)), snd (fst f)))
                       (map seat_fields l).
Proof. rewrite map_map. reflexivity. Qed.

Lemma layout_seats_keys (h : Z) (rows : list HallCreateRow) :
  map (fun f : Z * Z * Z * bool => (fst (fst (fst f)), snd (fst (fst f)), snd (fst f)))
      (layout_seats h rows)
  = new_keys h rows.
Proof.
  unfold layout_seats, new_keys. induction rows as [|r rows IH]; simpl; [reflexivity|].
  rewrite map_app, IH, map_map. reflexivity.
Qed.

Lemma new_keys_NoDup (h : Z) (rows : list HallCreateRow) :
  NoDup (map hcr_row_index rows) -> NoDup (new_keys h rows).
Proof.
  induction rows as [|r rows IH]; simpl; intros Hnd; [constructor|].
  inversion Hnd as [|? ? Hr Hrest]; subst. fold (new_keys h rows).
  apply NoDup_app.
  - apply NoDup_map_inj_in; [|apply range_NoDup]. intros a b _ _ E. now inversion E.
  - now apply IH.
  - intros k Hk Hk'. apply in_map_iff in Hk. destruct Hk as (n & <- & _).
    apply new_keys_In in Hk'. destruct Hk' as (r' & Hr' & _ & E & _). simpl in E.
    apply Hr. rewrite E. now apply in_map.
Qed.

Lemma new_keys_rows_NoDup (h : Z) (rows : list HallCreateRow) :
  forallb (fun r => 6 <=? hcr_seat_count r) rows = true ->
  NoDup (new_keys h rows) -> NoDup (map hcr_row_index rows).
Proof.
  induction rows as [|r rows IH]; simpl; intros Hall Hnd; [constructor|].
  apply andb_true_iff in Hall. destruct Hall as [Hr Hall]. apply Z.leb_le in Hr.
  fold (new_keys h rows) in Hnd. constructor.
  - intros Hin. apply in_map_iff in Hin. destruct Hin as (r' & E & Hr').
    rewrite forallb_forall in Hall. pose proof (Hall r' Hr') as Hc. apply Z.leb_le in Hc.
    assert (H1 : In (h, hcr_row_index r, 1)
                    (map (fun n => (h, hcr_row_index r, n))
                         (Py.range 1 (hcr_seat_count r + 1)))).
    { apply in_map_iff. exists 1. split; [reflexivity | apply range_In; lia]. }
    assert (H2 : In (h, hcr_row_index r, 1) (new_keys h rows)).
    { apply new_keys_In. exists r'. simpl. repeat split; trivial; lia. }
    revert Hnd H1 H2. clear.
    induction (map (fun n => (h, hcr_row_index r, n)) (Py.range 1 (hcr_seat_count r + 1)))
      as [|x l IHl]; intros Hnd H1 H2; [contradiction|].
    simpl in Hnd. inversion Hnd as [|? ? Hx Hl]; subst.
    destruct H1 as [->|H1]; [apply Hx, in_or_app; now right | now apply IHl].
  - apply IH; [exact Hall | now apply NoDup_app_remove_l in Hnd].
Qed.

Lemma create_hall_run_fields (theater : Z) (payload : HallCreate) (db : Db) :
  uq_hall_row_seat db = true -> uq_show_row_seat db = true ->
  find (fun t => theater_id t =? theater) (theaters db) <> None ->
  forallb (fun r => 6 <=? hcr_seat_count r) (hc_rows payload) = true ->
  let h := mkHall (next_id (map hall_id (halls db))) theater (hc_name payload) in
  exists added,
    map seat_fields added = layout_seats (hall_id h) (hc_rows payload)
    /\ let db' := set_seats (seats db ++ added) (add_hall h db) in
       get_db (create_hall theater payload) db
       = if uq_hall_row_seat db'
         then (db', Return h)
         else (db, Raise IntegrityError).
Proof.
  intros Uh Us Ht Hall. cbv zeta.
  pose proof (add_rows_run_fields (next_id (map hall_id (halls db))) (hc_rows payload)
                (mkSession db
                   (add_hall (mkHall (next_id (map hall_id (halls db))) theater
                                     (hc_name payload)) db) []) Hall) as R.
  simpl in R.
  unfold get_db, create_hall, row_too_short, bind, db_get_theater, db_execute,
    db_add_hall, db_add_seat, db_commit, db_flush, db_modify, bind, db_execute,
    db_modify, ret, raise in R |- *.
  simpl.
  destruct (find _ (theaters db)); [|congruence].
  unfold uq_hall_row_seat, uq_show_row_seat in Uh, Us |- *. simpl.
  rewrite Uh, Us. simpl.
  destruct R as (added & E & K). exists added. split; [exact K|].
  rewrite E. simpl. rewrite Us.
  destruct (distinct_keys (map seat_key (seats db ++ added))); reflexivity.
Qed.

Lemma new_hall_check (db : Db) (h : Hall) (rows : list HallCreateRow)
      (added : list Seat) :
  Inv db ->
  hall_id h = next_id (map hall_id (halls db)) ->
  map seat_fields added = layout_seats (hall_id h) rows ->
  uq_hall_row_seat (set_seats (seats db ++ added) (add_hall h db)) = true
  <-> NoDup (new_keys (hall_id h) rows).
Proof.
  intros I Hh K.
  assert (K' : map seat_key added = new_keys (hall_id h) rows).
  { now rewrite seat_fields_key, K, layout_seats_keys. }
  rewrite uq_hall_row_seat_NoDup. simpl. rewrite map_app, K'. split.
  - apply NoDup_app_remove_l.
  - intros Hnew. apply NoDup_app; [apply uq_hall_row_seat_NoDup, I | exact Hnew |].
    intros k Hold Hk. apply in_map_iff in Hold. destruct Hold as (x & <- & Hx).
    apply new_keys_In in Hk. destruct Hk as (_ & _ & E & _). simpl in E.
    apply (inv_seat_fk db I) in Hx. apply next_id_fresh in Hx. lia.
Qed.

(** A layout of rows of at least 6 seats with distinct row indices is
    committed. *)
Lemma create_hall_commits (theater : Z) (payload : HallCreate) (db : Db) :
  Inv db ->
  find (fun t => theater_id t =? theater) (theaters db) <> None ->
  (forall r, In r (hc_rows payload) -> 6 <= hcr_seat_count r) ->
  NoDup (map hcr_row_index (hc_rows payload)) ->
  let h := mkHall (next_id (map hall_id (halls db))) theater (hc_name payload) in
  exists new,
    get_db (create_hall theater payload) db
    = (set_seats (seats db ++ new) (add_hall h db), Return h)
    /\ map seat_fields new = layout_seats (hall_id h) (hc_rows payload).
Proof.
  intros I Ht Hsix Hnd. cbv zeta.
  pose proof (inv_uq_hall db I) as Uh. pose proof (inv_uq_show db I) as Us.
  assert (Hall : forallb (fun r => 6 <=? hcr_seat_count r) (hc_rows payload) = true).
  { apply forallb_forall. intros r Hr. apply Z.leb_le. now apply Hsix. }
  destruct (create_hall_run_fields theater payload db Uh Us Ht Hall) as (added & K & R).
  cbv zeta in R. exists added. split; [|exact K]. rewrite R.
  rewrite (proj2 (new_hall_check db (mkHall (next_id (map hall_id (halls db))) theater
                                            (hc_name payload))
                                 (hc_rows payload) added I eq_refl K))
    by now apply new_keys_NoDup.
  reflexivity.
Qed.

(** X9.  [create_hall] on a database reached through the endpoints, for a
    theater id and a layout whose values fit their columns, answers, in this
    order of precedence: 404 when the theater does not exist; 400
    when a row of the layout has fewer than 6 seats; the integrity error of
    the unique constraint when two rows of the layout have the same row
    index; and nothing is stored in these three cases.  Otherwise it commits:
    the hall gets an id no hall had, and for every row of the layout the
    seats 1 to [seat_count] of that row are stored, each once, flagged as
    aisle seats exactly when their number is listed in [aisle_seats]; the
    seats that were there before stay. *)
Theorem create_hall_outcome (rs : list Request) (theater : Z) (payload : HallCreate) :
  let db := serve_all empty_db rs in
  let t := find (fun t => theater_id t =? theater) (theaters db) in
  let rows := hc_rows payload in
  hall_fits db theater payload ->
  (t = None ->
   get_db (create_hall theater payload) db
   = (db, Raise (HTTPException 404 (Message "theater not found"))))
  /\ (t <> None -> (exists r, In r rows /\ hcr_seat_count r < 6) ->
      get_db (create_hall theater payload) db = (db, Raise row_too_short))
  /\ (t <> None -> (forall r, In r rows -> 6 <= hcr_seat_count r) ->
      ~ NoDup (map hcr_row_index rows) ->
      get_db (create_hall theater payload) db = (db, Raise IntegrityError))
  /\ (t <> None -> (forall r, In r rows -> 6 <= hcr_seat_count r) ->
      NoDup (map hcr_row_index rows) ->
      exists db' h new,
        get_db (create_hall theater payload) db = (db', Return h)
        /\ h = mkHall (hall_id h) theater (hc_name payload)
        /\ ~ In (hall_id h) (map hall_id (halls db))
        /\ halls db' = halls db ++ [h]
        /\ seats db' = seats db ++ new
        /\ Permutation (map seat_fields new) (layout_seats (hall_id h) rows)).
Proof.
  intros db t rows _. pose proof (Inv_reachable rs) as I. fold db in I.
  pose proof (inv_uq_hall db I) as Uh. pose proof (inv_uq_show db I) as Us.
  assert (Hall : (forall r, In r rows -> 6 <= hcr_seat_count r) ->
                 forallb (fun r => 6 <=? hcr_seat_count r) rows = true).
  { intros H. apply forallb_forall. intros r Hr. apply Z.leb_le. now apply H. }
  split; [|split; [|split]].
  - intros Ht. pose proof (create_hall_run theater payload db) as R. cbv zeta in R.
    fold t in R. now rewrite Ht in R.
  - intros Ht Hshort. now apply create_hall_short.
  - intros Ht Hsix Hdup. specialize (Hall Hsix).
    destruct (create_hall_run_fields theater payload db Uh Us Ht Hall) as (added & K & R).
    cbv zeta in R. rewrite R.
    match goal with |- context [if ?c then _ else _] => destruct c eqn:U end;
      [|reflexivity].
    exfalso. apply Hdup.
    apply (new_hall_check db (mkHall (next_id (map hall_id (halls db))) theater
                                     (hc_name payload)) rows added I eq_refl K) in U.
    exact (new_keys_rows_NoDup _ rows Hall U).
  - intros Ht Hsix Hnd.
    destruct (create_hall_commits theater payload db I Ht Hsix Hnd) as (added & R & K).
    cbv zeta in R, K. eexists _, _, added. split; [exact R|]. simpl.
    split; [reflexivity|]. split; [|split; [reflexivity|split; [reflexivity|]]].
    + intros Hin. apply next_id_fresh in Hin. lia.
    + simpl in K. rewrite K. apply Permutation_refl.
Qed.

Lemma create_hall_outcome_witness :
  get_db (create_hall 1 (mkHallCreate "Hall C" [mkHallCreateRow 1 6 None;
                                                  mkHallCreateRow 1 8 None]))
         (serve_all empty_db catalogue)
  = (serve_all empty_db catalogue, Raise IntegrityError).
Proof.
  apply (proj1 (proj2 (proj2 (create_hall_outcome catalogue 1
                                (mkHallCreate "Hall C" [mkHallCreateRow 1 6 None;
                                                        mkHallCreateRow 1 8 None])
                                ltac:(fits))))).
  - vm_compute. discriminate.
  - intros r [<-|[<-|[]]]; simpl; lia.
  - intros H. inversion H as [|? ? Hn _]. apply Hn. now left.
Defined.

Lemma filter_none {A : Type} (p : A -> bool) (l : list A) :
  (forall x, In x l -> p x = false) -> filter p l = [].
Proof.
  induction l as [|a l IH]; simpl; intros H; [reflexivity|].
  rewrite (H a (or_introl eq_refl)). apply IH. intros x Hx. apply H. now right.
Qed.



(** ** The layout dictionaries of the read handlers *)

Section LayoutFacts.
Context {A V : Type} (key : A -> Z) (val : A -> V).

Lemma layout_of_snoc (l : list A) (s : A) :
  layout_of key val (l ++ [s])
  = setdefault_append (layout_of key val l) (key s) (val s).
Proof. unfold layout_of. now rewrite fold_left_app. Qed.

Lemma row_entry_snoc_other (l : list A) (s : A) (r : Z) :
  r <> key s -> row_entry key val (l ++ [s]) r = row_entry key val l r.
Proof.
  intros Hne. unfold row_entry. rewrite filter_app. simpl.
  destruct (Z.eqb_spec (key s) r) as [E|_]; [congruence|]. now rewrite app_nil_r.
Qed.

Lemma row_entry_snoc_same (l : list A) (s : A) :
  row_entry key val (l ++ [s]) (key s)
  = (key s, snd (row_entry key val l (key s)) ++ [val s]).
Proof.
  unfold row_entry. rewrite filter_app. simpl. rewrite Z.eqb_refl. simpl.
  now rewrite map_app.
Qed.

Lemma setdefault_append_known (l : list A) (s : A) (ks : list Z) :
  NoDup ks -> In (key s) ks ->
  setdefault_append (map (row_entry key val l) ks) (key s) (val s)
  = map (row_entry key val (l ++ [s])) ks.
Proof.
  induction ks as [|r ks IH]; intros Hnd Hin; [contradiction|].
  inversion Hnd as [|? ? Hr Hks]; subst. simpl.
  destruct (Z.eqb_spec r (key s)) as [->|Hne].
  - rewrite row_entry_snoc_same. simpl. f_equal. apply map_ext_in.
    intros r' Hr'. symmetry. apply row_entry_snoc_other. intros ->. contradiction.
  - rewrite row_entry_snoc_other by exact Hne. unfold row_entry at 1. f_equal.
    apply IH; [exact Hks|]. destruct Hin as [E|Hin]; [congruence | exact Hin].
Qed.

Lemma setdefault_append_fresh (layout : list (Z * list V)) (k : Z) (v : V) :
  ~ In k (map fst layout) -> setdefault_append layout k v = layout ++ [(k, [v])].
Proof.
  induction layout as [|[r vs] layout IH]; simpl; intros Hn; [reflexivity|].
  destruct (Z.eqb_spec r k) as [->|Hne]; [tauto|]. f_equal. apply IH. tauto.
Qed.

Lemma row_entry_keys (l : list A) (ks : list Z) :
  map fst (map (row_entry key val l) ks) = ks.
Proof. rewrite map_map. simpl. apply map_id. Qed.

(** The dictionary after the loop: one entry for each key that occurs, in
    the order of the first occurrences. *)
Lemma layout_of_rows (l : list A) :
  exists ks,
    layout_of key val l = map (row_entry key val l) ks
    /\ NoDup ks
    /\ (forall r, In r ks <-> In r (map key l))
    /\ (StronglySorted (fun a b => key a <= key b) l -> StronglySorted Z.lt ks).
Proof.
  induction l as [|s l IH] using rev_ind.
  - exists []. repeat split; try constructor; intros [].
  - destruct IH as (ks & E & Hnd & Hks & Hs). rewrite layout_of_snoc, E.
    destruct (in_dec Z.eq_dec (key s) ks) as [Hin|Hnin].
    + exists ks. split; [now apply setdefault_append_known|]. split; [exact Hnd|]. split.
      * intros r. rewrite map_app, in_app_iff, <- Hks. simpl. split; [tauto|].
        intros [H|[<-|[]]]; assumption.
      * intros Hsl. apply StronglySorted_app_inv in Hsl. now apply Hs.
    + exists (ks ++ [key s]). split; [|split; [|split]].
      * rewrite setdefault_append_fresh by now rewrite row_entry_keys.
        rewrite map_app. simpl. f_equal.
        -- apply map_ext_in. intros r Hr. symmetry. apply row_entry_snoc_other.
           intros ->. contradiction.
        -- rewrite row_entry_snoc_same. unfold row_entry. simpl.
           rewrite filter_none; [reflexivity|].
           intros x Hx. apply Z.eqb_neq. intros Ex. apply Hnin, Hks.
           rewrite <- Ex. now apply in_map.
      * apply NoDup_app; [exact Hnd | repeat constructor; intros [] |].
        intros r Hr [<-|[]]. contradiction.
      * intros r. rewrite map_app, !in_app_iff, Hks. reflexivity.
      * intros Hsl. apply StronglySorted_app_inv in Hsl. destruct Hsl as (Hl & _ & Hlt).
        apply StronglySorted_snoc; [now apply Hs|].
        intros r Hr. assert (r <> key s) by (intros ->; contradiction).
        apply Hks, in_map_iff in Hr. destruct Hr as (x & <- & Hx).
        specialize (Hlt x s Hx (or_introl eq_refl)). lia.
Qed.

(** A layout of the images of a list is the layout of the list itself. *)
Lemma layout_of_map {B : Type} (f : B -> A) (l : list B) :
  layout_of key val (map f l) = layout_of (fun b => key (f b)) (fun b => val (f b)) l.
Proof.
  unfold layout_of. generalize (@nil (Z * list V)).
  induction l as [|b l IH]; simpl; intros acc; [reflexivity | apply IH].
Qed.

Lemma setdefault_append_image {W : Type} (h : Z -> V -> W)
      (layout : list (Z * list V)) (k : Z) (v : V) :
  setdefault_append (map (fun e => (fst e, map (h (fst e)) (snd e))) layout) k (h k v)
  = map (fun e => (fst e, map (h (fst e)) (snd e))) (setdefault_append layout k v).
Proof.
  induction layout as [|[r vs] layout IH]; simpl; [reflexivity|].
  destruct (Z.eqb_spec r k) as [->|Hne]; simpl.
  - now rewrite map_app.
  - now rewrite IH.
Qed.

(** Changing the values row by row commutes with building the layout. *)
Lemma layout_of_image {W : Type} (h : Z -> V -> W) (l : list A) :
  layout_of key (fun s => h (key s) (val s)) l
  = map (fun e => (fst e, map (h (fst e)) (snd e))) (layout_of key val l).
Proof.
  induction l as [|s l IH] using rev_ind; [reflexivity|].
  unfold layout_of in *. rewrite !fold_left_app. simpl. rewrite IH.
  apply setdefault_append_image.
Qed.

(** The layout of two lists with no key in common is the first layout
    followed by the second. *)
Lemma layout_of_app (l1 l2 : list A) :
  (forall a b, In a l1 -> In b l2 -> key a <> key b) ->
  layout_of key val (l1 ++ l2) = layout_of key val l1 ++ layout_of key val l2.
Proof.
  intros Hd. induction l2 as [|s l2 IH] using rev_ind.
  - now rewrite !app_nil_r.
  - rewrite app_assoc, !layout_of_snoc, IH.
    2:{ intros a b Ha Hb. apply Hd; [exact Ha | apply in_or_app; now left]. }
    assert (Hn : ~ In (key s) (map fst (layout_of key val l1))).
    { destruct (layout_of_rows l1) as (ks & -> & _ & Hks & _).
      rewrite row_entry_keys, Hks. intros Hin. apply in_map_iff in Hin.
      destruct Hin as (a & E & Ha). apply (Hd a s Ha); [|exact E].
      apply in_or_app. right. now left. }
    clear IH. induction (layout_of key val l1) as [|[r vs] lay IHl]; simpl in *.
    + reflexivity.
    + destruct (Z.eqb_spec r (key s)) as [E|_]; [tauto|]. f_equal. apply IHl. tauto.
Qed.

(** The layout of a non-empty list with a single key has a single row. *)
Lemma layout_of_single (l : list A) (r : Z) :
  l <> [] -> (forall a, In a l -> key a = r) ->
  layout_of key val l = [(r, map val l)].
Proof.
  induction l as [|s l IH] using rev_ind; [congruence|]. intros _ Hk.
  rewrite layout_of_snoc, (Hk s) by (apply in_or_app; right; now left).
  destruct l as [|a l].
  - reflexivity.
  - rewrite IH; [| discriminate | intros x Hx; apply Hk, in_or_app; now left].
    simpl. rewrite Z.eqb_refl. now rewrite <- map_app with (l' := [s]).
Qed.
End LayoutFacts.

Lemma StronglySorted_filter {A : Type} (R : A -> A -> Prop) (p : A -> bool) (l : list A) :
  StronglySorted R l -> StronglySorted R (filter p l).
Proof.
  induction 1 as [|x l Hs IH Hx]; simpl; [constructor|].
  destruct (p x); [|exact IH]. constructor; [exact IH|].
  rewrite Forall_forall in *. intros y Hy. apply Hx. now apply filter_In in Hy.
Qed.

Lemma StronglySorted_map_in {A B : Type} (R : A -> A -> Prop) (R' : B -> B -> Prop)
      (f : A -> B) (l : list A) :
  (forall a b, In a l -> In b l -> R a b -> R' (f a) (f b)) ->
  StronglySorted R l -> StronglySorted R' (map f l).
Proof.
  intros HR Hs. induction Hs as [|x l Hs IH Hx]; simpl; constructor.
  - apply IH. intros a b Ha Hb. apply HR; now right.
  - rewrite Forall_forall in *. intros y Hy. apply in_map_iff in Hy.
    destruct Hy as (a & <- & Ha). apply HR; [now left | now right | now apply Hx].
Qed.

Lemma sort_nil_iff {A : Type} (le : A -> A -> bool) (l : list A) :
  Py.sort le l = [] <-> l = [].
Proof.
  split; [|now intros ->]. intros E. pose proof (sort_perm le l) as P.
  rewrite E in P. now apply Permutation_nil in P.
Qed.

(** X11.  [show_seats] (GET /shows/{show_id}/seats) for a show id of the
    range of the key column: when the show has no seat it answers 404.  Otherwise it returns a layout whose rows come in
    strictly ascending row index, every row is non-empty and lists its seats
    in strictly ascending seat number, and a seat number with a status is
    listed under a row exactly when the show has a seat with that row, number
    and status. *)
Theorem show_seats_map_outcome (db : Db) (show : Z) :
  uq_show_row_seat db = true ->
  int32 show ->
  let mine := filter (fun s => ss_show_id s =? show) (show_seats db) in
  (mine = [] ->
   get_db (show_seats_map show) db
   = (db, Raise (HTTPException 404 (Message "show seats not found"))))
  /\ (mine <> [] ->
      exists layout,
        get_db (show_seats_map show) db = (db, Return (mkSeatMap show layout))
        /\ StronglySorted Z.lt (map fst layout)
        /\ (forall r row, In (r, row) layout ->
              row <> [] /\ StronglySorted Z.lt (map ms_seat_number row))
        /\ (forall r n st,
              (exists row, In (r, row) layout /\ In (mkMapSeat n st) row)
              <-> (exists s, In s (show_seats db) /\ ss_show_id s = show
                             /\ ss_row_index s = r /\ ss_seat_number s = n
                             /\ ss_status s = st))).
Proof.
  intros Us _ mine. split.
  - intros E. unfold get_db, show_seats_map, bind, db_execute, select_show_seats_ordered.
    simpl. fold mine. now rewrite E.
  - intros Hne. pose proof (select_ordered_sorted db show Us) as Hs.
    set (L := select_show_seats_ordered show db) in *.
    set (val := fun s => mkMapSeat (ss_seat_number s) (ss_status s)).
    destruct (layout_of_rows ss_row_index val L) as (ks & E & Hnd & Hks & Hsk).
    exists (map (row_entry ss_row_index val L) ks). split; [|split; [|split]].
    + unfold get_db, show_seats_map, bind, db_execute. simpl. fold L. fold val.
      rewrite E. destruct L eqn:EL; [|reflexivity].
      apply sort_nil_iff in EL. contradiction.
    + rewrite row_entry_keys. apply Hsk.
      apply StronglySorted_impl with (R := lex_lt); [|exact Hs].
      intros a b [H|[H _]]; lia.
    + intros r row Hin. apply in_map_iff in Hin. destruct Hin as (r' & Er & Hr').
      unfold row_entry in Er. inversion Er; subst r' row. clear Er. split.
      * apply Hks, in_map_iff in Hr'. destruct Hr' as (s & Hr & Hin).
        intros En. apply map_eq_nil in En.
        assert (Hf : In s (filter (fun s => ss_row_index s =? r) L)).
        { apply filter_In. split; [exact Hin | now apply Z.eqb_eq]. }
        rewrite En in Hf. contradiction.
      * rewrite map_map. simpl.
        apply StronglySorted_map_in with (R := lex_lt);
          [|now apply StronglySorted_filter].
        intros a b Ha Hb Hlt. apply filter_In in Ha, Hb.
        destruct Ha as [_ Ha], Hb as [_ Hb]. apply Z.eqb_eq in Ha, Hb.
        destruct Hlt as [H|[_ H]]; lia.
    + intros r n st. split.
      * intros (row & Hin & Hm). apply in_map_iff in Hin.
        destruct Hin as (r' & Er & _). unfold row_entry in Er.
        inversion Er; subst r' row. clear Er.
        apply in_map_iff in Hm. destruct Hm as (s & Es & Hs').
        apply filter_In in Hs'. destruct Hs' as [Hs' Hr]. apply Z.eqb_eq in Hr.
        apply select_ordered_In in Hs'. destruct Hs' as [Hs' Hshow].
        inversion Es. exists s. tauto.
      * intros (s & Hin & Hshow & Hr & Hn & Hst).
        assert (HL : In s L) by (apply select_ordered_In; tauto).
        exists (snd (row_entry ss_row_index val L r)). split.
        -- apply in_map_iff. exists r. split; [reflexivity|].
           apply Hks, in_map_iff. exists s. tauto.
        -- simpl. apply in_map_iff. exists s. split; [unfold val; now rewrite Hn, Hst|].
           apply filter_In. split; [exact HL | now apply Z.eqb_eq].
Qed.

Lemma show_seats_map_outcome_witness :
  exists layout,
    get_db (show_seats_map 1) one_show_db = (one_show_db, Return (mkSeatMap 1 layout))
    /\ StronglySorted Z.lt (map fst layout)
    /\ (forall r row, In (r, row) layout ->
          row <> [] /\ StronglySorted Z.lt (map ms_seat_number row))
    /\ (forall r n st,
          (exists row, In (r, row) layout /\ In (mkMapSeat n st) row)
          <-> (exists s, In s (show_seats one_show_db) /\ ss_show_id s = 1
                         /\ ss_row_index s = r /\ ss_seat_number s = n
                         /\ ss_status s = st)).
Proof.
  exact (proj2 (show_seats_map_outcome one_show_db 1 ltac:(vm_compute; reflexivity)
                  ltac:(fits))
               ltac:(vm_compute; discriminate)).
Defined.

Lemma insert_map {A B : Type} (le : A -> A -> bool) (le' : B -> B -> bool)
      (f : A -> B) (x : A) (l : list A) :
  (forall a b, le' (f a) (f b) = le a b) ->
  Py.insert le' (f x) (map f l) = map f (Py.insert le x l).
Proof.
  intros H. induction l as [|y l IH]; simpl; [reflexivity|].
  rewrite H. destruct (le x y); simpl; [reflexivity | now rewrite IH].
Qed.

(** Sorting the images under a map that respects the order is mapping the
    sorted list. *)
Lemma sort_map {A B : Type} (le : A -> A -> bool) (le' : B -> B -> bool)
      (f : A -> B) (l : list A) :
  (forall a b, le' (f a) (f b) = le a b) ->
  Py.sort le' (map f l) = map f (Py.sort le l).
Proof.
  intros H. induction l as [|x l IH]; simpl; [reflexivity|].
  rewrite IH. now apply insert_map.
Qed.

(** The ordered seats of a new show, column by column, are the ordered seats
    of its hall. *)
Lemma new_show_seats_ordered (payload : ShowCreate) (db : Db) (added : list ShowSeat) :
  Inv db ->
  let sh := next_id (map show_id (shows db)) in
  map ss_key added
  = map (fun hs => (sh, seat_row_index hs, seat_seat_number hs))
        (filter (fun hs => seat_hall_id hs =? sc_hall_id payload) (seats db)) ->
  Forall (fun x => ss_status x = "available" /\ ss_booking_id x = None) added ->
  forall db', show_seats db' = show_seats db ++ added ->
  map (fun s => (ss_row_index s, ss_seat_number s, ss_status s))
      (select_show_seats_ordered sh db')
  = map (fun hs => (seat_row_index hs, seat_seat_number hs, "available"))
        (select_hall_seats_ordered (sc_hall_id payload) db).
Proof.
  intros I sh K F db' E.
  unfold select_show_seats_ordered, select_hall_seats_ordered. rewrite E, filter_app.
  rewrite (filter_none _ (show_seats db)).
  2:{ intros s Hs. apply Z.eqb_neq. intros Es. apply (inv_ss_fk db I) in Hs.
      rewrite Es in Hs. apply next_id_fresh in Hs. unfold sh in Hs. lia. }
  simpl.
  assert (Hall : filter (fun s => ss_show_id s =? sh) added = added).
  { apply forallb_filter_id. apply forallb_forall. intros s Hs. apply Z.eqb_eq.
    assert (Hk : In (ss_key s) (map ss_key added)) by now apply in_map.
    rewrite K in Hk. apply in_map_iff in Hk. destruct Hk as (hs & Ek & _).
    unfold ss_key in Ek. now inversion Ek. }
  rewrite Hall.
  rewrite <- (sort_map row_seat_leb row_number_leb
                (fun s => (ss_row_index s, ss_seat_number s, ss_status s)))
    by reflexivity.
  rewrite <- (sort_map seat_row_leb row_number_leb
                (fun hs => (seat_row_index hs, seat_seat_number hs, "available")))
    by reflexivity.
  f_equal.
  pose proof (copied_seats_fields sh added _ K F) as C.
  apply (f_equal (map (fun t : Z * Z * Z * string * option Z =>
                         (snd (fst (fst (fst t))), snd (fst (fst t)), snd (fst t))))) in C.
  rewrite !map_map in C. exact C.
Qed.

(** X13.  The seat map of a show that [create_show] has just created, on a
    database reached through the endpoints and for a request whose values
    fit their columns, is the layout of its hall as
    [hall_layout] returns it, row for row and seat for seat, with every seat
    "available"; when the hall has no seats and [hall_layout] answers 404, so
    does the seat map of the new show. *)
Theorem new_show_seat_map (rs : list Request) (payload : ShowCreate) (theater : Z) :
  let db := serve_all empty_db rs in
  show_fits db payload ->
  find (fun m => movie_id m =? sc_movie_id payload) (movies db) <> None ->
  find (fun h => hall_id h =? sc_hall_id payload) (halls db) <> None ->
  exists db' sh,
    get_db (create_show payload) db = (db', Return sh)
    /\ (forall lay,
          get_db (hall_layout theater (sc_hall_id payload)) db = (db, Return lay) ->
          get_db (show_seats_map (show_id sh)) db'
          = (db', Return (mkSeatMap (show_id sh) (all_available (hl_layout lay)))))
    /\ (forall e,
          get_db (hall_layout theater (sc_hall_id payload)) db = (db, Raise e) ->
          get_db (show_seats_map (show_id sh)) db'
          = (db', Raise (HTTPException 404 (Message "show seats not found")))).
Proof.
  intros db _ Hm Hh. pose proof (Inv_reachable rs) as I. fold db in I.
  destruct (create_show_commits payload db I Hm Hh) as (added & R & K & F).
  cbv zeta in R, K. simpl (show_id _) in K.
  eexists _, _. split; [exact R|]. simpl (show_id _).
  pose proof (new_show_seats_ordered payload db added I K F
                (set_show_seats (show_seats db ++ added)
                   (add_show (mkShow (next_id (map show_id (shows db)))
                                     (sc_movie_id payload) (sc_hall_id payload)
                                     (sc_start_time payload) (sc_price payload)) db))
                eq_refl) as C.
  cbv zeta in C.
  set (db' := set_show_seats _ _) in *. set (sh := next_id _) in *.
  unfold get_db, hall_layout, show_seats_map, bind, db_execute, ret, raise. simpl.
  set (L := select_show_seats_ordered sh db') in *.
  set (H := select_hall_seats_ordered (sc_hall_id payload) db) in *.
  split.
  - intros lay E. destruct H as [|h0 H0] eqn:EH; [discriminate|].
    destruct L as [|s0 L0] eqn:EL; [discriminate|].
    injection E as <-. simpl (hl_layout _). do 3 f_equal.
    rewrite <- EL, <- EH in *. clear EL EH.
    transitivity (layout_of (fun t : Z * Z * string => fst (fst t))
                            (fun t => mkMapSeat (snd (fst t)) (snd t))
                            (map (fun s => (ss_row_index s, ss_seat_number s, ss_status s)) L)).
    { symmetry.
      exact (layout_of_map (fun t : Z * Z * string => fst (fst t))
                           (fun t => mkMapSeat (snd (fst t)) (snd t))
                           (fun s => (ss_row_index s, ss_seat_number s, ss_status s)) L). }
    rewrite C, layout_of_map. unfold all_available.
    now rewrite <- (layout_of_image seat_row_index
                      (fun s => mkLayoutSeat (seat_seat_number s) (seat_is_aisle s))
                      (fun _ x => mkMapSeat (ls_seat_number x) "available")).
  - intros e E. destruct H as [|h0 H0]; [|discriminate].
    destruct L; [reflexivity | discriminate].
Qed.

Lemma new_show_seat_map_witness :
  exists db' sh,
    get_db (create_show (mkShowCreate 1 1 7200 900)) (serve_all empty_db catalogue)
    = (db', Return sh)
    /\ (forall lay,
          get_db (hall_layout 1 1) (serve_all empty_db catalogue)
          = (serve_all empty_db catalogue, Return lay) ->
          get_db (show_seats_map (show_id sh)) db'
          = (db', Return (mkSeatMap (show_id sh) (all_available (hl_layout lay)))))
    /\ (forall e,
          get_db (hall_layout 1 1) (serve_all empty_db catalogue)
          = (serve_all empty_db catalogue, Raise e) ->
          get_db (show_seats_map (show_id sh)) db'
          = (db', Raise (HTTPException 404 (Message "show seats not found")))).
Proof.
  exact (new_show_seat_map catalogue (mkShowCreate 1 1 7200 900) 1
           ltac:(fits) ltac:(vm_compute; discriminate) ltac:(vm_compute; discriminate)).
Defined.

(** Two sorted lists with the same elements are equal when the order is
    antisymmetric on them. *)
Lemma sorted_perm_eq {A : Type} (R : A -> A -> Prop) (l1 l2 : list A) :
  (forall a b, In a l1 -> In b l1 -> R a b -> R b a -> a = b) ->
  StronglySorted R l1 -> StronglySorted R l2 -> Permutation l1 l2 -> l1 = l2.
Proof.
  revert l2. induction l1 as [|a l1 IH]; intros l2 Hanti H1 H2 P.
  - apply Permutation_nil in P. now subst.
  - destruct l2 as [|b l2]; [apply Permutation_sym, Permutation_nil in P; discriminate|].
    inversion H1 as [|? ? H1' Ha]; subst. inversion H2 as [|? ? H2' Hb]; subst.
    rewrite Forall_forall in Ha, Hb.
    assert (E : a = b).
    { assert (Hin : In a (b :: l2)) by (apply (Permutation_in _ P); now left).
      assert (Hin' : In b (a :: l1))
        by (apply (Permutation_in _ (Permutation_sym P)); now left).
      destruct Hin as [->|Hin]; [reflexivity|].
      destruct Hin' as [->|Hin']; [reflexivity|].
      apply Hanti; [now left | now right | now apply Ha | now apply Hb]. }
    subst b. f_equal. apply IH; trivial.
    + intros x y Hx Hy. apply Hanti; now right.
    + now apply Permutation_cons_inv in P.
Qed.

Lemma fields_leb_spec (a b : Z * Z * Z * bool) :
  fields_leb a b = true <->
  snd (fst (fst a)) < snd (fst (fst b))
  \/ (snd (fst (fst a)) = snd (fst (fst b)) /\ snd (fst a) <= snd (fst b)).
Proof.
  unfold fields_leb.
  rewrite orb_true_iff, andb_true_iff, Z.ltb_lt, Z.eqb_eq, Z.leb_le. tauto.
Qed.

Lemma layout_seats_In (h : Z) (rows : list HallCreateRow) (x : Z * Z * Z * bool) :
  In x (layout_seats h rows) <->
  exists r, In r rows /\ 1 <= snd (fst x) <= hcr_seat_count r
            /\ x = (h, hcr_row_index r, snd (fst x), is_aisle_in r (snd (fst x))).
Proof.
  unfold layout_seats. rewrite in_flat_map. split.
  - intros (r & Hr & Hx). apply in_map_iff in Hx. destruct Hx as (n & <- & Hn).
    apply range_In in Hn. exists r. simpl. split; [exact Hr|]. split; [lia | reflexivity].
  - intros (r & Hr & Hn & E). exists r. split; [exact Hr|]. rewrite E.
    apply in_map_iff. exists (snd (fst x)). split; [reflexivity|]. apply range_In. lia.
Qed.

Lemma range_sorted (lo hi : Z) : StronglySorted Z.lt (Py.range lo hi).
Proof.
  unfold Py.range. apply StronglySorted_map_in with (R := lt); [intros a b _ _ H; lia|].
  generalize 0%nat as a. induction (Z.to_nat (hi - lo)) as [|n IH]; intros a; simpl.
  - constructor.
  - constructor; [apply IH|]. apply Forall_forall. intros x Hx. apply in_seq in Hx. lia.
Qed.

(** The seats of a layout whose rows come in ascending row index are in the
    order of [order_by(row_index, seat_number)]. *)
Lemma layout_seats_sorted (h : Z) (rows : list HallCreateRow) :
  StronglySorted (fun a b => hcr_row_index a < hcr_row_index b) rows ->
  StronglySorted (fun a b => fields_leb a b = true) (layout_seats h rows).
Proof.
  intros Hs. unfold layout_seats.
  apply flat_map_sorted with (R := fun a b => hcr_row_index a < hcr_row_index b);
    [| |exact Hs].
  - intros r.
    apply StronglySorted_map_in with (R := Z.lt).
    + intros a b _ _ Hab. apply fields_leb_spec. simpl. right. split; [reflexivity | lia].
    + apply range_sorted.
  - intros a b x y Hab Hx Hy. apply in_map_iff in Hx, Hy.
    destruct Hx as (n & <- & _), Hy as (m & <- & _).
    apply fields_leb_spec. simpl. now left.
Qed.

Lemma row_index_leb_total (a b : HallCreateRow) :
  (hcr_row_index a <=? hcr_row_index b) = true
  \/ (hcr_row_index b <=? hcr_row_index a) = true.
Proof. rewrite !Z.leb_le. lia. Qed.

Lemma row_index_leb_trans (a b c : HallCreateRow) :
  (hcr_row_index a <=? hcr_row_index b) = true ->
  (hcr_row_index b <=? hcr_row_index c) = true ->
  (hcr_row_index a <=? hcr_row_index c) = true.
Proof. rewrite !Z.leb_le. lia. Qed.

(** Rows with distinct row indices, sorted by row index, are strictly
    ascending. *)
Lemma sorted_rows_ascending (rows : list HallCreateRow) :
  NoDup (map hcr_row_index rows) ->
  StronglySorted (fun a b => hcr_row_index a < hcr_row_index b)
                 (Py.sort (fun a b => hcr_row_index a <=? hcr_row_index b) rows).
Proof.
  intros Hnd.
  set (L := Py.sort (fun a b => hcr_row_index a <=? hcr_row_index b) rows).
  assert (HndL : NoDup (map hcr_row_index L)).
  { apply (Permutation_NoDup (l := map hcr_row_index rows)); [|exact Hnd].
    apply Permutation_map, Permutation_sym, sort_perm. }
  apply StronglySorted_strengthen
    with (R := fun a b => (hcr_row_index a <=? hcr_row_index b) = true).
  - intros a b Ha Hb Hne Hle. apply Z.leb_le in Hle.
    destruct (Z.eq_dec (hcr_row_index a) (hcr_row_index b)) as [E|E]; [|lia].
    elim Hne. exact (NoDup_map_inj_on hcr_row_index L a b HndL Ha Hb E).
  - now apply NoDup_map_inv in HndL.
  - apply sort_sorted; [apply row_index_leb_total | apply row_index_leb_trans].
Qed.

Lemma fields_leb_total (a b : Z * Z * Z * bool) :
  fields_leb a b = true \/ fields_leb b a = true.
Proof. rewrite !fields_leb_spec. lia. Qed.

Lemma fields_leb_trans (a b c : Z * Z * Z * bool) :
  fields_leb a b = true -> fields_leb b c = true -> fields_leb a c = true.
Proof. rewrite !fields_leb_spec. lia. Qed.

(** Ordering the seats of a layout by row and number gives the seats of the
    layout with its rows sorted. *)
Lemma sort_layout_seats (h : Z) (rows : list HallCreateRow) :
  NoDup (map hcr_row_index rows) ->
  Py.sort fields_leb (layout_seats h rows)
  = layout_seats h (Py.sort (fun a b => hcr_row_index a <=? hcr_row_index b) rows).
Proof.
  intros Hnd.
  apply sorted_perm_eq with (R := fun a b => fields_leb a b = true).
  - intros a b Ha Hb Hab Hba. apply sort_In, layout_seats_In in Ha, Hb.
    destruct Ha as (r & Hr & _ & Ea), Hb as (r' & Hr' & _ & Eb).
    apply fields_leb_spec in Hab, Hba. rewrite Ea, Eb in Hab, Hba. simpl in Hab, Hba.
    assert (Ei : hcr_row_index r = hcr_row_index r') by lia.
    assert (En : snd (fst a) = snd (fst b)) by lia.
    assert (r = r') by exact (NoDup_map_inj_on hcr_row_index rows r r' Hnd Hr Hr' Ei).
    subst r'. rewrite Ea, Eb, En. reflexivity.
  - apply sort_sorted; [apply fields_leb_total | apply fields_leb_trans].
  - apply layout_seats_sorted. now apply sorted_rows_ascending.
  - eapply perm_trans; [apply sort_perm|]. unfold layout_seats.
    apply Permutation_flat_map, Permutation_sym, sort_perm.
Qed.

(** The layout dictionary of the seats of a layout with distinct row
    indices and no empty row. *)
Lemma layout_of_layout_seats (h : Z) (rows : list HallCreateRow) :
  NoDup (map hcr_row_index rows) ->
  (forall r, In r rows -> 1 <= hcr_seat_count r) ->
  layout_of (fun x : Z * Z * Z * bool => snd (fst (fst x)))
            (fun x => mkLayoutSeat (snd (fst x)) (snd x))
            (layout_seats h rows)
  = posted_layout rows.
Proof.
  induction rows as [|r rows IH]; intros Hnd Hpos; [reflexivity|].
  inversion Hnd as [|? ? Hr Hrest]; subst. simpl.
  rewrite layout_of_app.
  - rewrite (layout_of_single _ _ _ (hcr_row_index r)).
    + fold (layout_seats h rows). rewrite IH; [|exact Hrest | intros x Hx; apply Hpos; now right].
      simpl. now rewrite map_map.
    + assert (Hin : In 1 (Py.range 1 (hcr_seat_count r + 1))).
      { apply range_In. specialize (Hpos r (or_introl eq_refl)). lia. }
      intros E. apply map_eq_nil in E. rewrite E in Hin. contradiction.
    + intros a Ha. apply in_map_iff in Ha. now destruct Ha as (n & <- & _).
  - intros a b Ha Hb E. apply in_map_iff in Ha. destruct Ha as (n & <- & _).
    fold (layout_seats h rows) in Hb. apply layout_seats_In in Hb.
    destruct Hb as (r' & Hr' & _ & Eb). rewrite Eb in E. simpl in E.
    apply Hr. rewrite E. now apply in_map.
Qed.

(** X14.  [create_hall] followed by [hall_layout]: for a layout with at least
    one row, rows of at least 6 seats and distinct row indices, whose values
    fit their columns, sent for an existing theater on a database reached
    through the endpoints, the hall is
    created and [hall_layout] of the new hall, whatever theater id the path
    names, returns the rows of the request in ascending row index, each with
    its seats 1 to [seat_count] in order and the aisle flags of the request. *)
Theorem hall_layout_after_create_hall (rs : list Request) (theater other : Z)
        (payload : HallCreate) :
  let db := serve_all empty_db rs in
  hall_fits db theater payload ->
  find (fun t => theater_id t =? theater) (theaters db) <> None ->
  hc_rows payload <> [] ->
  (forall r, In r (hc_rows payload) -> 6 <= hcr_seat_count r) ->
  NoDup (map hcr_row_index (hc_rows payload)) ->
  exists db' h,
    get_db (create_hall theater payload) db = (db', Return h)
    /\ get_db (hall_layout other (hall_id h)) db'
       = (db', Return (mkHallLayout (hall_id h)
                         (posted_layout
                            (Py.sort (fun a b => hcr_row_index a <=? hcr_row_index b)
                                     (hc_rows payload))))).
Proof.
  intros db _ Ht Hne Hsix Hnd. pose proof (Inv_reachable rs) as I. fold db in I.
  destruct (create_hall_commits theater payload db I Ht Hsix Hnd) as (new & R & K).
  cbv zeta in R, K. simpl (hall_id _) in K.
  eexists _, _. split; [exact R|]. simpl (hall_id _).
  set (hid := next_id (map hall_id (halls db))) in *.
  set (rows := hc_rows payload) in *.
  set (sorted := Py.sort (fun a b => hcr_row_index a <=? hcr_row_index b) rows).
  assert (Hsel : select_hall_seats_ordered hid
                   (set_seats (seats db ++ new)
                      (add_hall (mkHall hid theater (hc_name payload)) db))
                 = Py.sort seat_row_leb new).
  { unfold select_hall_seats_ordered. simpl. rewrite filter_app.
    rewrite (filter_none _ (seats db)).
    2:{ intros x Hx. apply Z.eqb_neq. intros E. apply (inv_seat_fk db I) in Hx.
        rewrite E in Hx. apply next_id_fresh in Hx. unfold hid in Hx. lia. }
    simpl. f_equal. apply forallb_filter_id. apply forallb_forall. intros x Hx.
    apply Z.eqb_eq.
    assert (Hf : In (seat_fields x) (layout_seats hid rows))
      by (rewrite <- K; now apply in_map).
    apply layout_seats_In in Hf. destruct Hf as (r & _ & _ & E).
    unfold seat_fields in E. now inversion E. }
  assert (Hfields : map seat_fields (Py.sort seat_row_leb new) = layout_seats hid sorted).
  { rewrite <- (sort_map seat_row_leb fields_leb seat_fields) by reflexivity.
    rewrite K. now apply sort_layout_seats. }
  assert (Hlay : layout_of seat_row_index
                   (fun s => mkLayoutSeat (seat_seat_number s) (seat_is_aisle s))
                   (Py.sort seat_row_leb new)
                 = posted_layout sorted).
  { transitivity (layout_of (fun x : Z * Z * Z * bool => snd (fst (fst x)))
                            (fun x => mkLayoutSeat (snd (fst x)) (snd x))
                            (map seat_fields (Py.sort seat_row_leb new))).
    - symmetry.
      exact (layout_of_map (fun x : Z * Z * Z * bool => snd (fst (fst x)))
                           (fun x => mkLayoutSeat (snd (fst x)) (snd x))
                           seat_fields (Py.sort seat_row_leb new)).
    - rewrite Hfields. apply layout_of_layout_seats.
      + apply (Permutation_NoDup (l := map hcr_row_index rows)); [|exact Hnd].
        apply Permutation_map, Permutation_sym, sort_perm.
      + intros r Hr. apply sort_In in Hr. specialize (Hsix r Hr). lia. }
  unfold get_db, hall_layout, bind, db_execute, ret. simpl.
  rewrite Hsel, Hlay.
  destruct (Py.sort seat_row_leb new) eqn:El; [|reflexivity].
  exfalso. simpl in Hfields. destruct rows as [|r0 rows'] eqn:Er; [congruence|].
  assert (Hin : In (hid, hcr_row_index r0, 1, is_aisle_in r0 1) (layout_seats hid sorted)).
  { apply layout_seats_In. exists r0. simpl. split; [|split; [|reflexivity]].
    - apply sort_In. now left.
    - specialize (Hsix r0 (or_introl eq_refl)). lia. }
  rewrite <- Hfields in Hin. contradiction.
Qed.

Lemma hall_layout_after_create_hall_witness :
  exists db' h,
    get_db (create_hall 1 (mkHallCreate "Hall C" [mkHallCreateRow 2 6 (Some [1; 6]);
                                                    mkHallCreateRow 1 7 None]))
           (serve_all empty_db catalogue)
    = (db', Return h)
    /\ get_db (hall_layout 9 (hall_id h)) db'
       = (db', Return (mkHallLayout (hall_id h)
                         (posted_layout
                            (Py.sort (fun a b => hcr_row_index a <=? hcr_row_index b)
                                     [mkHallCreateRow 2 6 (Some [1; 6]);
                                      mkHallCreateRow 1 7 None])))).
Proof.
  apply (hall_layout_after_create_hall catalogue 1 9
           (mkHallCreate "Hall C" [mkHallCreateRow 2 6 (Some [1; 6]);
                                   mkHallCreateRow 1 7 None])).
  - fits.
  - vm_compute. discriminate.
  - discriminate.
  - intros r [<-|[<-|[]]]; simpl; lia.
  - simpl. repeat constructor; simpl; [intros [H|[]]; discriminate | tauto].
Defined.

(** ** The row check behind the validation of the body *)

(** X16.  The handler's own check of the row length never decides the
    answer of [POST /theaters/{theater_id}/halls]: whatever the body and the
    database, the answer is not the 400 "each row must have at least 6
    seats", because a body with a row of fewer than 6 seats is refused by
    the validation of [HallCreateRow] before [create_hall] runs. *)
Theorem post_hall_never_row_too_short (theater : Z) (payload : HallCreate) (db : Db) :
  snd (post_hall theater payload db) <> Raise row_too_short.
Proof.
  unfold post_hall. destruct (HallCreate_valid payload) eqn:V; [|discriminate].
  assert (Hall : forallb (fun r => 6 <=? hcr_seat_count r) (hc_rows payload) = true).
  { unfold HallCreate_valid in V. rewrite forallb_forall in V |- *.
    intros r Hr. specialize (V r Hr). unfold HallCreateRow_valid in V.
    now apply andb_true_iff in V. }
  pose proof (create_hall_run theater payload db) as R. cbv zeta in R.
  rewrite Hall in R.
  destruct (find _ (theaters db)); [|rewrite R; discriminate].
  destruct (uq_hall_row_seat db && uq_show_row_seat db); [|rewrite R; discriminate].
  destruct R as (added & _ & R). rewrite R.
  destruct (uq_hall_row_seat _ && uq_show_row_seat _); discriminate.
Qed.

(** ** A hall for a new theater *)

(** X18.  [create_theater] followed by [create_hall], for values that fit
    their columns: on a database reached through the endpoints
    [create_theater] commits a theater with the name and location of the
    request under an id no theater had, after the theaters that were there;
    and [create_hall] for that id, with rows of at least 6 seats and
    distinct row indices, finds the theater and commits a hall that belongs
    to it. *)
Theorem hall_of_new_theater (rs : list Request) (name : string) (location : option string)
        (payload : HallCreate) :
  let db := serve_all empty_db rs in
  theater_fits db name location ->
  hall_fits db (next_id (map theater_id (theaters db))) payload ->
  (forall r, In r (hc_rows payload) -> 6 <= hcr_seat_count r) ->
  NoDup (map hcr_row_index (hc_rows payload)) ->
  exists db1 t db2 h,
    get_db (create_theater name location) db = (db1, Return t)
    /\ t = mkTheater (theater_id t) name location
    /\ ~ In (theater_id t) (map theater_id (theaters db))
    /\ theaters db1 = theaters db ++ [t]
    /\ get_db (create_hall (theater_id t) payload) db1 = (db2, Return h)
    /\ hall_theater_id h = theater_id t
    /\ In h (halls db2).
Proof.
  intros db _ _ Hsix Hnd. pose proof (Inv_reachable rs) as I. fold db in I.
  pose proof (create_theater_run name location db) as R.
  rewrite (inv_uq_hall db I), (inv_uq_show db I) in R. cbv zeta in R. simpl in R.
  set (t := mkTheater (next_id (map theater_id (theaters db))) name location) in *.
  assert (I1 : Inv (add_theater t db)) by now apply Inv_add_theater.
  assert (Hfind : find (fun y => theater_id y =? theater_id t) (theaters (add_theater t db))
                  <> None).
  { simpl (theaters _). rewrite (find_new_id theater_id (theaters db) t eq_refl).
    discriminate. }
  destruct (create_hall_commits (theater_id t) payload (add_theater t db) I1 Hfind Hsix Hnd)
    as (new & R2 & _).
  cbv zeta in R2.
  exists (add_theater t db), t. eexists _, _.
  split; [exact R|]. split; [reflexivity|]. split; [|split; [reflexivity|]].
  - intros Hin. apply next_id_fresh in Hin. simpl in Hin. lia.
  - split; [exact R2|]. split; [reflexivity|]. simpl. apply in_or_app. right. now left.
Qed.

Lemma hall_of_new_theater_witness :
  exists db1 t db2 h,
    get_db (create_theater "North" (Some "Quay 4")) (serve_all empty_db catalogue)
    = (db1, Return t)
    /\ t = mkTheater (theater_id t) "North" (Some "Quay 4")
    /\ ~ In (theater_id t) (map theater_id (theaters (serve_all empty_db catalogue)))
    /\ theaters db1 = theaters (serve_all empty_db catalogue) ++ [t]
    /\ get_db (create_hall (theater_id t) layout_10) db1 = (db2, Return h)
    /\ hall_theater_id h = theater_id t
    /\ In h (halls db2).
Proof.
  apply (hall_of_new_theater catalogue "North" (Some "Quay 4") layout_10).
  - fits.
  - unfold layout_10. fits.
  - intros r [<-|[]]. simpl. lia.
  - simpl. repeat constructor. intros [].
Defined.

(** ** The API stores no booking *)

Lemma get_booking_run (id : Z) (db : Db) :
  get_db (get_booking id) db
  = (db, match find (fun x => booking_id x =? id) (bookings db) with
         | None => Raise (HTTPException 404 (Message "booking not found"))
         | Some b => Return (mkBookingView b (map seat_pair (select_seats_of_booking id db)))
         end).
Proof.
  unfold get_db, get_booking, bind, db_get_booking, db_execute, ret, raise. simpl.
  now destruct (find _ (bookings db)).
Qed.

(** A request of the API leaves the bookings as they are and adds only
    available seats without a booking. *)
Lemma api_request_step (db : Db) (r : Request) :
  Inv db -> api_request r = true ->
  exists added,
    show_seats (serve db r) = show_seats db ++ added
    /\ Forall (fun x => ss_status x = "available" /\ ss_booking_id x = None) added
    /\ bookings (serve db r) = bookings db.
Proof.
  intros I Hr. pose proof (inv_uq_hall db I) as Uh. pose proof (inv_uq_show db I) as Us.
  assert (Hsame : exists added,
             show_seats db = show_seats db ++ added
             /\ Forall (fun x => ss_status x = "available" /\ ss_booking_id x = None) added
             /\ bookings db = bookings db).
  { exists []. rewrite app_nil_r. repeat split. constructor. }
  destruct r as [title duration|name location|theater payload|payload|payload now
                 |payload now c]; simpl; try discriminate Hr.
  - rewrite create_movie_run, Uh, Us. simpl. exact Hsame.
  - rewrite create_theater_run, Uh, Us. simpl. exact Hsame.
  - unfold post_hall. destruct (HallCreate_valid payload); [|exact Hsame].
    pose proof (create_hall_run theater payload db) as R. cbv zeta in R.
    destruct (find _ (theaters db)); [|rewrite R; exact Hsame].
    rewrite Uh, Us in R. simpl in R.
    destruct (forallb _ (hc_rows payload)); [|rewrite R; exact Hsame].
    destruct R as (added & K & R). rewrite R.
    destruct (uq_hall_row_seat _ && uq_show_row_seat _); exact Hsame.
  - pose proof (create_show_run payload db) as R. cbv zeta in R.
    destruct (find _ (movies db)); [|rewrite R; exact Hsame].
    destruct (find _ (halls db)); [|rewrite R; exact Hsame].
    rewrite Uh, Us in R. simpl in R. destruct R as (added & K & F & R). rewrite R.
    destruct (uq_hall_row_seat _ && uq_show_row_seat _); [|exact Hsame].
    simpl. exists added. repeat split. exact F.
  - rewrite post_book_outcome. exact Hsame.
Qed.

Lemma api_requests_keep (rs : list Request) (db : Db) :
  Inv db -> forallb api_request rs = true ->
  bookings db = [] ->
  (forall s, In s (show_seats db) -> ss_status s = "available" /\ ss_booking_id s = None) ->
  bookings (serve_all db rs) = []
  /\ forall s, In s (show_seats (serve_all db rs)) ->
               ss_status s = "available" /\ ss_booking_id s = None.
Proof.
  revert db. induction rs as [|r rs IH]; intros db I Hrs Hb Hs; simpl; [now split|].
  simpl in Hrs. apply andb_true_iff in Hrs. destruct Hrs as [Hr Hrs].
  destruct (api_request_step db r I Hr) as (added & E & F & Eb).
  apply IH; [now apply Inv_serve | exact Hrs | now rewrite Eb |].
  intros s Hin. rewrite E in Hin. apply in_app_or in Hin.
  destruct Hin as [Hin|Hin]; [now apply Hs|].
  rewrite Forall_forall in F. now apply F.
Qed.

(** X19.  The API stores no booking.  After every sequence of requests of
    the API, starting from the empty database: the table of bookings is
    empty; every seat of every show is available and carries no booking;
    [GET /bookings/{booking_id}] answers 404 for every id of the range of
    the key column; and every [POST /book] is answered with an error and
    changes nothing. *)
Theorem api_stores_no_booking (rs : list Request) :
  forallb api_request rs = true ->
  let db := serve_all empty_db rs in
  bookings db = []
  /\ (forall s, In s (show_seats db) ->
                ss_status s = "available" /\ ss_booking_id s = None)
  /\ (forall id, int32 id ->
                 get_db (get_booking id) db
                 = (db, Raise (HTTPException 404 (Message "booking not found"))))
  /\ (forall payload now, exists e, post_book payload now db = (db, Raise e)).
Proof.
  intros Hrs db.
  destruct (api_requests_keep rs empty_db Inv_empty Hrs eq_refl) as [Hb Hs].
  { intros s []. }
  fold db in Hb, Hs. split; [exact Hb|]. split; [exact Hs|]. split.
  - intros id _. rewrite get_booking_run, Hb. reflexivity.
  - intros payload now. rewrite post_book_outcome.
    destruct (find _ (shows db)); [|eexists; reflexivity].
    destruct (found db _ _); eexists; reflexivity.
Qed.

Lemma api_stores_no_booking_witness :
  bookings (serve_all empty_db
              (catalogue ++ [PostBook (mkBookingRequest 1 None 3) 5;
                             PostBook (mkBookingRequest 1 None 0) 6])) = []
  /\ get_db (get_booking 1)
            (serve_all empty_db
               (catalogue ++ [PostBook (mkBookingRequest 1 None 3) 5;
                              PostBook (mkBookingRequest 1 None 0) 6]))
     = (serve_all empty_db
          (catalogue ++ [PostBook (mkBookingRequest 1 None 3) 5;
                         PostBook (mkBookingRequest 1 None 0) 6]),
        Raise (HTTPException 404 (Message "booking not found"))).
Proof.
  pose proof (api_stores_no_booking
                (catalogue ++ [PostBook (mkBookingRequest 1 None 3) 5;
                               PostBook (mkBookingRequest 1 None 0) 6])
                ltac:(vm_compute; reflexivity)) as H.
  cbv zeta in H. destruct H as (Hb & _ & Hg & _).
  split; [exact Hb | exact (Hg 1 ltac:(fits))].
Defined.
